(** * vimbax_camera: the streaming engine of the Vimba X ROS 2 driver

    A shallow embedding of [vimbax_camera/src/vimbax_camera.cpp]: the
    capture state machine ([start_streaming], [stop_streaming]), the frame
    buffers ([Frame::create], [Frame::queue]), the completion callback
    ([vmb_frame_callback], [on_frame_ready]) and the normalisation of a
    frame ([transform], [get_image_encoding], [timestamp_to_ns]).

    The vendor API ([VmbCAPI], a table of function pointers) is an interface
    of the environment.  It is modelled as a record of functions that see the
    trace of everything that happened so far and answer with an error code
    and the value of their out-parameter; every call is appended to the
    trace, so that "was this call made" is a property of the trace. *)

From stdpp Require Import base list strings pretty.
From Stdlib Require Import ZArith Lia.

Local Open Scope Z_scope.

(** ** Machine integers

    Values are kept in [Z]; a conversion to a fixed-width type is written
    out where the source converts. *)

Definition uint32_t (z : Z) : Z := z mod 2 ^ 32.
Definition uint64_t (z : Z) : Z := z mod 2 ^ 64.
Definition int32_t (z : Z) : Z := (z + 2 ^ 31) mod 2 ^ 32 - 2 ^ 31.
(** Signed 64-bit arithmetic wraps in this model (two's complement), as the
    compiled code does. *)
Definition int64_t (z : Z) : Z := (z + 2 ^ 63) mod 2 ^ 64 - 2 ^ 63.

(** [std::nano::den] *)
Definition nano_den : Z := 1000000000.

(** ** Error codes and [result<T>] *)

(** [VmbError_t].  The numeric values live in the vendor header; the source
    names the enumerators below, [VmbErrorCode] stands for every other
    code. *)
Inductive VmbError_t :=
| VmbErrorSuccess
| VmbErrorInvalidAddress
| VmbErrorNotAvailable
| VmbErrorUnknown
| VmbErrorCode (code : Z).

Definition is_success (e : VmbError_t) : bool :=
  match e with VmbErrorSuccess => true | _ => false end.

Inductive result (T : Type) :=
| Ok (value : T)
| Err (error : VmbError_t).
Arguments Ok {T} value.
Arguments Err {T} error.

(** ** Pixel formats

    [VmbPixelFormatType] with the enumerators that the two [switch]
    statements of the file name; the numeric tags are in the vendor header.
    [VmbPixelFormatUnlisted] stands for any tag value that is none of the
    case labels. *)
Inductive VmbPixelFormatType :=
| VmbPixelFormatMono8 | VmbPixelFormatMono10 | VmbPixelFormatMono12
| VmbPixelFormatMono14 | VmbPixelFormatMono16
| VmbPixelFormatBayerGR8 | VmbPixelFormatBayerRG8
| VmbPixelFormatBayerGB8 | VmbPixelFormatBayerBG8
| VmbPixelFormatBayerGR10 | VmbPixelFormatBayerRG10
| VmbPixelFormatBayerGB10 | VmbPixelFormatBayerBG10
| VmbPixelFormatBayerGR12 | VmbPixelFormatBayerRG12
| VmbPixelFormatBayerGB12 | VmbPixelFormatBayerBG12
| VmbPixelFormatBayerGR16 | VmbPixelFormatBayerRG16
| VmbPixelFormatBayerGB16 | VmbPixelFormatBayerBG16
| VmbPixelFormatRgb8 | VmbPixelFormatBgr8
| VmbPixelFormatRgb16 | VmbPixelFormatBgr16
| VmbPixelFormatArgb8 | VmbPixelFormatBgra8
| VmbPixelFormatRgba16 | VmbPixelFormatBgra16
| VmbPixelFormatYuv422 | VmbPixelFormatYuv422_8
| VmbPixelFormatYCbCr422_8 | VmbPixelFormatYCbCr601_422_8
| VmbPixelFormatYCbCr709_422_8 | VmbPixelFormatYCbCr422_8_CbYCrY
| VmbPixelFormatYCbCr601_422_8_CbYCrY | VmbPixelFormatYCbCr709_422_8_CbYCrY
| VmbPixelFormatUnlisted (tag : Z).

(** [VmbFrameStatusType]: the source names only the success status. *)
Inductive VmbFrameStatusType :=
| VmbFrameStatusComplete
| VmbFrameStatusOther (code : Z).

Inductive AllocationMode := kByImage | kByTl.

(** The feature names of [SFNCFeatures] used by the streaming engine, and
    the literal name used by [timestamp_to_ns]. *)
Inductive FeatureName :=
| AcquisitionStart | AcquisitionStop | PixelFormat | Width | Height
| DeviceTimestampFrequency.

Inductive Handle := camera_handle_ | localDeviceHandle.

(** ** Frames *)

(** [VmbFrame_t], the part the driver reads or writes.  [buffer] is
    [None] for [nullptr] and [Some a] for the [data.data()] of the frame at
    address [a]; [bufferSize] is a 32-bit field; [imageData] is the content
    of the memory the vendor API's [imageData] pointer refers to when the
    completion callback runs. *)
Record VmbFrame_t := {
  buffer : option nat;
  bufferSize : Z;
  context0 : nat;
  receiveStatus : VmbFrameStatusType;
  frameID : Z;
  timestamp : Z;
  imageData : list Z;
  pixelFormat : VmbPixelFormatType;
  vmb_width : Z;
  vmb_height : Z
}.

(** The consumer callback [std::function<void(std::shared_ptr<Frame>)>] is
    opaque: it is known by an identity, [None] is the empty function. *)
Definition Callback := option nat.

(** [VimbaXCamera::Frame]: the [sensor_msgs::msg::Image] it derives from
    (header, geometry, encoding, [data] as bytes) and its private members.
    The [camera_] weak pointer refers to the one camera of the world. *)
Record Frame := {
  header_frame_id : string;
  header_stamp_sec : Z;
  header_stamp_nanosec : Z;
  height : Z;
  width : Z;
  encoding : string;
  is_bigendian : bool;
  step : Z;
  data : list Z;
  vmb_frame_ : VmbFrame_t;
  allocation_mode_ : AllocationMode;
  callback_ : Callback
}.

Definition set_vmb_buffer (b : option nat) (sz : Z) (v : VmbFrame_t) : VmbFrame_t :=
  {| buffer := b; bufferSize := sz; context0 := context0 v;
     receiveStatus := receiveStatus v; frameID := frameID v;
     timestamp := timestamp v; imageData := imageData v;
     pixelFormat := pixelFormat v; vmb_width := vmb_width v;
     vmb_height := vmb_height v |}.

Definition set_data (d : list Z) (f : Frame) : Frame :=
  {| header_frame_id := header_frame_id f; header_stamp_sec := header_stamp_sec f;
     header_stamp_nanosec := header_stamp_nanosec f; height := height f;
     width := width f; encoding := encoding f; is_bigendian := is_bigendian f;
     step := step f; data := d; vmb_frame_ := vmb_frame_ f;
     allocation_mode_ := allocation_mode_ f; callback_ := callback_ f |}.

Definition set_step (s : Z) (f : Frame) : Frame :=
  {| header_frame_id := header_frame_id f; header_stamp_sec := header_stamp_sec f;
     header_stamp_nanosec := header_stamp_nanosec f; height := height f;
     width := width f; encoding := encoding f; is_bigendian := is_bigendian f;
     step := s; data := data f; vmb_frame_ := vmb_frame_ f;
     allocation_mode_ := allocation_mode_ f; callback_ := callback_ f |}.

Definition set_vmb_frame (v : VmbFrame_t) (f : Frame) : Frame :=
  {| header_frame_id := header_frame_id f; header_stamp_sec := header_stamp_sec f;
     header_stamp_nanosec := header_stamp_nanosec f; height := height f;
     width := width f; encoding := encoding f; is_bigendian := is_bigendian f;
     step := step f; data := data f; vmb_frame_ := v;
     allocation_mode_ := allocation_mode_ f; callback_ := callback_ f |}.

(** [Frame::set_callback] *)
Definition set_callback (cb : Callback) (f : Frame) : Frame :=
  {| header_frame_id := header_frame_id f; header_stamp_sec := header_stamp_sec f;
     header_stamp_nanosec := header_stamp_nanosec f; height := height f;
     width := width f; encoding := encoding f; is_bigendian := is_bigendian f;
     step := step f; data := data f; vmb_frame_ := vmb_frame_ f;
     allocation_mode_ := allocation_mode_ f; callback_ := cb |}.

(** The constructor [Frame::Frame(camera, allocationMode)]: an empty image
    message and a [vmb_frame_] whose [context[0]] is [this].  The fields of
    [vmb_frame_] that the vendor API fills in on completion start at
    placeholder values; nothing reads them before the API wrote them. *)
Definition Frame_new (this : nat) (allocationMode : AllocationMode) : Frame :=
  {| header_frame_id := ""; header_stamp_sec := 0; header_stamp_nanosec := 0;
     height := 0; width := 0; encoding := ""; is_bigendian := false;
     step := 0; data := [];
     vmb_frame_ := {| buffer := None; bufferSize := 0; context0 := this;
                      receiveStatus := VmbFrameStatusComplete; frameID := 0;
                      timestamp := 0; imageData := [];
                      pixelFormat := VmbPixelFormatUnlisted 0;
                      vmb_width := 0; vmb_height := 0 |};
     allocation_mode_ := allocationMode; callback_ := None |}.

(** ** The vendor API and the trace *)

(** One entry per call of the vendor API, with what it answered, and one
    entry for each invocation of the consumer callback and for each
    100 ms sleep of the command poll. *)
Inductive Event :=
| EvPayloadSizeGet (err : VmbError_t) (payloadSize : Z)
| EvFeatureInfoQuery (name : FeatureName) (err : VmbError_t)
    (sfncNamespace : option string)
| EvFeatureEnumGet (name : FeatureName) (err : VmbError_t) (value : string)
| EvFeatureEnumAsInt (name : FeatureName) (option_ : string)
    (err : VmbError_t) (value : Z)
| EvFeatureIntGet (h : Handle) (name : FeatureName) (err : VmbError_t) (value : Z)
| EvFrameAnnounce (frame : nat) (buf : option nat) (bufSize : Z) (err : VmbError_t)
| EvCaptureStart (err : VmbError_t)
| EvCaptureFrameQueue (frame : nat) (err : VmbError_t)
| EvFeatureCommandRun (name : FeatureName) (err : VmbError_t)
| EvFeatureCommandIsDone (name : FeatureName) (done : bool)
| EvSleep100ms
| EvCaptureEnd (err : VmbError_t)
| EvCaptureQueueFlush (err : VmbError_t)
| EvFrameRevokeAll (err : VmbError_t)
| EvCallback (cb : nat) (frame : Frame).

Definition Trace := list Event.

(** [VmbCAPI]: each function pointer the engine calls, as a function of the
    trace so far and of the arguments that matter.  The camera handle is the
    one handle of the session and is left out, except where the source
    passes another one ([FeatureIntGet]). *)
Record VmbCAPI := {
  PayloadSizeGet : Trace -> VmbError_t * Z;
  FeatureInfoQuery : Trace -> FeatureName -> VmbError_t * option string;
  FeatureEnumGet : Trace -> FeatureName -> VmbError_t * string;
  FeatureEnumAsInt : Trace -> FeatureName -> string -> VmbError_t * Z;
  FeatureIntGet : Trace -> Handle -> FeatureName -> VmbError_t * Z;
  FrameAnnounce : Trace -> VmbFrame_t -> VmbError_t;
  CaptureStart : Trace -> VmbError_t;
  CaptureFrameQueue : Trace -> VmbFrame_t -> VmbError_t;
  FeatureCommandRun : Trace -> FeatureName -> VmbError_t;
  FeatureCommandIsDone : Trace -> FeatureName -> bool;
  CaptureEnd : Trace -> VmbError_t;
  CaptureQueueFlush : Trace -> VmbError_t;
  FrameRevokeAll : Trace -> VmbError_t
}.

(** ** The world: the camera object, the trace, the allocator *)

(** The members of [VimbaXCamera] that the engine changes: [frames_] is a
    vector of shared pointers, [None] is the null pointer that [resize]
    fills in. *)
Record VimbaXCamera := {
  streaming_ : bool;
  frames_ : list (option Frame)
}.

(** [expired] says whether the camera object is gone, which is what the
    [camera_] weak pointer of a frame observes; [fresh] is the address the
    next [new Frame] gets. *)
Record World := {
  self : VimbaXCamera;
  expired : bool;
  trace : Trace;
  fresh : nat
}.

(** How a call can end other than by returning: an exception of the
    standard library, behaviour the language leaves undefined, or (for the
    unbounded command poll) the fuel of the model running out. *)
Inductive Abort :=
| length_error
| bad_weak_ptr
| division_by_zero
| read_out_of_bounds
| null_dereference
| poll_pending.

Inductive Outcome (A : Type) :=
| Returns (a : A) (w : World)
| Aborts (why : Abort).
Arguments Returns {A} a w.
Arguments Aborts {A} why.

Definition M (A : Type) : Type := World -> Outcome A.

Definition ret {A} (a : A) : M A := fun w => Returns a w.

Definition bind {A B} (m : M A) (k : A -> M B) : M B :=
  fun w => match m w with
           | Returns a w' => k a w'
           | Aborts why => Aborts why
           end.

Definition abort {A} (why : Abort) : M A := fun _ => Aborts why.

Declare Scope engine_scope.
Delimit Scope engine_scope with engine.
Notation "x <- m ;; k" := (bind m (fun x => k))
  (at level 100, m at next level, right associativity) : engine_scope.
Notation "m ;;; k" := (bind m (fun _ => k))
  (at level 100, right associativity) : engine_scope.
Local Open Scope engine_scope.

Definition get_self : M VimbaXCamera := fun w => Returns (self w) w.

Definition put_self (c : VimbaXCamera) : M unit :=
  fun w => Returns tt {| self := c; expired := expired w;
                         trace := trace w; fresh := fresh w |}.

Definition camera_expired : M bool := fun w => Returns (expired w) w.

(** Append one event to the trace. *)
Definition emit (e : Event) : M unit :=
  fun w => Returns tt {| self := self w; expired := expired w;
                         trace := trace w ++ [e]; fresh := fresh w |}.

(** Call a function pointer of the API: its answer is computed from the
    trace so far, and the call is recorded. *)
Definition call {A} (answer : Trace -> A) (record : A -> Event) : M A :=
  fun w => let r := answer (trace w) in
           Returns r {| self := self w; expired := expired w;
                        trace := trace w ++ [record r]; fresh := fresh w |}.

(** [new Frame{...}]: take the next address. *)
Definition allocate : M nat :=
  fun w => Returns (fresh w) {| self := self w; expired := expired w;
                                trace := trace w; fresh := S (fresh w) |}.

Definition set_streaming (b : bool) : M unit :=
  c <- get_self ;; put_self {| streaming_ := b; frames_ := frames_ c |}.

Definition set_frames (fs : list (option Frame)) : M unit :=
  c <- get_self ;; put_self {| streaming_ := streaming_ c; frames_ := fs |}.

(** ** Feature access *)

Section Engine.

Variable api_ : VmbCAPI.

(** The poll of [feature_command_run]: [while (!done) { sleep; IsDone }].
    The source loop has no bound; [fuel] bounds the number of rounds of the
    model, and running out of it is [poll_pending]. *)
Fixpoint poll_command_done (fuel : nat) (name : FeatureName) (done : bool)
  : M (result unit) :=
  if done then ret (Ok tt)
  else match fuel with
       | O => abort poll_pending
       | S fuel' =>
           emit EvSleep100ms ;;;
           done' <- call (fun t => FeatureCommandIsDone api_ t name)
                         (EvFeatureCommandIsDone name) ;;
           poll_command_done fuel' name done'
       end.

Definition feature_command_run (fuel : nat) (name : FeatureName) : M (result unit) :=
  runError <- call (fun t => FeatureCommandRun api_ t name)
                   (EvFeatureCommandRun name) ;;
  if negb (is_success runError) then ret (Err runError)
  else
    done <- call (fun t => FeatureCommandIsDone api_ t name)
                 (EvFeatureCommandIsDone name) ;;
    poll_command_done fuel name done.

Definition feature_int_get (name : FeatureName) : M (result Z) :=
  r <- call (fun t => FeatureIntGet api_ t camera_handle_ name)
            (fun r => EvFeatureIntGet camera_handle_ name r.1 r.2) ;;
  if negb (is_success r.1) then ret (Err r.1)
  else ret (Ok (int64_t r.2)).

Definition feature_enum_get (name : FeatureName) : M (result string) :=
  r <- call (fun t => FeatureEnumGet api_ t name)
            (fun r => EvFeatureEnumGet name r.1 r.2) ;;
  if negb (is_success r.1) then ret (Err r.1)
  else ret (Ok r.2).

Definition feature_enum_as_int (name : FeatureName) (option_ : string)
  : M (result Z) :=
  r <- call (fun t => FeatureEnumAsInt api_ t name option_)
            (fun r => EvFeatureEnumAsInt name option_ r.1 r.2) ;;
  if negb (is_success r.1) then ret (Err r.1)
  else ret (Ok (int64_t r.2)).

(** [feature_info_query]; of the [VmbFeatureInfo] the engine reads only
    [sfncNamespace], [None] being the null pointer. *)
Definition feature_info_query (name : FeatureName) : M (result (option string)) :=
  r <- call (fun t => FeatureInfoQuery api_ t name)
            (fun r => EvFeatureInfoQuery name r.1 r.2) ;;
  if negb (is_success r.1) then ret (Err r.1)
  else ret (Ok r.2).

(** [get_pixel_format]; the result is the numeric tag, converted to the
    32-bit enumeration. *)
Definition get_pixel_format : M (result Z) :=
  featureInfoOpt <- feature_info_query PixelFormat ;;
  match featureInfoOpt with
  | Err e => ret (Err e)
  | Ok None => ret (Err VmbErrorInvalidAddress)
  | Ok (Some sfncNamespace) =>
      if negb (String.eqb sfncNamespace "Standard") then ret (Err VmbErrorNotAvailable)
      else
        currentFormatStr <- feature_enum_get PixelFormat ;;
        match currentFormatStr with
        | Err e => ret (Err e)
        | Ok str =>
            currentFormat <- feature_enum_as_int PixelFormat str ;;
            match currentFormat with
            | Err e => ret (Err e)
            | Ok v => ret (Ok (uint32_t v))
            end
        end
  end.

(** ** Frame buffers *)

(** [std::vector::resize] on the empty [data]: [n] zero bytes; a size above
    [max_size()] throws. *)
Definition data_resize (n : Z) (f : Frame) : M Frame :=
  if 2 ^ 63 - 1 <? n then abort length_error
  else ret (set_data (replicate (Z.to_nat n) 0) f).

(** [Frame::create(camera, size, alignment)] *)
Definition Frame_create (size alignment : Z) : M (result Frame) :=
  pixelFormat <- get_pixel_format ;;
  match pixelFormat with
  | Err e => ret (Err e)
  | Ok pixelFormat =>
      let bpp := Z.land (Z.shiftr pixelFormat 16) 255 in
      width <- feature_int_get Width ;;
      height <- feature_int_get Height ;;
      match width, height with
      | Err e, _ => ret (Err e)
      | Ok _, Err e => ret (Err e)
      | Ok width, Ok height =>
          let line := int64_t (Z.quot (int64_t (width * bpp)) 8) in
          let realSize := uint64_t (int64_t (height * line)) in
          let allocMode := if realSize =? size then kByImage else kByTl in
          this <- allocate ;;
          let frame := Frame_new this allocMode in
          frame <- match allocMode with
                   | kByTl =>
                       frame <- data_resize realSize frame ;;
                       ret (set_vmb_frame
                              (set_vmb_buffer None (uint32_t size)
                                 (vmb_frame_ frame)) frame)
                   | kByImage =>
                       frame <- data_resize size frame ;;
                       ret (set_vmb_frame
                              (set_vmb_buffer (Some this)
                                 (uint32_t (Z.of_nat (length (data frame))))
                                 (vmb_frame_ frame)) frame)
                   end ;;
          let frame := set_step (uint32_t line) frame in
          announceError <- call (fun t => FrameAnnounce api_ t (vmb_frame_ frame))
                                (EvFrameAnnounce this (buffer (vmb_frame_ frame))
                                   (bufferSize (vmb_frame_ frame))) ;;
          if negb (is_success announceError) then ret (Err announceError)
          else ret (Ok frame)
      end
  end.

(** [Frame::queue] *)
Definition Frame_queue (f : Frame) : M VmbError_t :=
  gone <- camera_expired ;;
  if negb gone then
    call (fun t => CaptureFrameQueue api_ t (vmb_frame_ f))
         (EvCaptureFrameQueue (context0 (vmb_frame_ f)))
  else ret VmbErrorUnknown.

(** [shared_from_this()] of the camera: throws when no shared pointer owns
    the object any more. *)
Definition shared_from_this : M unit :=
  gone <- camera_expired ;;
  if gone then abort bad_weak_ptr else ret tt.


(** ** The capture state machine *)

(** The first loop of [start_streaming], [for (auto & frame : frames_)],
    from slot [i] on for [n] slots: create a frame, give up at the first
    failure, otherwise store it in the slot and set its callback. *)
Fixpoint create_frames (payloadSize : Z) (onFrame : Callback) (i n : nat)
  : M (result unit) :=
  match n with
  | O => ret (Ok tt)
  | S n' =>
      shared_from_this ;;;
      newFrame <- Frame_create payloadSize 128 ;;
      match newFrame with
      | Err e => ret (Err e)
      | Ok frame =>
          c <- get_self ;;
          set_frames (<[i := Some (set_callback onFrame frame)]> (frames_ c)) ;;;
          create_frames payloadSize onFrame (S i) n'
      end
  end.

(** The second loop, [for (auto const & frame : frames_)]: queue each
    frame, give up at the first failure. *)
Fixpoint queue_frames (frames : list (option Frame)) : M (result unit) :=
  match frames with
  | [] => ret (Ok tt)
  | None :: _ => abort null_dereference
  | Some frame :: rest =>
      queueError <- Frame_queue frame ;;
      if negb (is_success queueError) then ret (Err queueError)
      else queue_frames rest
  end.

(** [frames_.clear(); frames_.resize(bufferCount)]: [bufferCount] is an
    [int], a negative one converts to a size above [max_size()]. *)
Definition frames_reset (bufferCount : Z) : M unit :=
  set_frames [] ;;;
  if bufferCount <? 0 then abort length_error
  else set_frames (replicate (Z.to_nat bufferCount) None).

Definition start_streaming (fuel : nat) (bufferCount : Z) (onFrame : Callback)
    (startAcquisition : bool) : M (result unit) :=
  c <- get_self ;;
  if negb (streaming_ c) then
    frames_reset bufferCount ;;;
    payload <- call (PayloadSizeGet api_) (fun r => EvPayloadSizeGet r.1 r.2) ;;
    if negb (is_success payload.1) then ret (Err payload.1)
    else
      let payloadSize := uint32_t payload.2 in
      created <- create_frames payloadSize onFrame 0 (Z.to_nat bufferCount) ;;
      match created with
      | Err e => ret (Err e)
      | Ok _ =>
          capStartError <- call (CaptureStart api_) EvCaptureStart ;;
          if negb (is_success capStartError) then ret (Err capStartError)
          else
            c <- get_self ;;
            queued <- queue_frames (frames_ c) ;;
            match queued with
            | Err e => ret (Err e)
            | Ok _ =>
                if startAcquisition then
                  acqStartError <- feature_command_run fuel AcquisitionStart ;;
                  match acqStartError with
                  | Err e => ret (Err e)
                  | Ok _ => set_streaming true ;;; ret (Ok tt)
                  end
                else set_streaming true ;;; ret (Ok tt)
            end
      end
  else ret (Ok tt).

Definition stop_streaming (fuel : nat) : M (result unit) :=
  c <- get_self ;;
  if negb (streaming_ c) then ret (Ok tt)
  else
    acqStopError <- feature_command_run fuel AcquisitionStop ;;
    match acqStopError with
    | Err e => ret (Err e)
    | Ok _ =>
        capStopError <- call (CaptureEnd api_) EvCaptureEnd ;;
        if negb (is_success capStopError) then ret (Err capStopError)
        else
          flushError <- call (CaptureQueueFlush api_) EvCaptureQueueFlush ;;
          if negb (is_success flushError) then ret (Err flushError)
          else
            revokeError <- call (FrameRevokeAll api_) EvFrameRevokeAll ;;
            if negb (is_success revokeError) then ret (Err revokeError)
            else
              set_frames [] ;;;
              set_streaming false ;;;
              ret (Ok tt)
    end.

Definition is_streaming (w : World) : bool := streaming_ (self w).

(** ** Timestamps *)

(** Integer division, signed and unsigned 64-bit; a zero divisor is
    undefined behaviour. *)
Definition sdiv64 (a b : Z) : M Z :=
  if b =? 0 then abort division_by_zero else ret (int64_t (Z.quot a b)).

Definition udiv64 (a b : Z) : M Z :=
  if b =? 0 then abort division_by_zero else ret (a / b).

(** [Frame::timestamp_to_ns]; [timestamp] is a [uint64_t], the frequency an
    [int64_t] that starts at zero and that the API overwrites. *)
Definition timestamp_to_ns (timestamp : Z) : M Z :=
  gone <- camera_expired ;;
  if negb gone then
    r <- call (fun t => FeatureIntGet api_ t localDeviceHandle DeviceTimestampFrequency)
              (fun r => EvFeatureIntGet localDeviceHandle DeviceTimestampFrequency
                          r.1 r.2) ;;
    let timestampFrequency := int64_t r.2 in
    if is_success r.1 then
      if nano_den <? timestampFrequency then
        q <- sdiv64 timestampFrequency nano_den ;;
        udiv64 timestamp (uint64_t q)
      else
        q <- sdiv64 nano_den timestampFrequency ;;
        ret (uint64_t (timestamp * uint64_t q))
    else ret timestamp
  else ret timestamp.

End Engine.

(** ** Pixel transform *)

(** Modelled from the spec: the string constants of
    [sensor_msgs::image_encodings], declared in a header that is not under
    src/.  The spec (section 4.1) lists them as mono8, mono16, the Bayer
    patterns at 8 and 16 bit, RGB/BGR/RGBA/BGRA at 8 and 16 bit, the YUV422
    variants and the generic untyped single-channel 8-bit fallback. *)
Module image_encodings.
Definition MONO8 : string := "mono8".
Definition MONO16 : string := "mono16".
Definition BAYER_RGGB8 : string := "bayer_rggb8".
Definition BAYER_BGGR8 : string := "bayer_bggr8".
Definition BAYER_GBRG8 : string := "bayer_gbrg8".
Definition BAYER_GRBG8 : string := "bayer_grbg8".
Definition BAYER_RGGB16 : string := "bayer_rggb16".
Definition BAYER_BGGR16 : string := "bayer_bggr16".
Definition BAYER_GBRG16 : string := "bayer_gbrg16".
Definition BAYER_GRBG16 : string := "bayer_grbg16".
Definition RGB8 : string := "rgb8".
Definition BGR8 : string := "bgr8".
Definition RGB16 : string := "rgb16".
Definition BGR16 : string := "bgr16".
Definition RGBA8 : string := "rgba8".
Definition BGRA8 : string := "bgra8".
Definition RGBA16 : string := "rgba16".
Definition BGRA16 : string := "bgra16".
Definition YUV422 : string := "yuv422".
Definition YUV422_YUY2 : string := "yuv422_yuy2".
Definition TYPE_8UC1 : string := "8UC1".
End image_encodings.

(** [Frame::get_image_encoding], on the [pixelFormat] of [vmb_frame_]. *)
Definition get_image_encoding (f : Frame) : string :=
  match pixelFormat (vmb_frame_ f) with
  | VmbPixelFormatMono8 => image_encodings.MONO8
  | VmbPixelFormatMono10
  | VmbPixelFormatMono12
  | VmbPixelFormatMono14
  | VmbPixelFormatMono16 => image_encodings.MONO16
  | VmbPixelFormatBayerGR8 => image_encodings.BAYER_GRBG8
  | VmbPixelFormatBayerRG8 => image_encodings.BAYER_RGGB8
  | VmbPixelFormatBayerGB8 => image_encodings.BAYER_GBRG8
  | VmbPixelFormatBayerBG8 => image_encodings.BAYER_BGGR8
  | VmbPixelFormatBayerGR10 => image_encodings.BAYER_GRBG16
  | VmbPixelFormatBayerRG10 => image_encodings.BAYER_RGGB16
  | VmbPixelFormatBayerGB10 => image_encodings.BAYER_GBRG16
  | VmbPixelFormatBayerBG10 => image_encodings.BAYER_BGGR16
  | VmbPixelFormatBayerGR12 => image_encodings.BAYER_GRBG16
  | VmbPixelFormatBayerRG12 => image_encodings.BAYER_RGGB16
  | VmbPixelFormatBayerGB12 => image_encodings.BAYER_GBRG16
  | VmbPixelFormatBayerBG12 => image_encodings.BAYER_BGGR16
  | VmbPixelFormatBayerGR16 => image_encodings.BAYER_GRBG16
  | VmbPixelFormatBayerRG16 => image_encodings.BAYER_RGGB16
  | VmbPixelFormatBayerGB16 => image_encodings.BAYER_GBRG16
  | VmbPixelFormatBayerBG16 => image_encodings.BAYER_BGGR16
  | VmbPixelFormatRgb8 => image_encodings.RGB8
  | VmbPixelFormatBgr8 => image_encodings.BGR8
  | VmbPixelFormatRgb16 => image_encodings.RGB16
  | VmbPixelFormatBgr16 => image_encodings.BGR16
  | VmbPixelFormatArgb8 => image_encodings.RGBA8
  | VmbPixelFormatBgra8 => image_encodings.BGRA8
  | VmbPixelFormatRgba16 => image_encodings.RGBA16
  | VmbPixelFormatBgra16 => image_encodings.BGRA16
  | VmbPixelFormatYuv422 => image_encodings.YUV422
  | VmbPixelFormatYuv422_8
  | VmbPixelFormatYCbCr422_8
  | VmbPixelFormatYCbCr601_422_8
  | VmbPixelFormatYCbCr709_422_8 => image_encodings.YUV422_YUY2
  | VmbPixelFormatYCbCr422_8_CbYCrY => image_encodings.YUV422
  | VmbPixelFormatYCbCr601_422_8_CbYCrY
  | VmbPixelFormatYCbCr709_422_8_CbYCrY => image_encodings.YUV422_YUY2
  | VmbPixelFormatUnlisted _ => image_encodings.TYPE_8UC1
  end.

(** A byte buffer read as 16-bit samples and back; the host is
    little-endian ([is_bigendian] is set to [false]). *)
Fixpoint words16 (bytes : list Z) : list Z :=
  match bytes with
  | lo :: hi :: rest => (lo + 256 * hi) :: words16 rest
  | _ => []
  end.

Fixpoint bytes16 (words : list Z) : list Z :=
  match words with
  | [] => []
  | w :: rest => w mod 256 :: (w / 256) mod 256 :: bytes16 rest
  end.

(** One sample shifted left inside its 16-bit word. *)
Definition shl16 (shift s : Z) : Z := Z.shiftl s shift mod 2 ^ 16.

(** Modelled from the spec: [helper::left_shift16(out, in, size, shift)],
    defined in a header of the repository that is not under src/.  Spec,
    section 4.1: "left-shift every sample so the significant bits occupy the
    top of a 16-bit word [...], leaving the low bits zero-filled".  [size]
    counts bytes; every whole 16-bit sample among the first [size] bytes of
    [in_] is shifted and stored at the same place of [out]; reading or
    writing past a buffer is undefined ([None]). *)
Definition left_shift16 (out in_ : list Z) (size : nat) (shift : Z)
  : option (list Z) :=
  if (length in_ <? size)%nat || (length out <? size)%nat then None
  else
    let shifted := bytes16 (map (shl16 shift) (words16 (take size in_))) in
    Some (shifted ++ drop (length shifted) out).

(** [memcpy(dst, src, n)] *)
Definition memcpy (dst src : list Z) (n : nat) : option (list Z) :=
  if (length src <? n)%nat || (length dst <? n)%nat then None
  else Some (take n src ++ drop n dst).

Definition store_data (f : Frame) (d : option (list Z)) : M Frame :=
  match d with
  | Some d => ret (set_data d f)
  | None => abort read_out_of_bounds
  end.

(** [Frame::transform] *)
Definition transform (f : Frame) : M Frame :=
  let v := vmb_frame_ f in
  match pixelFormat v with
  | VmbPixelFormatMono10
  | VmbPixelFormatBayerBG10
  | VmbPixelFormatBayerGB10
  | VmbPixelFormatBayerGR10
  | VmbPixelFormatBayerRG10 =>
      store_data f (left_shift16 (data f) (imageData v) (length (data f)) 6)
  | VmbPixelFormatMono12
  | VmbPixelFormatBayerBG12
  | VmbPixelFormatBayerGB12
  | VmbPixelFormatBayerGR12
  | VmbPixelFormatBayerRG12 =>
      store_data f (left_shift16 (data f) (imageData v) (length (data f)) 4)
  | VmbPixelFormatMono14 =>
      store_data f (left_shift16 (data f) (imageData v) (length (data f)) 2)
  | _ =>
      match allocation_mode_ f with
      | kByTl => store_data f (memcpy (data f) (imageData v) (length (data f)))
      | kByImage => ret f
      end
  end.

(** ** Completion handling *)

Section Completion.

Variable api_ : VmbCAPI.

(** [Frame::on_frame_ready].  [std::chrono::nanoseconds] counts in a signed
    64-bit integer; [floor<seconds>] rounds down. *)
Definition on_frame_ready (f : Frame) : M Frame :=
  let v := vmb_frame_ f in
  ns <- timestamp_to_ns api_ (timestamp v) ;;
  let vmbTimeStamp := int64_t ns in
  let seconds := vmbTimeStamp / nano_den in
  let nanoseconds := vmbTimeStamp - seconds * nano_den in
  let f :=
    {| header_frame_id := pretty (Z.to_N (frameID v));
       header_stamp_sec := int32_t seconds;
       header_stamp_nanosec := uint32_t nanoseconds;
       height := vmb_height v; width := vmb_width v;
       encoding := get_image_encoding f; is_bigendian := false;
       step := step f; data := data f; vmb_frame_ := v;
       allocation_mode_ := allocation_mode_ f; callback_ := callback_ f |} in
  f <- transform f ;;
  match callback_ f with
  | Some cb => emit (EvCallback cb f) ;;; ret f
  | None => ret f
  end.

(** [Frame::vmb_frame_callback], for the frame that [context[0]] of the
    completed [VmbFrame_t] points to.  The result of [queue] is dropped. *)
Definition vmb_frame_callback (f : Frame) : M Frame :=
  match receiveStatus (vmb_frame_ f) with
  | VmbFrameStatusComplete => on_frame_ready f
  | VmbFrameStatusOther _ => Frame_queue api_ f ;;; ret f
  end.

End Completion.

(** ** A scripted vendor API for concrete runs

    [scripted_api] answers success everywhere, reports a command done at
    the first poll, and describes a camera with the given pixel-format tag
    and geometry.  Three knobs make single calls fail: the announce of the
    frame with a given address, the run of a given command, and the
    frequency feature. *)
Record Script := {
  sc_payload : Z;
  sc_format : Z;
  sc_width : Z;
  sc_height : Z;
  sc_frequency : Z;
  sc_announce_fails : nat -> bool;
  sc_command_fails : FeatureName -> bool
}.

Definition scripted_api (s : Script) : VmbCAPI := {|
  PayloadSizeGet := fun _ => (VmbErrorSuccess, sc_payload s);
  FeatureInfoQuery := fun _ _ => (VmbErrorSuccess, Some "Standard");
  FeatureEnumGet := fun _ _ => (VmbErrorSuccess, "Format");
  FeatureEnumAsInt := fun _ _ _ => (VmbErrorSuccess, sc_format s);
  FeatureIntGet := fun _ h name =>
    match h, name with
    | camera_handle_, Width => (VmbErrorSuccess, sc_width s)
    | camera_handle_, Height => (VmbErrorSuccess, sc_height s)
    | localDeviceHandle, DeviceTimestampFrequency =>
        (VmbErrorSuccess, sc_frequency s)
    | _, _ => (VmbErrorNotAvailable, 0)
    end;
  FrameAnnounce := fun _ v =>
    if sc_announce_fails s (context0 v) then VmbErrorCode (-12)
    else VmbErrorSuccess;
  CaptureStart := fun _ => VmbErrorSuccess;
  CaptureFrameQueue := fun _ _ => VmbErrorSuccess;
  FeatureCommandRun := fun _ name =>
    if sc_command_fails s name then VmbErrorCode (-9) else VmbErrorSuccess;
  FeatureCommandIsDone := fun _ _ => true;
  CaptureEnd := fun _ => VmbErrorSuccess;
  CaptureQueueFlush := fun _ => VmbErrorSuccess;
  FrameRevokeAll := fun _ => VmbErrorSuccess
|}.

(** An 8-bit single-channel camera of 2 x 2 pixels whose payload is the
    image: tag [0x01080001], payload 4. *)
Definition mono8_2x2 : Script := {|
  sc_payload := 4; sc_format := 17301505; sc_width := 2; sc_height := 2;
  sc_frequency := 1000000000;
  sc_announce_fails := fun _ => false;
  sc_command_fails := fun _ => false
|}.

(** The world before the first start: idle, empty pool, empty trace. *)
Definition idle_world : World := {|
  self := {| streaming_ := false; frames_ := [] |};
  expired := false; trace := []; fresh := 0
|}.

(** ** Vocabulary of the statements *)

(** The number of significant bits of a sample, for the single-channel
    formats whose samples sit in 16-bit words (the number in the name of
    the enumerator). *)
Definition sample_bits (p : VmbPixelFormatType) : option Z :=
  match p with
  | VmbPixelFormatMono10
  | VmbPixelFormatBayerGR10 | VmbPixelFormatBayerRG10
  | VmbPixelFormatBayerGB10 | VmbPixelFormatBayerBG10 => Some 10
  | VmbPixelFormatMono12
  | VmbPixelFormatBayerGR12 | VmbPixelFormatBayerRG12
  | VmbPixelFormatBayerGB12 | VmbPixelFormatBayerBG12 => Some 12
  | VmbPixelFormatMono14 => Some 14
  | VmbPixelFormatMono16
  | VmbPixelFormatBayerGR16 | VmbPixelFormatBayerRG16
  | VmbPixelFormatBayerGB16 | VmbPixelFormatBayerBG16 => Some 16
  | _ => None
  end.

(** What the name of an enumerator of [VmbPixelFormatType] says about the
    image: the colour layout (the Bayer enumerators name the first two
    pixels of the first row; the four-channel enumerators are a colour order
    with an alpha channel; the YUV and YCbCr 4:2:2 enumerators are one
    family, whatever their component order) and the width in bits of the
    container of one sample (8 for the 8-bit enumerators, 16 for those of 10
    to 16 bits, which sit in 16-bit words). *)
Inductive BayerPattern := GRBG | RGGB | GBRG | BGGR.

Inductive Layout :=
| Mono | Bayer (pattern : BayerPattern)
| Rgb | Bgr | Rgba | Bgra | Yuv422.

Definition pixel_layout (p : VmbPixelFormatType) : option Layout :=
  match p with
  | VmbPixelFormatMono8 | VmbPixelFormatMono10 | VmbPixelFormatMono12
  | VmbPixelFormatMono14 | VmbPixelFormatMono16 => Some Mono
  | VmbPixelFormatBayerGR8 | VmbPixelFormatBayerGR10
  | VmbPixelFormatBayerGR12 | VmbPixelFormatBayerGR16 => Some (Bayer GRBG)
  | VmbPixelFormatBayerRG8 | VmbPixelFormatBayerRG10
  | VmbPixelFormatBayerRG12 | VmbPixelFormatBayerRG16 => Some (Bayer RGGB)
  | VmbPixelFormatBayerGB8 | VmbPixelFormatBayerGB10
  | VmbPixelFormatBayerGB12 | VmbPixelFormatBayerGB16 => Some (Bayer GBRG)
  | VmbPixelFormatBayerBG8 | VmbPixelFormatBayerBG10
  | VmbPixelFormatBayerBG12 | VmbPixelFormatBayerBG16 => Some (Bayer BGGR)
  | VmbPixelFormatRgb8 | VmbPixelFormatRgb16 => Some Rgb
  | VmbPixelFormatBgr8 | VmbPixelFormatBgr16 => Some Bgr
  | VmbPixelFormatArgb8 | VmbPixelFormatRgba16 => Some Rgba
  | VmbPixelFormatBgra8 | VmbPixelFormatBgra16 => Some Bgra
  | VmbPixelFormatYuv422 | VmbPixelFormatYuv422_8
  | VmbPixelFormatYCbCr422_8 | VmbPixelFormatYCbCr601_422_8
  | VmbPixelFormatYCbCr709_422_8 | VmbPixelFormatYCbCr422_8_CbYCrY
  | VmbPixelFormatYCbCr601_422_8_CbYCrY
  | VmbPixelFormatYCbCr709_422_8_CbYCrY => Some Yuv422
  | VmbPixelFormatUnlisted _ => None
  end.

Definition container_bits (p : VmbPixelFormatType) : option Z :=
  match p with
  | VmbPixelFormatUnlisted _ => None
  | VmbPixelFormatRgb16 | VmbPixelFormatBgr16
  | VmbPixelFormatRgba16 | VmbPixelFormatBgra16 => Some 16
  | _ => match sample_bits p with
         | Some _ => Some 16
         | None => Some 8
         end
  end.

(** Modelled from the spec: the semantic encoding names of section 4.1
    (mono8, mono16, the Bayer patterns at 8 and 16 bit, RGB/BGR/RGBA/BGRA
    at 8 and 16 bit, the YUV422 variants) with the layout and the sample
    width each name stands for.  The generic untyped single-channel 8-bit
    fallback is not among them. *)
Definition semantic_encodings : list (string * (Layout * Z)) :=
  [ (image_encodings.MONO8, (Mono, 8));
    (image_encodings.MONO16, (Mono, 16));
    (image_encodings.BAYER_RGGB8, (Bayer RGGB, 8));
    (image_encodings.BAYER_BGGR8, (Bayer BGGR, 8));
    (image_encodings.BAYER_GBRG8, (Bayer GBRG, 8));
    (image_encodings.BAYER_GRBG8, (Bayer GRBG, 8));
    (image_encodings.BAYER_RGGB16, (Bayer RGGB, 16));
    (image_encodings.BAYER_BGGR16, (Bayer BGGR, 16));
    (image_encodings.BAYER_GBRG16, (Bayer GBRG, 16));
    (image_encodings.BAYER_GRBG16, (Bayer GRBG, 16));
    (image_encodings.RGB8, (Rgb, 8));
    (image_encodings.BGR8, (Bgr, 8));
    (image_encodings.RGB16, (Rgb, 16));
    (image_encodings.BGR16, (Bgr, 16));
    (image_encodings.RGBA8, (Rgba, 8));
    (image_encodings.BGRA8, (Bgra, 8));
    (image_encodings.RGBA16, (Rgba, 16));
    (image_encodings.BGRA16, (Bgra, 16));
    (image_encodings.YUV422, (Yuv422, 8));
    (image_encodings.YUV422_YUY2, (Yuv422, 8)) ].

(** What an encoding name stands for; [None] for a name that is not a
    semantic encoding. *)
Fixpoint encoding_lookup (table : list (string * (Layout * Z)))
    (name : string) : option (Layout * Z) :=
  match table with
  | [] => None
  | (n, meaning) :: rest =>
      if String.eqb n name then Some meaning else encoding_lookup rest name
  end.

Definition encoding_meaning (name : string) : option (Layout * Z) :=
  encoding_lookup semantic_encodings name.

(** The image size as the specification words it: width x height x
    bytes-per-line, with bytes-per-line = width x bits-per-pixel / 8. *)
Definition claimed_image_size (width height bpp : Z) : Z :=
  width * height * (width * bpp / 8).

(** The image size as [Frame::create] computes it: [height * line]. *)
Definition image_size (width height bpp : Z) : Z :=
  uint64_t (int64_t (height * int64_t (Z.quot (int64_t (width * bpp)) 8))).

Definition is_revoke (e : Event) : bool :=
  match e with EvFrameRevokeAll _ => true | _ => false end.

Definition is_consumer_call (e : Event) : bool :=
  match e with EvCallback _ _ => true | _ => false end.

(** The addresses of the frames whose announce succeeded, in order. *)
Fixpoint announced (t : Trace) : list nat :=
  match t with
  | [] => []
  | EvFrameAnnounce a _ _ VmbErrorSuccess :: t' => a :: announced t'
  | _ :: t' => announced t'
  end.

(** The addresses of the frames a pool holds, in order. *)
Fixpoint pool_addresses (frames : list (option Frame)) : list nat :=
  match frames with
  | [] => []
  | Some f :: rest => context0 (vmb_frame_ f) :: pool_addresses rest
  | None :: rest => pool_addresses rest
  end.

(** A world with the given trace appended. *)
Definition with_events (w : World) (new : Trace) : World :=
  {| self := self w; expired := expired w;
     trace := trace w ++ new; fresh := fresh w |}.

(** A streaming world and a world whose camera object is gone. *)
Definition streaming_world : World := {|
  self := {| streaming_ := true;
             frames_ := [Some (Frame_new 0 kByImage)] |};
  expired := false; trace := []; fresh := 1
|}.

Definition orphan_world : World := {|
  self := {| streaming_ := false; frames_ := [] |};
  expired := true; trace := []; fresh := 1
|}.

(** A frame as the vendor API hands it to the completion callback. *)
Definition completed_frame (mode : AllocationMode) (status : VmbFrameStatusType)
    (format : VmbPixelFormatType) (buf image : list Z) : Frame :=
  {| header_frame_id := ""; header_stamp_sec := 0; header_stamp_nanosec := 0;
     height := 0; width := 0; encoding := ""; is_bigendian := false;
     step := 4; data := buf;
     vmb_frame_ := {| buffer := None; bufferSize := 4; context0 := 0;
                      receiveStatus := status; frameID := 5;
                      timestamp := 1000; imageData := image;
                      pixelFormat := format;
                      vmb_width := 2; vmb_height := 1 |};
     allocation_mode_ := mode; callback_ := Some 7%nat |}.

(** Variations of the scripted camera. *)
Definition with_frequency (f : Z) (s : Script) : Script := {|
  sc_payload := sc_payload s; sc_format := sc_format s;
  sc_width := sc_width s; sc_height := sc_height s; sc_frequency := f;
  sc_announce_fails := sc_announce_fails s;
  sc_command_fails := sc_command_fails s
|}.

Definition with_geometry (payload width height : Z) (s : Script) : Script := {|
  sc_payload := payload; sc_format := sc_format s;
  sc_width := width; sc_height := height; sc_frequency := sc_frequency s;
  sc_announce_fails := sc_announce_fails s;
  sc_command_fails := sc_command_fails s
|}.

Definition refusing_announce (a : nat) (s : Script) : Script := {|
  sc_payload := sc_payload s; sc_format := sc_format s;
  sc_width := sc_width s; sc_height := sc_height s;
  sc_frequency := sc_frequency s;
  sc_announce_fails := Nat.eqb a;
  sc_command_fails := sc_command_fails s
|}.

Definition refusing_acquisition_stop (s : Script) : Script := {|
  sc_payload := sc_payload s; sc_format := sc_format s;
  sc_width := sc_width s; sc_height := sc_height s;
  sc_frequency := sc_frequency s;
  sc_announce_fails := sc_announce_fails s;
  sc_command_fails := fun name =>
    match name with AcquisitionStop => true | _ => false end
|}.

(** The formats whose samples [transform] shifts. *)
Definition is_shifted (p : VmbPixelFormatType) : bool :=
  match sample_bits p with
  | Some 10 | Some 12 | Some 14 => true
  | _ => false
  end.

(** A 10-bit frame of two samples, [0x03FF] and [0x0001], written by the
    vendor API into the frame's own buffer. *)
Definition mono10_frame : Frame :=
  completed_frame kByImage VmbFrameStatusComplete VmbPixelFormatMono10
    [255; 3; 1; 0] [255; 3; 1; 0].

(** An 8-bit frame received in a buffer of the transport layer. *)
Definition mono8_tl_frame : Frame :=
  completed_frame kByTl VmbFrameStatusComplete VmbPixelFormatMono8
    [0; 0; 0; 0] [9; 8; 7; 6; 5].

(** A frame whose transfer did not complete. *)
Definition incomplete_frame : Frame :=
  completed_frame kByTl (VmbFrameStatusOther (-1)) VmbPixelFormatMono8
    [0; 0; 0; 0] [9; 8; 7; 6; 5].

(** [grows w w' ann]: from [w] to [w'] the camera object stayed alive or
    gone as it was, and the trace grew by events among which there is no
    revoke and whose successful announces are the frames [ann]. *)
Definition grows (w w' : World) (ann : list nat) : Prop :=
  expired w' = expired w /\
  exists new : Trace,
    trace w' = trace w ++ new /\
    Forall (fun e => is_revoke e = false) new /\
    announced new = ann.

(** The world in which the first loop of [start_streaming] starts: the pool
    holds [n] null pointers and the payload size [p] has been read. *)
Definition pool_ready (w : World) (n : nat) (p : Z) : World :=
  {| self := {| streaming_ := streaming_ (self w); frames_ := replicate n None |};
     expired := expired w;
     trace := trace w ++ [EvPayloadSizeGet VmbErrorSuccess p];
     fresh := fresh w |}.

(** ** Event topic names

    [vimbax_camera_events/src/vimbax_camera_events.cpp]: the three helpers
    that build topic names by concatenation. *)

Definition event_topic_name (base_topic event_name : string) : string :=
  (base_topic +:+ "/event_") +:+ event_name.

Definition subscribe_topic_name (base_topic : string) : string :=
  base_topic +:+ "/_event_subscribe".

Definition unsubscribe_topic_name (base_topic : string) : string :=
  base_topic +:+ "/_event_unsubscribe".

(** The trace of a command poll that saw [n] negative answers: each one is
    followed by a sleep. *)
Fixpoint pending_polls (name : FeatureName) (n : nat) : Trace :=
  match n with
  | O => []
  | S n' =>
      EvFeatureCommandIsDone name false :: EvSleep100ms :: pending_polls name n'
  end.

(** The number of sleeps recorded in a trace. *)
Fixpoint sleeps (t : Trace) : nat :=
  match t with
  | [] => O
  | EvSleep100ms :: t' => S (sleeps t')
  | _ :: t' => sleeps t'
  end.

(** An API that answers like [api], except that a command is reported done
    only once [n] sleeps are on the trace. *)
Definition done_after (n : nat) (api : VmbCAPI) : VmbCAPI := {|
  PayloadSizeGet := PayloadSizeGet api;
  FeatureInfoQuery := FeatureInfoQuery api;
  FeatureEnumGet := FeatureEnumGet api;
  FeatureEnumAsInt := FeatureEnumAsInt api;
  FeatureIntGet := FeatureIntGet api;
  FrameAnnounce := FrameAnnounce api;
  CaptureStart := CaptureStart api;
  CaptureFrameQueue := CaptureFrameQueue api;
  FeatureCommandRun := FeatureCommandRun api;
  FeatureCommandIsDone := fun t _ => (n <=? sleeps t)%nat;
  CaptureEnd := CaptureEnd api;
  CaptureQueueFlush := CaptureQueueFlush api;
  FrameRevokeAll := FrameRevokeAll api
|}.

(** An API that answers like [api], except that no command is ever
    reported done. *)
Definition never_done (api : VmbCAPI) : VmbCAPI := {|
  PayloadSizeGet := PayloadSizeGet api;
  FeatureInfoQuery := FeatureInfoQuery api;
  FeatureEnumGet := FeatureEnumGet api;
  FeatureEnumAsInt := FeatureEnumAsInt api;
  FeatureIntGet := FeatureIntGet api;
  FrameAnnounce := FrameAnnounce api;
  CaptureStart := CaptureStart api;
  CaptureFrameQueue := CaptureFrameQueue api;
  FeatureCommandRun := FeatureCommandRun api;
  FeatureCommandIsDone := fun _ _ => false;
  CaptureEnd := CaptureEnd api;
  CaptureQueueFlush := CaptureQueueFlush api;
  FrameRevokeAll := FrameRevokeAll api
|}.

(** The events of [Frame::create]: feature queries and the announce. *)
Definition is_setup_event (e : Event) : bool :=
  match e with
  | EvFeatureInfoQuery _ _ _ | EvFeatureEnumGet _ _ _
  | EvFeatureEnumAsInt _ _ _ _ | EvFeatureIntGet _ _ _ _
  | EvFrameAnnounce _ _ _ _ => true
  | _ => false
  end.

(** The trace of queueing the frames [fs] one after the other, each call
    succeeding. *)
Definition queue_events (fs : list Frame) : Trace :=
  (fun f => EvCaptureFrameQueue (context0 (vmb_frame_ f)) VmbErrorSuccess)
    <$> fs.

(** The addresses of a list of frames. *)
Definition addresses (fs : list Frame) : list nat :=
  (fun f => context0 (vmb_frame_ f)) <$> fs.

(** An idle world whose pool still holds a frame from an earlier start. *)
Definition stale_world : World := {|
  self := {| streaming_ := false; frames_ := [Some (Frame_new 0 kByImage)] |};
  expired := false; trace := []; fresh := 1
|}.

(** An API that answers like [api], except that the width cannot be
    read. *)
Definition without_width (api : VmbCAPI) : VmbCAPI := {|
  PayloadSizeGet := PayloadSizeGet api;
  FeatureInfoQuery := FeatureInfoQuery api;
  FeatureEnumGet := FeatureEnumGet api;
  FeatureEnumAsInt := FeatureEnumAsInt api;
  FeatureIntGet := fun t h name =>
    match name with
    | Width => (VmbErrorCode (-3), 0)
    | _ => FeatureIntGet api t h name
    end;
  FrameAnnounce := FrameAnnounce api;
  CaptureStart := CaptureStart api;
  CaptureFrameQueue := CaptureFrameQueue api;
  FeatureCommandRun := FeatureCommandRun api;
  FeatureCommandIsDone := FeatureCommandIsDone api;
  CaptureEnd := CaptureEnd api;
  CaptureQueueFlush := CaptureQueueFlush api;
  FrameRevokeAll := FrameRevokeAll api
|}.

(** ** Opening a camera

    [VimbaXCamera::open].  The strings of [VmbCameraInfo_t] are C strings,
    [None] being the null pointer that a zero-initialised entry holds. *)
Record VmbCameraInfo_t := {
  cameraIdString : option string;
  cameraIdExtended : option string;
  serialString : option string;
  permittedAccess : Z
}.

(** The value-initialised entry that [std::vector::resize] creates. *)
Definition zero_info : VmbCameraInfo_t :=
  {| cameraIdString := None; cameraIdExtended := None; serialString := None;
     permittedAccess := 0 |}.

(** The calls of [open] and of the constructor, with what they answered:
    [CamerasList] with the length of the list it was given, the number it
    reported and the entries it wrote; [CameraOpen] with the id and the
    handle; [CameraInfoQueryByHandle] with the handle. *)
Inductive OpenEvent :=
| EvCamerasList (listLength : Z) (err : VmbError_t) (numFound : Z)
    (written : list VmbCameraInfo_t)
| EvCameraOpen (id : string) (err : VmbError_t) (handle : nat)
| EvCameraInfoQueryByHandle (handle : nat) (err : VmbError_t).

(** The function pointers of [VmbCAPI] that [open] and the constructor
    call, as functions of the calls made so far. *)
Record VmbOpenAPI := {
  CamerasList : list OpenEvent -> Z -> VmbError_t * (Z * list VmbCameraInfo_t);
  CameraOpen : list OpenEvent -> string -> VmbError_t * nat;
  CameraInfoQueryByHandle : list OpenEvent -> nat -> VmbError_t
}.

(** A run of [open]: the calls so far go in, a value and the calls so far
    come out; [None] is undefined behaviour (a null C string is read). *)
Definition OpenM (A : Type) : Type :=
  list OpenEvent -> option (A * list OpenEvent).

Definition open_ret {A} (a : A) : OpenM A := fun t => Some (a, t).

Definition open_bind {A B} (m : OpenM A) (k : A -> OpenM B) : OpenM B :=
  fun t => match m t with
           | Some (a, t') => k a t'
           | None => None
           end.

Definition null_string {A} : OpenM A := fun _ => None.

Declare Scope open_scope.
Delimit Scope open_scope with open.
Notation "x <~ m ;; k" := (open_bind m (fun x => k))
  (at level 100, m at next level, right associativity) : open_scope.
Local Open Scope open_scope.

Section Open.

(** The bit [VmbAccessModeExclusive] of the vendor header. *)
Variable VmbAccessModeExclusive : Z.

Variable api : VmbOpenAPI.

(** The lambda [checkAccess]. *)
Definition checkAccess (info : VmbCameraInfo_t) : bool :=
  negb (Z.land (permittedAccess info) VmbAccessModeExclusive =? 0).

(** The lambda [openCamera]. *)
Definition openCamera (idStr : string) : OpenM (option nat) :=
  fun t =>
    let r := CameraOpen api t idStr in
    Some (if is_success r.1 then Some r.2 else None,
          t ++ [EvCameraOpen idStr r.1 r.2]).

(** The lambda that computes [availableCameras]: the count, then a vector
    of that many value-initialised entries which the second call fills. *)
Definition availableCameras : OpenM (list VmbCameraInfo_t) :=
  fun t =>
    let c := CamerasList api t 0 in
    let t1 := t ++ [EvCamerasList 0 c.1 c.2.1 c.2.2] in
    if negb (is_success c.1) then Some ([], t1)
    else
      let availableCamerasCount := uint32_t c.2.1 in
      let l := CamerasList api t1 availableCamerasCount in
      let t2 := t1 ++ [EvCamerasList availableCamerasCount l.1 l.2.1 l.2.2] in
      if negb (is_success l.1) then Some ([], t2)
      else
        let n := Z.to_nat availableCamerasCount in
        Some (take n l.2.2 ++ replicate (n - length l.2.2) zero_info, t2).

(** [new VimbaXCamera{api, handle}]: the constructor queries the camera
    info and goes on whatever the answer; the camera is known by its
    handle. *)
Definition VimbaXCamera_new (handle : nat) : OpenM (option nat) :=
  fun t =>
    Some (Some handle,
          t ++ [EvCameraInfoQueryByHandle handle
                  (CameraInfoQueryByHandle api t handle)]).

(** A C string converted to, or compared with, a [std::string]. *)
Definition c_str (p : option string) : OpenM string :=
  match p with
  | Some s => open_ret s
  | None => null_string
  end.

(** The loop of the branch without a name. *)
Fixpoint open_first (infos : list VmbCameraInfo_t) : OpenM (option nat) :=
  match infos with
  | [] => open_ret None
  | info :: rest =>
      if checkAccess info then
        idStr <~ c_str (cameraIdExtended info) ;;
        optHandle <~ openCamera idStr ;;
        match optHandle with
        | Some handle => VimbaXCamera_new handle
        | None => open_first rest
        end
      else open_first rest
  end.

(** The lambda [checkCameraInfo]; [||] stops at the first match. *)
Definition checkCameraInfo (name : string) (info : VmbCameraInfo_t)
  : OpenM bool :=
  a <~ c_str (cameraIdString info) ;;
  if String.eqb a name then open_ret true
  else
    b <~ c_str (cameraIdExtended info) ;;
    if String.eqb b name then open_ret true
    else
      c <~ c_str (serialString info) ;;
      open_ret (String.eqb c name).

(** The loop of the branch with a name. *)
Fixpoint open_matching (name : string) (infos : list VmbCameraInfo_t)
  : OpenM (option nat) :=
  match infos with
  | [] => open_ret None
  | info :: rest =>
      matches <~ checkCameraInfo name info ;;
      if matches && checkAccess info then
        idStr <~ c_str (cameraIdExtended info) ;;
        optHandleSerial <~ openCamera idStr ;;
        match optHandleSerial with
        | Some handle => VimbaXCamera_new handle
        | None => open_matching name rest
        end
      else open_matching name rest
  end.

(** [VimbaXCamera::open(api, name)]; the result is the camera created, by
    its handle, or [None] for [nullptr]. *)
Definition open (name : string) : OpenM (option nat) :=
  infos <~ availableCameras ;;
  if String.eqb name "" then
    match infos with
    | [] => open_ret None
    | _ => open_first infos
    end
  else
    opened <~ open_matching name infos ;;
    match opened with
    | Some camera => open_ret (Some camera)
    | None =>
        optHandle <~ openCamera name ;;
        match optHandle with
        | Some handle => VimbaXCamera_new handle
        | None => open_ret None
        end
    end.

End Open.

(** Vocabulary for the calls of [open]. *)
Definition is_failed_open (e : OpenEvent) : bool :=
  match e with
  | EvCameraOpen _ err _ => negb (is_success err)
  | _ => false
  end.

(** The ids that [CameraOpen] was called with, in order. *)
Fixpoint opened_ids (t : list OpenEvent) : list string :=
  match t with
  | [] => []
  | EvCameraOpen id _ _ :: t' => id :: opened_ids t'
  | _ :: t' => opened_ids t'
  end.

(** The extended ids of the entries that permit exclusive access. *)
Fixpoint exclusive_ids (mask : Z) (infos : list VmbCameraInfo_t)
  : list string :=
  match infos with
  | [] => []
  | info :: rest =>
      if checkAccess mask info then
        match cameraIdExtended info with
        | Some id => id :: exclusive_ids mask rest
        | None => exclusive_ids mask rest
        end
      else exclusive_ids mask rest
  end.

(** A listing API for concrete runs: both [CamerasList] calls answer
    [listError], report [count] cameras and write [cameras]; [CameraOpen]
    opens exactly the camera whose id is [openable], with handle 1. *)
Definition listing_api (listError : VmbError_t) (count : Z)
    (cameras : list VmbCameraInfo_t) (openable : string) : VmbOpenAPI := {|
  CamerasList := fun _ n =>
    (listError, (count, take (Z.to_nat n) cameras));
  CameraOpen := fun _ id =>
    if String.eqb id openable then (VmbErrorSuccess, 1%nat)
    else (VmbErrorCode (-3), 0%nat);
  CameraInfoQueryByHandle := fun _ _ => VmbErrorSuccess
|}.

Definition camera_info (id : string) (access : Z) : VmbCameraInfo_t :=
  {| cameraIdString := Some id; cameraIdExtended := Some ("ext:" +:+ id);
     serialString := Some ("sn:" +:+ id); permittedAccess := access |}.

(** Three cameras, the first of which permits no exclusive access. *)
Definition three_cameras : list VmbCameraInfo_t :=
  [camera_info "A" 1; camera_info "B" 8; camera_info "C" 9].

(** Whether one of the three ids of an entry is [name]. *)
Definition c_str_is (name : string) (p : option string) : bool :=
  match p with
  | Some s => String.eqb s name
  | None => false
  end.

Definition name_matches (name : string) (info : VmbCameraInfo_t) : bool :=
  c_str_is name (cameraIdString info)
  || c_str_is name (cameraIdExtended info)
  || c_str_is name (serialString info).

(** The extended ids of the entries that carry [name] and permit exclusive
    access. *)
Fixpoint matching_ids (mask : Z) (name : string)
    (infos : list VmbCameraInfo_t) : list string :=
  match infos with
  | [] => []
  | info :: rest =>
      if name_matches name info && checkAccess mask info then
        match cameraIdExtended info with
        | Some id => id :: matching_ids mask name rest
        | None => matching_ids mask name rest
        end
      else matching_ids mask name rest
  end.

(** What a run of one of the two loops of [open] adds to the calls, for the
    ids [ids] the loop is to try: failed attempts on a prefix of [ids], then
    either the camera, opened and constructed, or nothing more. *)
Definition loop_outcome (ids : list string) (r : option nat)
    (new : list OpenEvent) : Prop :=
  match r with
  | Some handle =>
      exists (pre : list OpenEvent) (id : string) (e : VmbError_t)
             (later : list string),
        new = pre ++ [EvCameraOpen id VmbErrorSuccess handle;
                      EvCameraInfoQueryByHandle handle e] /\
        Forall (fun ev => is_failed_open ev = true) pre /\
        ids = opened_ids pre ++ id :: later
  | None =>
      Forall (fun ev => is_failed_open ev = true) new /\
      opened_ids new = ids
  end.

(** An entry whose three C strings are all set. *)
Definition complete_info (info : VmbCameraInfo_t) : Prop :=
  cameraIdString info <> None /\ cameraIdExtended info <> None /\
  serialString info <> None.

(** An entry that, if it permits exclusive access, has an extended id. *)
Definition openable_info (mask : Z) (info : VmbCameraInfo_t) : Prop :=
  checkAccess mask info = true -> cameraIdExtended info <> None.

(** * Properties *)

(** Unfold the plumbing of the monad, in the goal or in a hypothesis. *)
Ltac run :=
  cbv beta iota zeta delta [bind ret call emit abort get_self put_self
    camera_expired allocate set_streaming set_frames shared_from_this
    with_events].
Ltac run_in H :=
  cbv beta iota zeta delta [bind ret call emit abort get_self put_self
    camera_expired allocate set_streaming set_frames shared_from_this
    with_events] in H.

(** Take a run apart.  [name_answer] replaces an answer of the API, which
    is a function of the trace so far, by a variable; [case_run] unfolds the
    plumbing, names the answers and splits on the innermost scrutinee, until
    the run has become an equation between outcomes. *)
Ltac forget_answer x :=
  let r := fresh "r" in
  set (r := x) in *; clearbody r; try (destruct r as [? ?]).

Ltac name_answer H :=
  match type of H with
  | context [PayloadSizeGet ?a ?t] => forget_answer (PayloadSizeGet a t)
  | context [FeatureInfoQuery ?a ?t ?n] => forget_answer (FeatureInfoQuery a t n)
  | context [FeatureEnumGet ?a ?t ?n] => forget_answer (FeatureEnumGet a t n)
  | context [FeatureEnumAsInt ?a ?t ?n ?o] =>
      forget_answer (FeatureEnumAsInt a t n o)
  | context [FeatureIntGet ?a ?t ?h ?n] => forget_answer (FeatureIntGet a t h n)
  | context [FrameAnnounce ?a ?t ?v] => forget_answer (FrameAnnounce a t v)
  | context [CaptureStart ?a ?t] => forget_answer (CaptureStart a t)
  | context [CaptureFrameQueue ?a ?t ?v] =>
      forget_answer (CaptureFrameQueue a t v)
  | context [FeatureCommandRun ?a ?t ?n] =>
      forget_answer (FeatureCommandRun a t n)
  | context [FeatureCommandIsDone ?a ?t ?n] =>
      forget_answer (FeatureCommandIsDone a t n)
  | context [CaptureEnd ?a ?t] => forget_answer (CaptureEnd a t)
  | context [CaptureQueueFlush ?a ?t] => forget_answer (CaptureQueueFlush a t)
  | context [FrameRevokeAll ?a ?t] => forget_answer (FrameRevokeAll a t)
  end.

Ltac split_run H :=
  match type of H with
  | context [match ?x with _ => _ end] =>
      lazymatch x with
      | context [match _ with _ => _ end] => fail
      | _ => destruct x eqn:?
      end
  end.

Ltac case_run H :=
  repeat (run_in H;
          cbv beta iota delta [is_success negb] in H;
          cbn [fst snd trace self expired fresh] in H;
          first [name_answer H | split_run H];
          try discriminate H).

(** End of a run: both sides are outcomes; normalise the trace. *)
Ltac finish_run H :=
  injection H as <- <-; rewrite <- ?app_assoc; cbn [app].

(** Close a goal [grows w w' ann] between two explicit worlds. *)
Ltac grows_done :=
  split; [reflexivity |]; eexists; split; [reflexivity |];
  split; [repeat constructor | reflexivity].

(** ** Idempotence at the fixed points *)

(** C6: [start_streaming] on a streaming engine and [stop_streaming] on an
    idle engine return success, call nothing and leave the world (camera
    state, trace, allocator) exactly as it was. *)
Theorem start_stop_fixed_points (api : VmbCAPI) (fuel : nat) (bufferCount : Z)
    (onFrame : Callback) (startAcquisition : bool) (w : World) :
  (is_streaming w = true ->
   start_streaming api fuel bufferCount onFrame startAcquisition w
   = Returns (Ok tt) w) /\
  (is_streaming w = false ->
   stop_streaming api fuel w = Returns (Ok tt) w).
Proof.
  unfold is_streaming, start_streaming, stop_streaming, bind, get_self, ret.
  split; intros ->; reflexivity.
Qed.

Lemma start_stop_fixed_points_witness :
  start_streaming (scripted_api mono8_2x2) 1 3 None true streaming_world
  = Returns (Ok tt) streaming_world /\
  stop_streaming (scripted_api mono8_2x2) 1 idle_world
  = Returns (Ok tt) idle_world.
Proof.
  split.
  - apply (start_stop_fixed_points (scripted_api mono8_2x2) 1 3 None true
             streaming_world). reflexivity.
  - apply (start_stop_fixed_points (scripted_api mono8_2x2) 1 3 None true
             idle_world). reflexivity.
Defined.

(** ** Stop: the acquisition-stop command fails *)

(** C4: when the engine streams and the acquisition-stop command is
    refused with error [e], [stop_streaming] returns [e]; the only call made
    is that command (no capture-end, flush or revoke), and the camera keeps
    its state and its pool. *)
Theorem stop_streaming_acquisition_stop_fails (api : VmbCAPI) (fuel : nat)
    (w : World) (e : VmbError_t) :
  is_streaming w = true ->
  FeatureCommandRun api (trace w) AcquisitionStop = e ->
  e <> VmbErrorSuccess ->
  stop_streaming api fuel w
  = Returns (Err e) (with_events w [EvFeatureCommandRun AcquisitionStop e]).
Proof.
  unfold is_streaming. intros Hs He Hne.
  unfold stop_streaming, feature_command_run. run.
  rewrite Hs. cbn [negb]. run. rewrite He.
  destruct e; try reflexivity. contradiction.
Qed.

Lemma stop_streaming_acquisition_stop_fails_witness :
  stop_streaming (scripted_api (refusing_acquisition_stop mono8_2x2)) 1
    streaming_world
  = Returns (Err (VmbErrorCode (-9)))
      (with_events streaming_world
         [EvFeatureCommandRun AcquisitionStop (VmbErrorCode (-9))]).
Proof.
  apply (stop_streaming_acquisition_stop_fails
           (scripted_api (refusing_acquisition_stop mono8_2x2)) 1
           streaming_world (VmbErrorCode (-9))).
  - reflexivity.
  - reflexivity.
  - discriminate.
Defined.

(** ** Encoding names *)

(** C8: [get_image_encoding] is a total function.  Whatever the tag, the
    name it returns is not empty.  A tag that is one of the case labels gets
    a semantic encoding, never the fallback: the name stands for the colour
    layout that the enumerator names (mono, the same Bayer pattern, the same
    colour order, YUV 4:2:2) and for the width of its samples (an 8-bit name
    for the 8-bit formats, a 16-bit name for the formats of 10 to 16 bits).
    A tag that is none of the case labels gets the untyped single-channel
    8-bit name, which is no semantic encoding. *)
Theorem get_image_encoding_total (f : Frame) :
  get_image_encoding f <> "" /\
  ((forall tag, pixelFormat (vmb_frame_ f) <> VmbPixelFormatUnlisted tag) ->
   get_image_encoding f <> image_encodings.TYPE_8UC1 /\
   exists (layout : Layout) (bits : Z),
     pixel_layout (pixelFormat (vmb_frame_ f)) = Some layout /\
     container_bits (pixelFormat (vmb_frame_ f)) = Some bits /\
     encoding_meaning (get_image_encoding f) = Some (layout, bits)) /\
  (forall tag, pixelFormat (vmb_frame_ f) = VmbPixelFormatUnlisted tag ->
               get_image_encoding f = image_encodings.TYPE_8UC1 /\
               encoding_meaning (get_image_encoding f) = None).
Proof.
  unfold get_image_encoding.
  split; [| split].
  - destruct (pixelFormat (vmb_frame_ f)); discriminate.
  - intros Hlisted.
    destruct (pixelFormat (vmb_frame_ f)) as [| | | | | | | | | | | | | | | |
      | | | | | | | | | | | | | | | | | | | | | tag];
      try (split; [discriminate |];
           eexists; eexists; split; [reflexivity |];
           split; reflexivity).
    exfalso. exact (Hlisted tag eq_refl).
  - intros tag Htag. rewrite Htag. split; reflexivity.
Qed.

Lemma get_image_encoding_total_witness :
  get_image_encoding
    (completed_frame kByTl VmbFrameStatusComplete (VmbPixelFormatUnlisted 99)
       [] [])
  = "8UC1" /\
  encoding_meaning
    (get_image_encoding
       (completed_frame kByTl VmbFrameStatusComplete VmbPixelFormatBayerRG12
          [] []))
  = Some (Bayer RGGB, 16).
Proof.
  split.
  - apply (get_image_encoding_total
             (completed_frame kByTl VmbFrameStatusComplete
                (VmbPixelFormatUnlisted 99) [] [])) with (tag := 99).
    reflexivity.
  - destruct (get_image_encoding_total
                (completed_frame kByTl VmbFrameStatusComplete
                   VmbPixelFormatBayerRG12 [] []))
      as (_ & Hlisted & _).
    destruct Hlisted as (_ & layout & bits & Hlayout & Hbits & Hmeaning);
      [intros tag; discriminate |].
    cbn in Hlayout, Hbits.
    injection Hlayout as <-. injection Hbits as <-. exact Hmeaning.
Defined.

(** ** Timestamps *)

Lemma int64_t_small (z : Z) : - 2 ^ 63 <= z < 2 ^ 63 -> int64_t z = z.
Proof.
  intros H. unfold int64_t.
  rewrite Z.mod_small by lia. lia.
Qed.

Lemma uint64_t_int64_t (z : Z) : uint64_t (int64_t z) = z mod 2 ^ 64.
Proof.
  unfold uint64_t, int64_t.
  rewrite Zminus_mod_idemp_l. f_equal. lia.
Qed.

Lemma uint64_t_small (z : Z) : 0 <= z < 2 ^ 64 -> uint64_t z = z.
Proof. intros H. unfold uint64_t. apply Z.mod_small. lia. Qed.

(** The run of [timestamp_to_ns] when the camera lives and the frequency
    query succeeds: the arithmetic alone remains. *)
Lemma timestamp_to_ns_queried (api : VmbCAPI) (w : World) (t f : Z) :
  expired w = false ->
  FeatureIntGet api (trace w) localDeviceHandle DeviceTimestampFrequency
  = (VmbErrorSuccess, f) ->
  - 2 ^ 63 <= f < 2 ^ 63 ->
  timestamp_to_ns api t w
  = let w' := with_events w [EvFeatureIntGet localDeviceHandle
                               DeviceTimestampFrequency VmbErrorSuccess f] in
    if nano_den <? f then
      match sdiv64 f nano_den w' with
      | Returns q w'' => udiv64 t (uint64_t q) w''
      | Aborts why => Aborts why
      end
    else
      match sdiv64 nano_den f w' with
      | Returns q w'' => Returns (uint64_t (t * uint64_t q)) w''
      | Aborts why => Aborts why
      end.
Proof.
  intros Hlive Hq Hf. destruct w as [c gone tr next].
  cbn [expired trace] in Hlive, Hq. subst gone.
  unfold timestamp_to_ns. run. cbn [expired trace negb self fresh].
  rewrite Hq. cbn [fst snd is_success].
  rewrite (int64_t_small f Hf).
  destruct (nano_den <? f); reflexivity.
Qed.

(** C5: with a live camera and a successful frequency query answering a
    non-zero [f], [timestamp_to_ns] returns [t / (f / 10^9)] when
    [f > 10^9] and [t * (10^9 / f)] otherwise, in the integer arithmetic of
    the code: the quotient truncates, the product is taken in 64 unsigned
    bits (and is the exact product whenever that fits).  At [f = 2 * 10^9],
    [t = 4 * 10^9] the result is [2 * 10^9]; at [f = 5 * 10^8], [t = 1000]
    it is [2000]. *)
Theorem timestamp_to_ns_conversion (api : VmbCAPI) (w : World) (t f : Z) :
  expired w = false ->
  FeatureIntGet api (trace w) localDeviceHandle DeviceTimestampFrequency
  = (VmbErrorSuccess, f) ->
  0 <= t < 2 ^ 64 ->
  - 2 ^ 63 <= f < 2 ^ 63 ->
  f <> 0 ->
  exists ns,
    timestamp_to_ns api t w
    = Returns ns (with_events w [EvFeatureIntGet localDeviceHandle
                                   DeviceTimestampFrequency VmbErrorSuccess f]) /\
    (nano_den < f -> ns = t / (f / nano_den)) /\
    (f <= nano_den -> ns = (t * (nano_den ÷ f)) mod 2 ^ 64) /\
    (0 < f <= nano_den -> t * (nano_den / f) < 2 ^ 64 ->
     ns = t * (nano_den / f)) /\
    (f = 2000000000 -> t = 4000000000 -> ns = 2000000000) /\
    (f = 500000000 -> t = 1000 -> ns = 2000).
Proof.
  intros Hlive Hq Ht Hf Hnz.
  rewrite (timestamp_to_ns_queried api w t f Hlive Hq Hf). cbv zeta.
  unfold nano_den in *.
  destruct (1000000000 <? f) eqn:Hcmp.
  - apply Z.ltb_lt in Hcmp.
    assert (Hquot : f ÷ 1000000000 = f / 1000000000)
      by (apply Z.quot_div_nonneg; lia).
    assert (Hq1 : 1 <= f / 1000000000)
      by (apply Z.div_le_lower_bound; lia).
    assert (Hq2 : f / 1000000000 <= f)
      by (apply Z.div_le_upper_bound; lia).
    unfold sdiv64, udiv64. run. cbn [Z.eqb].
    rewrite Hquot, int64_t_small, uint64_t_small by lia.
    destruct (f / 1000000000 =? 0) eqn:Hz; [apply Z.eqb_eq in Hz; lia |].
    eexists. split; [reflexivity |].
    repeat split; intros; subst; try lia; reflexivity.
  - apply Z.ltb_ge in Hcmp.
    unfold sdiv64. run.
    destruct (f =? 0) eqn:Hz; [apply Z.eqb_eq in Hz; lia |].
    eexists. split; [reflexivity |].
    assert (Hgen : uint64_t (t * uint64_t (int64_t (1000000000 ÷ f)))
                   = (t * (1000000000 ÷ f)) mod 2 ^ 64).
    { rewrite uint64_t_int64_t. unfold uint64_t.
      apply Z.mul_mod_idemp_r. lia. }
    rewrite Hgen.
    split; [lia |]. split; [reflexivity |].
    split.
    { intros Hpos Hfit.
      rewrite Z.quot_div_nonneg by lia.
      apply Z.mod_small. split; [| exact Hfit].
      apply Z.mul_nonneg_nonneg; [lia |]. apply Z.div_pos; lia. }
    split; intros; subst; try lia; reflexivity.
Qed.

Lemma timestamp_to_ns_conversion_witness :
  exists ns,
    timestamp_to_ns (scripted_api (with_frequency 2000000000 mono8_2x2))
      4000000000 idle_world
    = Returns ns (with_events idle_world
                    [EvFeatureIntGet localDeviceHandle DeviceTimestampFrequency
                       VmbErrorSuccess 2000000000]) /\
    (nano_den < 2000000000 -> ns = 4000000000 / (2000000000 / nano_den)) /\
    (2000000000 <= nano_den ->
     ns = (4000000000 * (nano_den ÷ 2000000000)) mod 2 ^ 64) /\
    (0 < 2000000000 <= nano_den ->
     4000000000 * (nano_den / 2000000000) < 2 ^ 64 ->
     ns = 4000000000 * (nano_den / 2000000000)) /\
    (2000000000 = 2000000000 -> 4000000000 = 4000000000 -> ns = 2000000000) /\
    (2000000000 = 500000000 -> 4000000000 = 1000 -> ns = 2000).
Proof.
  apply (timestamp_to_ns_conversion
           (scripted_api (with_frequency 2000000000 mono8_2x2))
           idle_world 4000000000 2000000000).
  - reflexivity.
  - reflexivity.
  - lia.
  - lia.
  - lia.
Defined.

(** C10: with a live camera and a successful frequency query answering
    [f], [timestamp_to_ns] divides by zero exactly when [f = 0] (the
    comparison sends zero to the branch that computes [10^9 / f], and
    nothing guards it); for every [f > 0] both divisions have a non-zero
    divisor and the call returns a value. *)
Theorem timestamp_to_ns_needs_nonzero_frequency (api : VmbCAPI) (w : World)
    (t f : Z) :
  expired w = false ->
  FeatureIntGet api (trace w) localDeviceHandle DeviceTimestampFrequency
  = (VmbErrorSuccess, f) ->
  - 2 ^ 63 <= f < 2 ^ 63 ->
  (timestamp_to_ns api t w = Aborts division_by_zero <-> f = 0) /\
  (0 < f -> exists ns w', timestamp_to_ns api t w = Returns ns w').
Proof.
  intros Hlive Hq Hf.
  rewrite (timestamp_to_ns_queried api w t f Hlive Hq Hf). cbv zeta.
  unfold nano_den.
  destruct (1000000000 <? f) eqn:Hcmp.
  - apply Z.ltb_lt in Hcmp.
    assert (Hquot : f ÷ 1000000000 = f / 1000000000)
      by (apply Z.quot_div_nonneg; lia).
    assert (Hq1 : 1 <= f / 1000000000)
      by (apply Z.div_le_lower_bound; lia).
    assert (Hq2 : f / 1000000000 <= f)
      by (apply Z.div_le_upper_bound; lia).
    unfold sdiv64, udiv64. run. cbn [Z.eqb].
    rewrite Hquot, int64_t_small, uint64_t_small by lia.
    destruct (f / 1000000000 =? 0) eqn:Hz; [apply Z.eqb_eq in Hz; lia |].
    split.
    + split; [discriminate | lia].
    + intros _. eauto.
  - apply Z.ltb_ge in Hcmp.
    unfold sdiv64. run.
    destruct (f =? 0) eqn:Hz.
    + apply Z.eqb_eq in Hz. split; [tauto | lia].
    + apply Z.eqb_neq in Hz. split.
      * split; [discriminate | contradiction].
      * intros _. eauto.
Qed.

Lemma timestamp_to_ns_needs_nonzero_frequency_witness :
  timestamp_to_ns (scripted_api (with_frequency 0 mono8_2x2)) 1000 idle_world
  = Aborts division_by_zero /\
  exists ns w',
    timestamp_to_ns (scripted_api (with_frequency 500000000 mono8_2x2)) 1000
      idle_world
    = Returns ns w'.
Proof.
  split.
  - apply (timestamp_to_ns_needs_nonzero_frequency
             (scripted_api (with_frequency 0 mono8_2x2)) idle_world 1000 0).
    + reflexivity.
    + reflexivity.
    + lia.
    + reflexivity.
  - apply (timestamp_to_ns_needs_nonzero_frequency
             (scripted_api (with_frequency 500000000 mono8_2x2)) idle_world
             1000 500000000).
    + reflexivity.
    + reflexivity.
    + lia.
    + lia.
Defined.

(** ** The pixel transform *)

Lemma length_bytes16 (ws : list Z) : length (bytes16 ws) = (2 * length ws)%nat.
Proof. induction ws as [| w ws IH]; cbn [bytes16 length]; lia. Qed.

Lemma words16_bytes16 (ws rest : list Z) :
  Forall (fun x => 0 <= x < 2 ^ 16) ws ->
  words16 (bytes16 ws ++ rest) = ws ++ words16 rest.
Proof.
  induction 1 as [| x ws Hx _ IH]; [reflexivity |].
  cbn [bytes16 app words16]. rewrite IH. f_equal.
  rewrite (Z.div_mod x 256) at 3 by lia.
  rewrite (Z.mod_small (x / 256) 256); [lia |].
  split; [apply Z.div_pos; lia | apply Z.div_lt_upper_bound; lia].
Qed.

(** Reading a buffer as samples uses whole pairs of bytes only. *)
Lemma length_words16_pair (l : list Z) :
  length (words16 l) = Nat.div2 (length l) /\
  forall a, length (words16 (a :: l)) = Nat.div2 (S (length l)).
Proof.
  induction l as [| b l [IH1 IH2]].
  - split; reflexivity.
  - split; [apply IH2 |].
    intros a. cbn [words16 length Nat.div2]. rewrite IH1. reflexivity.
Qed.

Lemma length_words16 (l : list Z) : length (words16 l) = Nat.div2 (length l).
Proof. apply length_words16_pair. Qed.

Lemma words16_short (l : list Z) : (length l <= 1)%nat -> words16 l = [].
Proof.
  destruct l as [| a [| b l]]; cbn [length]; intros H; try reflexivity. lia.
Qed.

Lemma shl16_range (k s : Z) : 0 <= shl16 k s < 2 ^ 16.
Proof. unfold shl16. apply Z.mod_pos_bound. lia. Qed.

(** What a left shift by [16 - d] inside a 16-bit word does to the bits. *)
Lemma shl16_bits (d s : Z) :
  0 < d <= 16 ->
  shl16 (16 - d) s mod 2 ^ (16 - d) = 0 /\
  shl16 (16 - d) s / 2 ^ (16 - d) = s mod 2 ^ d.
Proof.
  intros Hd. unfold shl16.
  rewrite Z.shiftl_mul_pow2 by lia.
  replace (2 ^ 16) with (2 ^ d * 2 ^ (16 - d))
    by (rewrite <- Z.pow_add_r by lia; f_equal; lia).
  assert (Hpow : 0 < 2 ^ (16 - d)) by (apply Z.pow_pos_nonneg; lia).
  assert (Hpow' : 0 < 2 ^ d) by (apply Z.pow_pos_nonneg; lia).
  rewrite Z.mul_mod_distr_r by lia.
  split.
  - apply Z.mod_mul. lia.
  - apply Z.div_mul. lia.
Qed.

(** The buffer that [left_shift16] leaves, read as samples. *)
Lemma left_shift16_samples (out src : list Z) (shift : Z) :
  (length out <= length src)%nat ->
  exists out',
    left_shift16 out src (length out) shift = Some out' /\
    length out' = length out /\
    words16 out' = map (shl16 shift) (words16 (take (length out) src)).
Proof.
  intros Hlen. unfold left_shift16.
  destruct (length src <? length out)%nat eqn:H1;
    [apply Nat.ltb_lt in H1; lia |].
  rewrite Nat.ltb_irrefl. cbn [orb].
  set (ws := map (shl16 shift) (words16 (take (length out) src))).
  assert (Hws : (length (bytes16 ws) <= length out
                 /\ length out - length (bytes16 ws) <= 1)%nat).
  { rewrite length_bytes16. unfold ws.
    rewrite length_map, length_words16, length_take_le by lia.
    generalize (Nat.div2_odd (length out)).
    destruct (Nat.odd (length out)); cbn [Nat.b2n]; lia. }
  eexists. split; [reflexivity |]. split.
  - rewrite length_app, length_drop. lia.
  - rewrite words16_bytes16.
    + rewrite words16_short by (rewrite length_drop; lia).
      apply app_nil_r.
    + unfold ws. apply Forall_map, Forall_forall. intros x _.
      apply shl16_range.
Qed.

(** C2: for a frame whose format has samples of [d] significant bits,
    [d] being 10, 12 or 14, and whose image memory covers the buffer,
    [transform] returns; the buffer keeps its length and each of its 16-bit
    samples is the input sample shifted left by [16 - d] inside 16 bits: its
    low [16 - d] bits are zero and its top [d] bits are the low [d] bits of
    the input sample. *)
Theorem transform_left_aligns (f : Frame) (w : World) (d : Z) :
  sample_bits (pixelFormat (vmb_frame_ f)) = Some d ->
  d = 10 \/ d = 12 \/ d = 14 ->
  (length (data f) <= length (imageData (vmb_frame_ f)))%nat ->
  exists f',
    transform f w = Returns f' w /\
    length (data f') = length (data f) /\
    words16 (data f')
    = map (shl16 (16 - d))
        (words16 (take (length (data f)) (imageData (vmb_frame_ f)))) /\
    forall (i : nat) (s : Z),
      words16 (take (length (data f)) (imageData (vmb_frame_ f))) !! i = Some s ->
      exists o,
        words16 (data f') !! i = Some o /\
        o = Z.shiftl s (16 - d) mod 2 ^ 16 /\
        o mod 2 ^ (16 - d) = 0 /\
        o / 2 ^ (16 - d) = s mod 2 ^ d.
Proof.
  intros Hbits Hd Hlen.
  destruct (left_shift16_samples (data f) (imageData (vmb_frame_ f)) (16 - d) Hlen)
    as (out' & Hshift & Hlen' & Hwords).
  exists (set_data out' f).
  assert (Hrun : transform f w = Returns (set_data out' f) w).
  { unfold transform. cbv zeta.
    destruct (pixelFormat (vmb_frame_ f)); cbn [sample_bits] in Hbits;
      try discriminate; injection Hbits as <-;
      try (exfalso; lia);
      match type of Hshift with
      | context [16 - ?n] =>
          let k := eval compute in (16 - n) in
          change (16 - n) with k in Hshift
      end;
      rewrite Hshift; reflexivity. }
  split; [exact Hrun |]. cbn [set_data data].
  split; [exact Hlen' |]. split; [exact Hwords |].
  intros i s Hs. exists (shl16 (16 - d) s). split.
  - rewrite Hwords. apply (list_lookup_fmap_Some_2 (shl16 (16 - d))). exact Hs.
  - split; [reflexivity |]. apply shl16_bits. lia.
Qed.

Lemma transform_left_aligns_witness :
  exists f',
    transform mono10_frame idle_world = Returns f' idle_world /\
    length (data f') = length (data mono10_frame) /\
    words16 (data f')
    = map (shl16 (16 - 10))
        (words16 (take (length (data mono10_frame))
                    (imageData (vmb_frame_ mono10_frame)))) /\
    forall (i : nat) (s : Z),
      words16 (take (length (data mono10_frame))
                 (imageData (vmb_frame_ mono10_frame))) !! i = Some s ->
      exists o,
        words16 (data f') !! i = Some o /\
        o = Z.shiftl s (16 - 10) mod 2 ^ 16 /\
        o mod 2 ^ (16 - 10) = 0 /\
        o / 2 ^ (16 - 10) = s mod 2 ^ 10.
Proof.
  apply (transform_left_aligns mono10_frame idle_world 10).
  - reflexivity.
  - left. reflexivity.
  - cbn. lia.
Defined.

(** A run of the transform at a concrete frame: [0x03FF] becomes [0xFFC0],
    [0x0001] becomes [0x0040]. *)
Example transform_mono10_frame :
  exists f', transform mono10_frame idle_world = Returns f' idle_world /\
             data f' = [192; 255; 64; 0].
Proof. eexists. split; reflexivity. Qed.

(** ** Allocation mode *)

Lemma memcpy_whole (dst src : list Z) :
  (length dst <= length src)%nat ->
  memcpy dst src (length dst) = Some (take (length dst) src).
Proof.
  intros Hlen. unfold memcpy.
  destruct (length src <? length dst)%nat eqn:H1;
    [apply Nat.ltb_lt in H1; lia |].
  rewrite Nat.ltb_irrefl. cbn [orb].
  rewrite drop_all. rewrite app_nil_r. reflexivity.
Qed.

Lemma image_size_exact (width height bpp : Z) :
  0 <= width -> 0 <= height -> 0 <= bpp ->
  width * bpp < 2 ^ 63 ->
  height * (width * bpp / 8) < 2 ^ 63 ->
  image_size width height bpp = height * (width * bpp / 8).
Proof.
  intros Hw Hh Hb Hline Hsize. unfold image_size.
  assert (H0 : 0 <= width * bpp) by (apply Z.mul_nonneg_nonneg; lia).
  rewrite (int64_t_small (width * bpp)) by lia.
  rewrite Z.quot_div_nonneg by lia.
  assert (H1 : 0 <= width * bpp / 8) by (apply Z.div_pos; lia).
  assert (H2 : width * bpp / 8 <= width * bpp)
    by (apply Z.div_le_upper_bound; lia).
  rewrite (int64_t_small (width * bpp / 8)) by lia.
  assert (H3 : 0 <= height * (width * bpp / 8))
    by (apply Z.mul_nonneg_nonneg; lia).
  rewrite int64_t_small by lia.
  apply uint64_t_small. lia.
Qed.

(** A successful [Frame::create]: what it asked the API, and the frame it
    built from the answers. *)
Lemma Frame_create_ok (api : VmbCAPI) (size alignment : Z) (w w' : World)
    (f : Frame) :
  Frame_create api size alignment w = Returns (Ok f) w' ->
  exists (str : string) (tag width height : Z),
    let bpp := Z.land (Z.shiftr (uint32_t (int64_t tag)) 16) 255 in
    let line := int64_t (Z.quot (int64_t (int64_t width * bpp)) 8) in
    let realSize := image_size (int64_t width) (int64_t height) bpp in
    allocation_mode_ f = (if realSize =? size then kByImage else kByTl) /\
    step f = uint32_t line /\
    Z.of_nat (length (data f)) = realSize /\
    context0 (vmb_frame_ f) = fresh w /\
    callback_ f = None /\
    w' = {| self := self w; expired := expired w;
            trace := trace w ++
              [EvFeatureInfoQuery PixelFormat VmbErrorSuccess (Some "Standard");
               EvFeatureEnumGet PixelFormat VmbErrorSuccess str;
               EvFeatureEnumAsInt PixelFormat str VmbErrorSuccess tag;
               EvFeatureIntGet camera_handle_ Width VmbErrorSuccess width;
               EvFeatureIntGet camera_handle_ Height VmbErrorSuccess height;
               EvFrameAnnounce (fresh w) (buffer (vmb_frame_ f))
                 (bufferSize (vmb_frame_ f)) VmbErrorSuccess];
            fresh := S (fresh w) |}.
Proof.
  intros H. destruct w as [c gone tr next].
  unfold Frame_create, get_pixel_format, feature_info_query, feature_enum_get,
    feature_enum_as_int, feature_int_get, data_resize in H.
  case_run H.
  all: finish_run H.
  all: match goal with
       | Hs : String.eqb ?s "Standard" = true |- _ =>
           apply String.eqb_eq in Hs; subst s
       end.
  all: match goal with
       | |- context [EvFeatureEnumAsInt PixelFormat ?s VmbErrorSuccess ?t] =>
           match goal with
           | |- context [EvFeatureIntGet camera_handle_ Width _ ?x] =>
               match goal with
               | |- context [EvFeatureIntGet camera_handle_ Height _ ?y] =>
                   exists s, t, x, y
               end
           end
       end.
  all: cbv zeta; unfold image_size.
  all: match goal with Hc : (_ =? _) = _ |- _ => rewrite Hc end.
  all: cbn [allocation_mode_ step data set_step set_vmb_frame set_data
            Frame_new vmb_frame_ context0 set_vmb_buffer callback_ buffer
            bufferSize self expired trace fresh].
  all: rewrite length_replicate.
  all: match goal with
       | |- context [uint64_t ?x] =>
           pose proof (Z.mod_pos_bound x (2 ^ 64) ltac:(lia)) as Hrange;
           change (x mod 2 ^ 64) with (uint64_t x) in Hrange
       end.
  - apply Z.eqb_eq in Heqb0. rewrite <- Heqb0.
    rewrite Z2Nat.id by lia. repeat split; reflexivity.
  - rewrite Z2Nat.id by lia. repeat split; reflexivity.
Qed.

(** The claim of C9 as worded fails: a camera of 2 x 1 pixels at 8 bits per
    pixel and a requested size of 2 bytes gets a [kByImage] frame, although
    2 is not width x height x bytes-per-line = 2 x 1 x 2. *)
Lemma allocation_mode_claimed_size_counterexample :
  exists (f : Frame) (w' : World),
    Frame_create (scripted_api (with_geometry 2 2 1 mono8_2x2)) 2 128 idle_world
    = Returns (Ok f) w' /\
    ~ (allocation_mode_ f = kByImage <->
       2 = claimed_image_size 2 1 (Z.land (Z.shiftr 17301505 16) 255)).
Proof.
  eexists. eexists. split; [vm_compute; reflexivity |].
  cbn. intros [Hto _]. specialize (Hto eq_refl). discriminate Hto.
Qed.

(** C9, amended: a frame that [Frame::create] returns is [kByImage] exactly
    when the requested size equals height x bytes-per-line, where
    bytes-per-line = width x bits-per-pixel / 8 (truncating) and
    bits-per-pixel is bits 16..23 of the format tag, all in 64-bit
    arithmetic; otherwise it is [kByTl].  For a format that is not shifted,
    [transform] leaves a [kByImage] frame as it is, and for a [kByTl] frame
    whose image memory covers the buffer it fills the buffer with the first
    bytes of the image memory, unchanged. *)
Theorem allocation_mode_by_image_iff (api : VmbCAPI) (size alignment : Z)
    (w w' : World) (f : Frame) :
  Frame_create api size alignment w = Returns (Ok f) w' ->
  (exists (str : string) (tag width height : Z),
     trace w' = trace w ++
       [EvFeatureInfoQuery PixelFormat VmbErrorSuccess (Some "Standard");
        EvFeatureEnumGet PixelFormat VmbErrorSuccess str;
        EvFeatureEnumAsInt PixelFormat str VmbErrorSuccess tag;
        EvFeatureIntGet camera_handle_ Width VmbErrorSuccess width;
        EvFeatureIntGet camera_handle_ Height VmbErrorSuccess height;
        EvFrameAnnounce (fresh w) (buffer (vmb_frame_ f))
          (bufferSize (vmb_frame_ f)) VmbErrorSuccess] /\
     let bpp := Z.land (Z.shiftr (uint32_t (int64_t tag)) 16) 255 in
     let realSize := image_size (int64_t width) (int64_t height) bpp in
     (allocation_mode_ f = kByImage <-> size = realSize) /\
     (allocation_mode_ f = kByTl <-> size <> realSize) /\
     (0 <= width < 2 ^ 63 -> 0 <= height < 2 ^ 63 ->
      width * bpp < 2 ^ 63 -> height * (width * bpp / 8) < 2 ^ 63 ->
      realSize = height * (width * bpp / 8))) /\
  (forall (g : Frame) (w0 : World),
     is_shifted (pixelFormat (vmb_frame_ g)) = false ->
     (allocation_mode_ g = kByImage -> transform g w0 = Returns g w0) /\
     (allocation_mode_ g = kByTl ->
      (length (data g) <= length (imageData (vmb_frame_ g)))%nat ->
      transform g w0
      = Returns (set_data (take (length (data g)) (imageData (vmb_frame_ g))) g)
          w0)).
Proof.
  intros Hrun. split.
  - destruct (Frame_create_ok api size alignment w w' f Hrun)
      as (str & tag & width & height & Hmode & _ & _ & _ & _ & ->).
    exists str, tag, width, height. split; [reflexivity |].
    cbv zeta in *. rewrite Hmode.
    destruct (Z.eqb_spec
                (image_size (int64_t width) (int64_t height)
                   (Z.land (uint32_t (int64_t tag) ≫ 16) 255)) size) as [He | Hne].
    + split; [| split].
      * split; [intros _; symmetry; exact He | reflexivity].
      * split; [discriminate | intros Hd; symmetry in He; contradiction].
      * intros Hw Hh Hl Hs.
        rewrite !int64_t_small by lia.
        apply image_size_exact; try lia.
        apply Z.land_nonneg. right. lia.
    + split; [| split].
      * split; [discriminate | intros Hd; symmetry in Hd; contradiction].
      * split; [intros _ Hd; symmetry in Hd; contradiction | reflexivity].
      * intros Hw Hh Hl Hs.
        rewrite !int64_t_small by lia.
        apply image_size_exact; try lia.
        apply Z.land_nonneg. right. lia.
  - intros g w0 Hplain. split.
    + intros Hmode. unfold transform. cbv zeta. rewrite Hmode.
      unfold is_shifted in Hplain.
      destruct (pixelFormat (vmb_frame_ g)); cbn in Hplain;
        try discriminate; reflexivity.
    + intros Hmode Hlen. unfold transform. cbv zeta. rewrite Hmode.
      rewrite (memcpy_whole _ _ Hlen).
      unfold is_shifted in Hplain.
      destruct (pixelFormat (vmb_frame_ g)); cbn in Hplain;
        try discriminate; reflexivity.
Qed.

Lemma allocation_mode_by_image_iff_witness :
  exists (f : Frame) (w' : World),
    Frame_create (scripted_api (with_geometry 2 2 1 mono8_2x2)) 2 128 idle_world
    = Returns (Ok f) w' /\
    allocation_mode_ f = kByImage /\
    2 = image_size 2 1 8 /\
    transform mono8_tl_frame idle_world
    = Returns (set_data [9; 8; 7; 6] mono8_tl_frame) idle_world.
Proof.
  eexists. eexists. split; [vm_compute; reflexivity |].
  pose proof (allocation_mode_by_image_iff
                (scripted_api (with_geometry 2 2 1 mono8_2x2)) 2 128
                idle_world _ _ ltac:(vm_compute; reflexivity))
    as [Hcreate Hcopy].
  destruct Hcreate as (str & tag & width & height & Htrace & Hiff & _ & _).
  cbn [trace idle_world app] in Htrace. simplify_eq.
  split; [| split].
  - apply Hiff. vm_compute. reflexivity.
  - vm_compute. reflexivity.
  - apply (Hcopy mono8_tl_frame idle_world).
    + reflexivity.
    + reflexivity.
    + cbn. lia.
Defined.

(** ** Completion notifications that did not succeed *)

(** The claim of C3 as worded fails where the camera object is gone: the
    guard of [Frame::queue] then skips the call, and the notification leaves
    no trace at all, so the buffer is not handed back to the capture
    queue. *)
Lemma incomplete_frame_requeue_counterexample :
  receiveStatus (vmb_frame_ incomplete_frame) <> VmbFrameStatusComplete /\
  vmb_frame_callback (scripted_api mono8_2x2) incomplete_frame orphan_world
  = Returns incomplete_frame orphan_world /\
  forall err,
    EvCaptureFrameQueue (context0 (vmb_frame_ incomplete_frame)) err
    ∉ trace orphan_world.
Proof.
  split; [discriminate |]. split; [reflexivity |].
  intros err Hin. cbn in Hin. inversion Hin.
Qed.

(** C3, amended: a completion notification whose status is not the success
    status leaves the frame as it is (no encoding, geometry, timestamp or
    pixel transform), never reaches the consumer callback, and, as long as
    the camera object lives, makes exactly one call, the re-queue of that
    buffer, whose result is dropped; when the camera object is gone, nothing
    is called. *)
Theorem incomplete_frame_is_requeued (api : VmbCAPI) (f : Frame) (w : World) :
  receiveStatus (vmb_frame_ f) <> VmbFrameStatusComplete ->
  (expired w = false ->
   vmb_frame_callback api f w
   = Returns f (with_events w
                  [EvCaptureFrameQueue (context0 (vmb_frame_ f))
                     (CaptureFrameQueue api (trace w) (vmb_frame_ f))])) /\
  (expired w = true -> vmb_frame_callback api f w = Returns f w).
Proof.
  intros Hstatus. unfold vmb_frame_callback, Frame_queue.
  destruct (receiveStatus (vmb_frame_ f)) as [| code]; [contradiction |].
  destruct w as [c gone tr next]. cbn [expired].
  split; intros ->; reflexivity.
Qed.

Lemma incomplete_frame_is_requeued_witness :
  vmb_frame_callback (scripted_api mono8_2x2) incomplete_frame idle_world
  = Returns incomplete_frame
      (with_events idle_world [EvCaptureFrameQueue 0 VmbErrorSuccess]) /\
  vmb_frame_callback (scripted_api mono8_2x2) incomplete_frame orphan_world
  = Returns incomplete_frame orphan_world.
Proof.
  split.
  - apply (incomplete_frame_is_requeued (scripted_api mono8_2x2)
             incomplete_frame idle_world).
    + discriminate.
    + reflexivity.
  - apply (incomplete_frame_is_requeued (scripted_api mono8_2x2)
             incomplete_frame orphan_world).
    + discriminate.
    + reflexivity.
Defined.

(** For contrast, a completed frame is normalised and delivered. *)
Example complete_frame_is_delivered :
  exists f' w',
    vmb_frame_callback (scripted_api mono8_2x2) mono8_tl_frame idle_world
    = Returns f' w' /\
    data f' = [9; 8; 7; 6] /\ encoding f' = "mono8" /\
    header_stamp_nanosec f' = 1000 /\
    trace w' = [EvFeatureIntGet localDeviceHandle DeviceTimestampFrequency
                  VmbErrorSuccess 1000000000;
                EvCallback 7 f'].
Proof. eexists. eexists. split; [vm_compute; reflexivity |]. repeat split. Qed.

(** ** What a run leaves behind *)

Lemma announced_app (a b : Trace) : announced (a ++ b) = announced a ++ announced b.
Proof.
  induction a as [| e a IH]; [reflexivity |].
  destruct e; cbn [app announced]; try exact IH.
  destruct err; cbn [app]; rewrite ?IH; reflexivity.
Qed.

Lemma grows_refl (w : World) : grows w w [].
Proof.
  split; [reflexivity |]. exists []. rewrite app_nil_r. repeat split. constructor.
Qed.

Lemma grows_trans (w w1 w2 : World) (a b : list nat) :
  grows w w1 a -> grows w1 w2 b -> grows w w2 (a ++ b).
Proof.
  intros [He1 (n1 & Ht1 & Hr1 & Ha1)] [He2 (n2 & Ht2 & Hr2 & Ha2)].
  split; [congruence |]. exists (n1 ++ n2). split; [| split].
  - rewrite Ht2, Ht1, app_assoc. reflexivity.
  - apply Forall_app. split; assumption.
  - rewrite announced_app. congruence.
Qed.

Lemma poll_command_done_run (api : VmbCAPI) (fuel : nat) (name : FeatureName)
    (done : bool) (w w' : World) (r : result unit) :
  poll_command_done api fuel name done w = Returns r w' ->
  r = Ok tt /\ self w' = self w /\ grows w w' [].
Proof.
  revert done w. induction fuel as [| fuel IH]; intros done w H.
  - destruct done; cbn in H; [| discriminate].
    injection H as <- <-. split; [reflexivity |]. split; [reflexivity |].
    apply grows_refl.
  - destruct done; cbn [poll_command_done] in H.
    + injection H as <- <-. split; [reflexivity |]. split; [reflexivity |].
      apply grows_refl.
    + run_in H. apply IH in H. destruct H as (-> & Hself & Hgrows).
      split; [reflexivity |]. split; [exact Hself |].
      eapply (grows_trans _ _ _ [] []); [| exact Hgrows].
      destruct w as [c gone tr next]. cbn [trace self expired fresh].
      split; [reflexivity |]. eexists. split; [| split].
      * rewrite <- app_assoc. reflexivity.
      * repeat constructor.
      * reflexivity.
Qed.

Lemma feature_command_run_run (api : VmbCAPI) (fuel : nat) (name : FeatureName)
    (w w' : World) (r : result unit) :
  feature_command_run api fuel name w = Returns r w' ->
  self w' = self w /\ grows w w' [].
Proof.
  intros H. unfold feature_command_run in H. run_in H. revert H.
  destruct (is_success (FeatureCommandRun api (trace w) name));
    cbn [negb]; intros H.
  - apply poll_command_done_run in H. destruct H as (_ & Hself & Hgrows).
    split; [exact Hself |].
    eapply (grows_trans _ _ _ [] []); [| exact Hgrows].
    destruct w as [c gone tr next]. cbn [trace self expired fresh].
    split; [reflexivity |]. eexists. split; [| split].
    + rewrite <- app_assoc. reflexivity.
    + repeat constructor.
    + reflexivity.
  - injection H as <- <-. split; [reflexivity |].
    destruct w as [c gone tr next]. grows_done.
Qed.

Lemma Frame_queue_run (api : VmbCAPI) (f : Frame) (w w' : World)
    (r : VmbError_t) :
  Frame_queue api f w = Returns r w' -> self w' = self w /\ grows w w' [].
Proof.
  intros H. destruct w as [c gone tr next]. unfold Frame_queue in H.
  run_in H. cbn [expired] in H.
  destruct gone; cbn [negb] in H; injection H as <- <-.
  - split; [reflexivity |]. apply grows_refl.
  - split; [reflexivity |]. grows_done.
Qed.

Lemma queue_frames_run (api : VmbCAPI) (frames : list (option Frame))
    (w w' : World) (r : result unit) :
  queue_frames api frames w = Returns r w' -> self w' = self w /\ grows w w' [].
Proof.
  revert w. induction frames as [| [f |] frames IH]; intros w H;
    cbn [queue_frames] in H.
  - injection H as <- <-. split; [reflexivity |]. apply grows_refl.
  - run_in H. destruct (Frame_queue api f w) as [e w1 | why] eqn:Hq;
      [| discriminate].
    apply Frame_queue_run in Hq. destruct Hq as [Hself Hgrows].
    revert H. destruct (negb (is_success e)); intros H.
    + injection H as <- <-. split; assumption.
    + apply IH in H. destruct H as [Hself' Hgrows'].
      split; [congruence |].
      apply (grows_trans _ _ _ [] [] Hgrows Hgrows').
  - discriminate.
Qed.

(** Whatever [Frame::create] returns, it leaves the camera object alone, and
    of its calls only a successful announce of the new frame matters to the
    capture subsystem. *)
Lemma Frame_create_run (api : VmbCAPI) (size alignment : Z) (w w' : World)
    (r : result Frame) :
  Frame_create api size alignment w = Returns r w' ->
  self w' = self w /\
  grows w w' (match r with
              | Ok f => [context0 (vmb_frame_ f)]
              | Err _ => []
              end).
Proof.
  intros H. destruct w as [c gone tr next].
  unfold Frame_create, get_pixel_format, feature_info_query, feature_enum_get,
    feature_enum_as_int, feature_int_get, data_resize in H.
  case_run H.
  all: finish_run H.
  all: split; [reflexivity | grows_done].
Qed.

(** The first loop of [start_streaming], started at slot [i] of a pool that
    has room for [n] more frames: it fills the slots in order with the frames
    [fs] it created and announced, and stops at the first failure. *)
Lemma create_frames_run (api : VmbCAPI) (size : Z) (cb : Callback) (n : nat) :
  forall (i : nat) (w w' : World) (r : result unit),
    create_frames api size cb i n w = Returns r w' ->
    (i + n <= length (frames_ (self w)))%nat ->
    exists fs : list Frame,
      streaming_ (self w') = streaming_ (self w) /\
      frames_ (self w')
      = take i (frames_ (self w)) ++ (Some <$> fs)
          ++ drop (i + length fs) (frames_ (self w)) /\
      grows w w' ((fun f => context0 (vmb_frame_ f)) <$> fs) /\
      match r with
      | Ok _ => length fs = n
      | Err _ => (length fs < n)%nat
      end.
Proof.
  induction n as [| n IH]; intros i w w' r H Hroom.
  - cbn in H. injection H as <- <-. exists [].
    split; [reflexivity |]. split; [| split; [apply grows_refl | reflexivity]].
    cbn [fmap list_fmap length app]. rewrite Nat.add_0_r, take_drop. reflexivity.
  - cbn [create_frames] in H. run_in H.
    destruct (expired w) eqn:Hlive; [discriminate |].
    destruct (Frame_create api size 128 w) as [[f | e] w1 | why] eqn:Hc;
      [| | discriminate].
    + apply Frame_create_run in Hc. destruct Hc as [Hself Hgrows].
      apply IH in H.
      * destruct H as (fs & Hs & Hf & Hg & Hr).
        cbn [self streaming_ frames_ trace expired fresh] in Hs, Hf.
        exists (set_callback cb f :: fs).
        split; [rewrite Hs, Hself; reflexivity |]. split; [| split].
        -- rewrite Hf, Hself.
           rewrite (take_S_r _ _ (Some (set_callback cb f)))
             by (apply list_lookup_insert_eq; lia).
           rewrite take_insert_ge by lia.
           rewrite drop_insert_lt by lia.
           cbn [fmap list_fmap length]. rewrite <- app_assoc. cbn [app].
           replace (i + S (length fs))%nat with (S i + length fs)%nat by lia.
           reflexivity.
        -- apply (grows_trans _ _ _
                    [context0 (vmb_frame_ f)] _ Hgrows).
           destruct Hg as (Hge & new & Hgt & Hgr & Hga).
           cbn [expired trace] in Hge, Hgt.
           split; [exact Hge |]. exists new. auto.
        -- destruct r; cbn [length]; lia.
      * cbn [self frames_]. rewrite length_insert, Hself. lia.
    + apply Frame_create_run in Hc. destruct Hc as [Hself Hgrows].
      injection H as <- <-. exists [].
      split; [rewrite Hself; reflexivity |]. split; [| split].
      * cbn [fmap list_fmap length app]. rewrite Nat.add_0_r, take_drop.
        rewrite Hself. reflexivity.
      * exact Hgrows.
      * cbn [length]. lia.
Qed.

(** ** Start followed by stop *)

(** A start that returns success leaves the engine streaming; if it found
    the engine idle, the pool then holds [bufferCount] frames. *)
Lemma start_streaming_ok (api : VmbCAPI) (fuel : nat) (bufferCount : Z)
    (onFrame : Callback) (startAcquisition : bool) (w w1 : World) :
  start_streaming api fuel bufferCount onFrame startAcquisition w
  = Returns (Ok tt) w1 ->
  is_streaming w1 = true /\
  (is_streaming w = false ->
   exists fs : list Frame,
     length fs = Z.to_nat bufferCount /\ frames_ (self w1) = Some <$> fs).
Proof.
  intros H. destruct w as [[s fr] gone tr next]. unfold is_streaming.
  unfold start_streaming, frames_reset in H.
  run_in H. cbn [self streaming_ frames_] in H.
  destruct s; cbn [negb] in H.
  { injection H as <-. split; [reflexivity | discriminate]. }
  case_run H.
  all: repeat match goal with
         | Hc : create_frames _ _ _ _ _ _ = _ |- _ =>
             apply create_frames_run in Hc;
             [ destruct Hc as (fs & Hs & Hf & _ & Hn)
             | cbn [self frames_]; rewrite length_replicate; lia ]
         | Hq : queue_frames _ _ _ = _ |- _ =>
             apply queue_frames_run in Hq; destruct Hq as [Hq _]
         | Hr : feature_command_run _ _ _ _ = _ |- _ =>
             apply feature_command_run_run in Hr; destruct Hr as [Hr _]
         end.
  all: injection H as <-; cbn [self streaming_ frames_] in *.
  all: split; [reflexivity | intros _].
  all: exists fs; split; [exact Hn |].
  all: repeat match goal with
         | Heq : self _ = _ |- _ => rewrite Heq; clear Heq
         end.
  all: rewrite Hf; cbn [take app].
  all: rewrite Hn, drop_ge by (rewrite length_replicate; lia).
  all: apply app_nil_r.
Qed.

(** A stop of a streaming engine.  When it returns success it has ended the
    capture, flushed the queue and revoked all frames, in this order, and
    leaves the engine idle with an empty pool; when it returns an error the
    camera object is as it was. *)
Lemma stop_streaming_run (api : VmbCAPI) (fuel : nat) (w w2 : World)
    (r : result unit) :
  is_streaming w = true ->
  stop_streaming api fuel w = Returns r w2 ->
  match r with
  | Ok _ =>
      is_streaming w2 = false /\ frames_ (self w2) = [] /\
      exists evs : Trace,
        trace w2 = trace w ++ evs ++
          [EvCaptureEnd VmbErrorSuccess; EvCaptureQueueFlush VmbErrorSuccess;
           EvFrameRevokeAll VmbErrorSuccess]
  | Err _ => self w2 = self w
  end.
Proof.
  unfold is_streaming. intros Hs H. destruct w as [[s fr] gone tr next].
  cbn [self streaming_] in Hs. subst s.
  unfold stop_streaming in H. run_in H. cbn [self streaming_ negb] in H.
  case_run H.
  all: match goal with
       | Hr : feature_command_run _ _ _ _ = _ |- _ =>
           apply feature_command_run_run in Hr;
           destruct Hr as (Hself & Hexp & evs & Htr & _)
       end.
  all: injection H as <- <-; cbn [self streaming_ frames_ trace] in *.
  all: try exact Hself.
  split; [reflexivity |]. split; [reflexivity |].
  exists evs. rewrite Htr. rewrite <- !app_assoc. reflexivity.
Qed.

(** The claim of C7 as worded fails: a stop that follows a successful start
    can itself fail (here the acquisition-stop command is refused), and then
    the engine still streams and still holds its frame. *)
Lemma start_then_stop_counterexample :
  exists (w1 w2 : World) (e : VmbError_t),
    start_streaming (scripted_api (refusing_acquisition_stop mono8_2x2))
      1 1 (Some 7%nat) true idle_world
    = Returns (Ok tt) w1 /\
    stop_streaming (scripted_api (refusing_acquisition_stop mono8_2x2)) 1 w1
    = Returns (Err e) w2 /\
    is_streaming w2 = true /\
    length (frames_ (self w2)) = 1%nat.
Proof.
  eexists. eexists. eexists.
  split; [vm_compute; reflexivity |].
  split; [vm_compute; reflexivity |].
  split; reflexivity.
Qed.

(** C7, amended: for any [bufferCount >= 1], when [start_streaming] returns
    success the engine streams (holding [bufferCount] frames if the start
    found it idle); when the [stop_streaming] that follows returns success
    too, the engine is idle afterwards ([is_streaming] is [false]) with an
    empty pool, capture-end, flush and revoke-all having been the last three
    calls; when that stop returns an error, the engine still streams and
    keeps its pool. *)
Theorem start_then_stop_leaves_idle (api : VmbCAPI) (fuel fuel' : nat)
    (bufferCount : Z) (onFrame : Callback) (startAcquisition : bool)
    (w w1 w2 : World) (r : result unit) :
  1 <= bufferCount ->
  start_streaming api fuel bufferCount onFrame startAcquisition w
  = Returns (Ok tt) w1 ->
  stop_streaming api fuel' w1 = Returns r w2 ->
  is_streaming w1 = true /\
  (is_streaming w = false ->
   exists fs : list Frame,
     length fs = Z.to_nat bufferCount /\ frames_ (self w1) = Some <$> fs) /\
  match r with
  | Ok _ =>
      is_streaming w2 = false /\
      frames_ (self w2) = [] /\
      exists evs : Trace,
        trace w2 = trace w1 ++ evs ++
          [EvCaptureEnd VmbErrorSuccess; EvCaptureQueueFlush VmbErrorSuccess;
           EvFrameRevokeAll VmbErrorSuccess]
  | Err _ =>
      is_streaming w2 = true /\ frames_ (self w2) = frames_ (self w1)
  end.
Proof.
  intros _ Hstart Hstop.
  destruct (start_streaming_ok _ _ _ _ _ _ _ Hstart) as [Hon Hpool].
  pose proof (stop_streaming_run _ _ _ _ _ Hon Hstop) as Hrun.
  split; [exact Hon |]. split; [exact Hpool |].
  destruct r as [[] | e]; [exact Hrun |].
  unfold is_streaming in *. rewrite Hrun. auto.
Qed.

Lemma start_then_stop_leaves_idle_witness :
  exists w1 w2 : World,
    start_streaming (scripted_api mono8_2x2) 1 2 (Some 7%nat) true idle_world
    = Returns (Ok tt) w1 /\
    stop_streaming (scripted_api mono8_2x2) 1 w1 = Returns (Ok tt) w2 /\
    is_streaming w1 = true /\
    is_streaming w2 = false /\
    frames_ (self w2) = [].
Proof.
  eexists. eexists.
  split; [vm_compute; reflexivity |].
  split; [vm_compute; reflexivity |].
  pose proof (start_then_stop_leaves_idle (scripted_api mono8_2x2) 1 1 2
                (Some 7%nat) true idle_world _ _ (Ok tt)
                ltac:(lia)
                ltac:(vm_compute; reflexivity)
                ltac:(vm_compute; reflexivity))
    as (Hon & _ & Hoff & Hempty & _).
  split; [exact Hon |]. split; [exact Hoff | exact Hempty].
Defined.

(** ** Start: a frame cannot be created *)

(** The first loop run for [a + b] slots is the loop run for [a] slots
    followed, if that succeeded, by the loop for the next [b] slots. *)
Lemma create_frames_split (api : VmbCAPI) (size : Z) (cb : Callback)
    (a b : nat) :
  forall (i : nat) (w : World),
    create_frames api size cb i (a + b) w
    = match create_frames api size cb i a w with
      | Returns (Ok _) w1 => create_frames api size cb (i + a) b w1
      | Returns (Err e) w1 => Returns (Err e) w1
      | Aborts why => Aborts why
      end.
Proof.
  induction a as [| a IH]; intros i w.
  - cbn. rewrite Nat.add_0_r. reflexivity.
  - cbn [Nat.add create_frames]. run.
    destruct (expired w); [reflexivity |].
    destruct (Frame_create api size 128 w) as [[f | e] w1 | why];
      try reflexivity.
    rewrite IH. replace (S i + a)%nat with (i + S a)%nat by lia. reflexivity.
Qed.

Lemma pool_addresses_filled (fs : list Frame) (n : nat) :
  pool_addresses ((Some <$> fs) ++ replicate n None)
  = (fun f => context0 (vmb_frame_ f)) <$> fs.
Proof.
  induction fs as [| f fs IH].
  - induction n as [| n IHn]; [reflexivity | exact IHn].
  - cbn [fmap list_fmap app pool_addresses]. f_equal. exact IH.
Qed.

(** The claim of C1 as worded fails: with three buffers of which the second
    cannot be announced, the start returns that error, but the first frame
    stays in the pool, stays announced, and no revoke is called. *)
Lemma start_streaming_announce_failure_counterexample :
  exists w' : World,
    start_streaming (scripted_api (refusing_announce 1 mono8_2x2)) 1 3
      (Some 7%nat) true idle_world
    = Returns (Err (VmbErrorCode (-12))) w' /\
    pool_addresses (frames_ (self w')) = [0%nat] /\
    announced (trace w') = [0%nat] /\
    Forall (fun e => is_revoke e = false) (trace w').
Proof.
  eexists. split; [vm_compute; reflexivity |].
  split; [reflexivity |]. split; [reflexivity |].
  repeat constructor.
Qed.

(** C1, amended: on an idle engine whose payload size [p] can be read, if
    the first [k - 1] of the [bufferCount] frames are created and the
    creation of the [k]-th fails with error [e], then [start_streaming]
    stops there and returns [e], and the engine is still idle.  The [k - 1]
    frames created so far are not unwound: they fill the first slots of the
    pool (the other slots are null), they are exactly the frames announced
    since the start began, and no revoke was called. *)
Theorem start_streaming_announce_failure (api : VmbCAPI) (fuel : nat)
    (bufferCount : Z) (onFrame : Callback) (startAcquisition : bool)
    (w w1 w2 : World) (p : Z) (k : nat) (e : VmbError_t) :
  is_streaming w = false ->
  expired w = false ->
  PayloadSizeGet api (trace w) = (VmbErrorSuccess, p) ->
  (1 <= k <= Z.to_nat bufferCount)%nat ->
  create_frames api (uint32_t p) onFrame 0 (k - 1)
    (pool_ready w (Z.to_nat bufferCount) p)
  = Returns (Ok tt) w1 ->
  Frame_create api (uint32_t p) 128 w1 = Returns (Err e) w2 ->
  start_streaming api fuel bufferCount onFrame startAcquisition w
  = Returns (Err e) w2 /\
  is_streaming w2 = false /\
  exists (fs : list Frame) (new : Trace),
    length fs = (k - 1)%nat /\
    frames_ (self w2)
    = (Some <$> fs) ++ replicate (Z.to_nat bufferCount - (k - 1)) None /\
    trace w2 = trace w ++ new /\
    announced new = pool_addresses (frames_ (self w2)) /\
    Forall (fun ev => is_revoke ev = false) new.
Proof.
  unfold is_streaming. intros Hidle Hlive Hpay Hk Hprefix Hfail.
  pose proof Hprefix as Hloop.
  apply create_frames_run in Hloop;
    [| cbn [pool_ready self frames_]; rewrite length_replicate; lia].
  destruct Hloop as (fs & Hs & Hf & (Hexp & new & Htr & Hrev & Hann) & Hlen).
  cbn [pool_ready self streaming_ frames_ expired trace take app Nat.add]
    in Hs, Hf, Hexp, Htr.
  rewrite drop_replicate in Hf.
  pose proof (Frame_create_run _ _ _ _ _ _ Hfail)
    as (Hself & Hexp' & new' & Htr' & Hrev' & Hann').
  split; [| split].
  - unfold start_streaming, frames_reset. run.
    destruct w as [[s fr] gone tr next].
    cbn [self streaming_ frames_ expired trace fresh] in *. subst s gone.
    cbn [negb]. run.
    destruct (Z.ltb_spec bufferCount 0) as [Hneg | _]; [lia |].
    run. cbn [self streaming_ frames_ expired trace fresh].
    rewrite Hpay. cbn [fst snd is_success negb].
    replace (Z.to_nat bufferCount)
      with ((k - 1) + S (Z.to_nat bufferCount - k))%nat at 1 by lia.
    rewrite create_frames_split.
    unfold pool_ready in Hprefix.
    cbn [self streaming_ frames_ expired trace fresh] in Hprefix.
    rewrite Hprefix. cbn [Nat.add create_frames]. run.
    rewrite Hexp. rewrite Hfail. reflexivity.
  - rewrite Hself, Hs. exact Hidle.
  - exists fs, (EvPayloadSizeGet VmbErrorSuccess p :: new ++ new').
    split; [exact Hlen |].
    assert (Hpool : frames_ (self w2)
                    = (Some <$> fs)
                        ++ replicate (Z.to_nat bufferCount - (k - 1)) None)
      by (rewrite Hself, Hf, Hlen; reflexivity).
    split; [exact Hpool |]. split; [| split].
    + rewrite Htr', Htr. rewrite <- !app_assoc. reflexivity.
    + rewrite Hpool, pool_addresses_filled.
      cbn [announced]. rewrite announced_app, Hann, Hann', app_nil_r.
      reflexivity.
    + constructor; [reflexivity |]. apply Forall_app. split; assumption.
Qed.

Lemma start_streaming_announce_failure_witness :
  exists w2 : World,
    start_streaming (scripted_api (refusing_announce 1 mono8_2x2)) 1 3
      (Some 7%nat) true idle_world
    = Returns (Err (VmbErrorCode (-12))) w2 /\
    is_streaming w2 = false /\
    exists (fs : list Frame) (new : Trace),
      length fs = (2 - 1)%nat /\
      frames_ (self w2) = (Some <$> fs) ++ replicate (Z.to_nat 3 - (2 - 1)) None /\
      trace w2 = trace idle_world ++ new /\
      announced new = pool_addresses (frames_ (self w2)) /\
      Forall (fun ev => is_revoke ev = false) new.
Proof.
  eexists.
  eapply (start_streaming_announce_failure
            (scripted_api (refusing_announce 1 mono8_2x2)) 1 3 (Some 7%nat)
            true idle_world _ _ 4 2 (VmbErrorCode (-12))).
  - reflexivity.
  - reflexivity.
  - reflexivity.
  - cbn. lia.
  - vm_compute. reflexivity.
  - vm_compute. reflexivity.
Defined.

(** * Further properties of the code *)

(** ** Event topic names *)

Lemma string_app_assoc (a b c : string) : (a +:+ b) +:+ c = a +:+ (b +:+ c).
Proof.
  induction a as [| x a IH]; [reflexivity |].
  change ((String x a +:+ b) +:+ c) with (String x ((a +:+ b) +:+ c)).
  change (String x a +:+ (b +:+ c)) with (String x (a +:+ (b +:+ c))).
  rewrite IH. reflexivity.
Qed.

Lemma string_length_app (a b : string) :
  String.length (a +:+ b) = (String.length a + String.length b)%nat.
Proof.
  induction a as [| x a IH]; [reflexivity |].
  change (String x a +:+ b) with (String x (a +:+ b)).
  cbn [String.length]. rewrite IH. reflexivity.
Qed.

(** Two strings with a common tail of the same length agree on the heads
    and on the tails. *)
Lemma string_app_inj_tail (a b s t : string) :
  String.length s = String.length t ->
  a +:+ s = b +:+ t -> a = b /\ s = t.
Proof.
  revert b. induction a as [| x a IH]; intros b Hlen Heq.
  - destruct b as [| y b]; [split; [reflexivity | exact Heq] |].
    change ("" +:+ s) with s in Heq. subst s.
    rewrite string_length_app in Hlen. cbn [String.length] in Hlen. lia.
  - destruct b as [| y b].
    + change ("" +:+ t) with t in Heq. subst t.
      rewrite string_length_app in Hlen. cbn [String.length] in Hlen. lia.
    + change (String x a +:+ s) with (String x (a +:+ s)) in Heq.
      change (String y b +:+ t) with (String y (b +:+ t)) in Heq.
      injection Heq as -> Heq.
      destruct (IH b Hlen Heq) as [-> ->]. split; reflexivity.
Qed.

(** X1: a topic name determines what it was built from: for one base topic
    the event topic determines the event name, and a subscribe or an
    unsubscribe topic determines its base topic. *)
Theorem topic_names_injective :
  (forall base e1 e2 : string,
     event_topic_name base e1 = event_topic_name base e2 -> e1 = e2) /\
  (forall b1 b2 : string,
     subscribe_topic_name b1 = subscribe_topic_name b2 -> b1 = b2) /\
  (forall b1 b2 : string,
     unsubscribe_topic_name b1 = unsubscribe_topic_name b2 -> b1 = b2).
Proof.
  unfold event_topic_name, subscribe_topic_name, unsubscribe_topic_name.
  split; [| split].
  - intros base e1 e2 H. apply (String.app_inj _ _ _ H).
  - intros b1 b2 H. apply (string_app_inj_tail _ _ _ _ eq_refl H).
  - intros b1 b2 H. apply (string_app_inj_tail _ _ _ _ eq_refl H).
Qed.

Lemma topic_names_injective_witness :
  "exposure" = "exposure" /\ "/cam" = "/cam".
Proof.
  destruct topic_names_injective as (Hevent & Hsub & _). split.
  - apply (Hevent "/cam" "exposure" "exposure"). reflexivity.
  - apply (Hsub "/cam" "/cam"). reflexivity.
Defined.

(** X2: the control topics never collide: a subscribe topic is never an
    unsubscribe topic, whatever the two base topics are, and for one base
    topic an event topic is neither of them, whatever the event name. *)
Theorem topic_names_disjoint :
  (forall b1 b2 : string,
     subscribe_topic_name b1 <> unsubscribe_topic_name b2) /\
  (forall base e : string,
     event_topic_name base e <> subscribe_topic_name base /\
     event_topic_name base e <> unsubscribe_topic_name base).
Proof.
  unfold event_topic_name, subscribe_topic_name, unsubscribe_topic_name.
  split.
  - intros b1 b2 H.
    change "/_event_unsubscribe" with ("/_" +:+ "event_unsubscribe") in H.
    rewrite <- string_app_assoc in H.
    apply string_app_inj_tail in H; [| reflexivity].
    destruct H as [_ H]. discriminate H.
  - intros base e. rewrite string_app_assoc.
    split; intros H; apply String.app_inj in H; discriminate H.
Qed.

Lemma topic_names_disjoint_witness :
  subscribe_topic_name "/cam" <> unsubscribe_topic_name "/cam" /\
  event_topic_name "/cam" "_subscribe" <> subscribe_topic_name "/cam".
Proof.
  destruct topic_names_disjoint as [Hcontrol Hevent]. split.
  - apply (Hcontrol "/cam" "/cam").
  - apply (Hevent "/cam" "_subscribe").
Defined.

(** ** The command protocol *)

(** A poll that returns has seen the command done: counting the answer the
    poll started from, the answers were [n] times "not done", each followed
    by a sleep, and then "done". *)
Lemma poll_command_done_trace (api : VmbCAPI) (fuel : nat) (name : FeatureName) :
  forall (done : bool) (w w' : World) (r : result unit),
    poll_command_done api fuel name done w = Returns r w' ->
    exists (n : nat) (rest : Trace),
      (n <= fuel)%nat /\
      w' = with_events w rest /\
      EvFeatureCommandIsDone name done :: rest
      = pending_polls name n ++ [EvFeatureCommandIsDone name true].
Proof.
  induction fuel as [| fuel IH]; intros done w w' r H.
  - destruct done; cbn in H; [| discriminate].
    injection H as <- <-. exists O, []. split; [lia |]. split; [| reflexivity].
    destruct w. unfold with_events. cbn. rewrite app_nil_r. reflexivity.
  - destruct done; cbn [poll_command_done] in H.
    + injection H as <- <-. exists O, []. split; [lia |]. split; [| reflexivity].
      destruct w. unfold with_events. cbn. rewrite app_nil_r. reflexivity.
    + destruct w as [c gone tr next]. run_in H.
      cbn [self expired trace fresh] in H.
      apply IH in H. destruct H as (n & rest & Hn & -> & Hrest).
      exists (S n). eexists. split; [lia |]. split.
      * unfold with_events. cbn [self expired trace fresh].
        rewrite <- !app_assoc. cbn [app]. reflexivity.
      * cbn [pending_polls app]. do 2 f_equal. exact Hrest.
Qed.

(** X3: [feature_command_run] returns an error only when the device
    refused the command, and then it has asked nothing else; it returns
    success only after the device reported the command done, having slept
    once after each negative answer.  Either way the camera object is left
    alone. *)
Theorem feature_command_run_returns (api : VmbCAPI) (fuel : nat)
    (name : FeatureName) (w w' : World) (r : result unit) :
  feature_command_run api fuel name w = Returns r w' ->
  match r with
  | Err e =>
      e <> VmbErrorSuccess /\
      FeatureCommandRun api (trace w) name = e /\
      w' = with_events w [EvFeatureCommandRun name e]
  | Ok _ =>
      exists n : nat,
        (n <= fuel)%nat /\
        w' = with_events w
               (EvFeatureCommandRun name VmbErrorSuccess
                  :: pending_polls name n ++ [EvFeatureCommandIsDone name true])
  end.
Proof.
  intros H. destruct w as [c gone tr next].
  unfold feature_command_run in H. run_in H.
  cbn [self expired trace fresh] in *. revert H.
  destruct (FeatureCommandRun api tr name) eqn:Hrun;
    cbn [is_success negb]; intros H.
  - destruct (poll_command_done_run _ _ _ _ _ _ _ H) as (-> & _ & _).
    apply poll_command_done_trace in H.
    destruct H as (n & rest & Hn & -> & Hrest).
    exists n. split; [exact Hn |].
    unfold with_events. cbn [self expired trace fresh] in *.
    rewrite <- !app_assoc. cbn [app]. rewrite <- Hrest. reflexivity.
  - injection H as <- <-. repeat split; discriminate || reflexivity.
  - injection H as <- <-. repeat split; discriminate || reflexivity.
  - injection H as <- <-. repeat split; discriminate || reflexivity.
  - injection H as <- <-. repeat split; discriminate || reflexivity.
Qed.

Lemma feature_command_run_returns_witness :
  exists n : nat,
    (n <= 5)%nat /\
    feature_command_run (done_after 2 (scripted_api mono8_2x2)) 5
      AcquisitionStart idle_world
    = Returns (Ok tt)
        (with_events idle_world
           (EvFeatureCommandRun AcquisitionStart VmbErrorSuccess
              :: pending_polls AcquisitionStart n
              ++ [EvFeatureCommandIsDone AcquisitionStart true])).
Proof.
  pose proof (feature_command_run_returns
                (done_after 2 (scripted_api mono8_2x2)) 5 AcquisitionStart
                idle_world _ (Ok tt) ltac:(vm_compute; reflexivity))
    as (n & Hn & Hw).
  exists n. split; [exact Hn |]. rewrite <- Hw. vm_compute. reflexivity.
Defined.

Lemma sleeps_app (a b : Trace) : sleeps (a ++ b) = (sleeps a + sleeps b)%nat.
Proof.
  induction a as [| e a IH]; [reflexivity |].
  destruct e; cbn [app sleeps]; rewrite IH; reflexivity.
Qed.

Lemma poll_command_done_never (api : VmbCAPI) (name : FeatureName) :
  (forall t, FeatureCommandIsDone api t name = false) ->
  forall (fuel : nat) (w : World),
    poll_command_done api fuel name false w = Aborts poll_pending.
Proof.
  intros Hnever. induction fuel as [| fuel IH]; intros w; [reflexivity |].
  cbn [poll_command_done]. run. rewrite Hnever. apply IH.
Qed.

(** X4: the poll of [feature_command_run] has no bound: when the device
    accepts the command and never reports it done, the call does not
    return, however many rounds it is given. *)
Theorem feature_command_run_hangs (api : VmbCAPI) (name : FeatureName)
    (w : World) :
  FeatureCommandRun api (trace w) name = VmbErrorSuccess ->
  (forall t, FeatureCommandIsDone api t name = false) ->
  forall fuel : nat,
    feature_command_run api fuel name w = Aborts poll_pending.
Proof.
  intros Hrun Hnever fuel. unfold feature_command_run. run.
  rewrite Hrun. cbn [is_success negb]. rewrite Hnever.
  apply poll_command_done_never. exact Hnever.
Qed.

Lemma feature_command_run_hangs_witness :
  feature_command_run (never_done (scripted_api mono8_2x2)) 1000
    AcquisitionStop idle_world
  = Aborts poll_pending.
Proof.
  apply (feature_command_run_hangs (never_done (scripted_api mono8_2x2))
           AcquisitionStop idle_world).
  - reflexivity.
  - intros t. reflexivity.
Defined.

Lemma poll_command_done_finishes (api : VmbCAPI) (name : FeatureName) (n : nat) :
  (forall t, (n <= sleeps t)%nat -> FeatureCommandIsDone api t name = true) ->
  forall (fuel : nat) (done : bool) (w : World),
    (done = false -> (sleeps (trace w) < n)%nat) ->
    (n - sleeps (trace w) <= fuel)%nat ->
    exists w', poll_command_done api fuel name done w = Returns (Ok tt) w'.
Proof.
  intros Hdone. induction fuel as [| fuel IH]; intros done w Hpending Hfuel.
  - destruct done; [eexists; reflexivity |].
    specialize (Hpending eq_refl). lia.
  - destruct done; [eexists; reflexivity |].
    specialize (Hpending eq_refl).
    cbn [poll_command_done]. run. apply IH.
    + cbn [trace]. intros Hfalse.
      rewrite !sleeps_app. cbn [sleeps].
      destruct (Nat.le_gt_cases n (sleeps (trace w ++ [EvSleep100ms])))
        as [Hle | Hgt].
      * rewrite (Hdone _ Hle) in Hfalse. discriminate.
      * rewrite sleeps_app in Hgt. cbn [sleeps] in Hgt. lia.
    + cbn [trace]. rewrite !sleeps_app. cbn [sleeps]. lia.
Qed.

(** X5: when the device reports a command done at the latest once [n]
    sleeps have passed, [feature_command_run] returns, having needed no more
    rounds than the sleeps still missing. *)
Theorem feature_command_run_finishes (api : VmbCAPI) (name : FeatureName)
    (n fuel : nat) (w : World) :
  (forall t, (n <= sleeps t)%nat -> FeatureCommandIsDone api t name = true) ->
  (n - sleeps (trace w) <= fuel)%nat ->
  exists (r : result unit) (w' : World),
    feature_command_run api fuel name w = Returns r w'.
Proof.
  intros Hdone Hfuel. unfold feature_command_run. run.
  destruct (is_success (FeatureCommandRun api (trace w) name));
    cbn [negb]; [| eauto].
  destruct (poll_command_done_finishes api name n Hdone fuel
              (FeatureCommandIsDone api
                 (trace w ++ [EvFeatureCommandRun name
                                (FeatureCommandRun api (trace w) name)]) name)
              {| self := self w; expired := expired w;
                 trace := (trace w ++ [EvFeatureCommandRun name
                                (FeatureCommandRun api (trace w) name)])
                          ++ [EvFeatureCommandIsDone name
                                (FeatureCommandIsDone api
                                   (trace w ++ [EvFeatureCommandRun name
                                      (FeatureCommandRun api (trace w) name)])
                                   name)];
                 fresh := fresh w |}) as [w' Hw'].
  - cbn [trace]. intros Hfalse. rewrite !sleeps_app. cbn [sleeps].
    destruct (Nat.le_gt_cases n
                (sleeps (trace w ++ [EvFeatureCommandRun name
                           (FeatureCommandRun api (trace w) name)])))
      as [Hle | Hgt].
    + rewrite (Hdone _ Hle) in Hfalse. discriminate.
    + rewrite sleeps_app in Hgt. cbn [sleeps] in Hgt. lia.
  - cbn [trace]. rewrite !sleeps_app. cbn [sleeps]. lia.
  - eauto.
Qed.

Lemma feature_command_run_finishes_witness :
  exists (r : result unit) (w' : World),
    feature_command_run (done_after 3 (scripted_api mono8_2x2)) 3
      AcquisitionStart idle_world
    = Returns r w'.
Proof.
  apply (feature_command_run_finishes (done_after 3 (scripted_api mono8_2x2))
           AcquisitionStart 3 3 idle_world).
  - intros t Ht. apply Nat.leb_le. exact Ht.
  - cbn. lia.
Defined.

(** ** Timestamps, continued *)

(** X6: [timestamp_to_ns] never fails on a query it cannot make: when the
    camera object is gone it returns the ticks unchanged without calling the
    API, and when the frequency query is refused it returns the ticks
    unchanged after that one call. *)
Theorem timestamp_to_ns_degrades (api : VmbCAPI) (w : World) (t : Z) :
  (expired w = true -> timestamp_to_ns api t w = Returns t w) /\
  (expired w = false ->
   forall (e : VmbError_t) (v : Z),
     FeatureIntGet api (trace w) localDeviceHandle DeviceTimestampFrequency
     = (e, v) ->
     e <> VmbErrorSuccess ->
     timestamp_to_ns api t w
     = Returns t (with_events w [EvFeatureIntGet localDeviceHandle
                                   DeviceTimestampFrequency e v])).
Proof.
  destruct w as [c gone tr next]. cbn [expired trace].
  unfold timestamp_to_ns. run. cbn [expired trace self fresh].
  split; intros ->; cbn [negb]; [reflexivity |].
  intros e v Hq He. run. cbn [expired trace self fresh].
  rewrite Hq. cbn [fst snd].
  destruct e; [contradiction | reflexivity ..].
Qed.

Lemma timestamp_to_ns_degrades_witness :
  timestamp_to_ns (scripted_api mono8_2x2) 1234 orphan_world
  = Returns 1234 orphan_world.
Proof.
  apply (timestamp_to_ns_degrades (scripted_api mono8_2x2) orphan_world 1234).
  reflexivity.
Defined.

(** X7: the conversion divides the frequency by 10^9, or 10^9 by the
    frequency, in integers; so for every frequency strictly between
    5 * 10^8 and 2 * 10^9 ticks per second the quotient is 1 and the ticks
    come back unchanged. *)
Theorem timestamp_to_ns_identity_band (api : VmbCAPI) (w : World) (t f : Z) :
  expired w = false ->
  FeatureIntGet api (trace w) localDeviceHandle DeviceTimestampFrequency
  = (VmbErrorSuccess, f) ->
  0 <= t < 2 ^ 64 ->
  500000000 < f < 2000000000 ->
  timestamp_to_ns api t w
  = Returns t (with_events w [EvFeatureIntGet localDeviceHandle
                                DeviceTimestampFrequency VmbErrorSuccess f]).
Proof.
  intros Hlive Hq Ht Hf.
  rewrite (timestamp_to_ns_queried api w t f Hlive Hq) by lia.
  cbv zeta. unfold nano_den, sdiv64, udiv64. run.
  destruct (1000000000 <? f) eqn:Hcmp.
  - apply Z.ltb_lt in Hcmp. cbn [Z.eqb].
    assert (Hone : f ÷ 1000000000 = 1).
    { rewrite Z.quot_div_nonneg by lia.
      symmetry. apply (Z.div_unique_pos f 1000000000 1 (f - 1000000000)); lia. }
    rewrite Hone. change (uint64_t (int64_t 1)) with 1. cbn [Z.eqb].
    rewrite Z.div_1_r. reflexivity.
  - apply Z.ltb_ge in Hcmp.
    destruct (f =? 0) eqn:Hz; [apply Z.eqb_eq in Hz; lia |].
    assert (Hone : 1000000000 ÷ f = 1).
    { rewrite Z.quot_div_nonneg by lia.
      symmetry. apply (Z.div_unique_pos 1000000000 f 1 (1000000000 - f)); lia. }
    rewrite Hone. change (uint64_t (int64_t 1)) with 1.
    rewrite Z.mul_1_r, uint64_t_small by lia. reflexivity.
Qed.

Lemma timestamp_to_ns_identity_band_witness :
  timestamp_to_ns (scripted_api (with_frequency 1500000000 mono8_2x2)) 3000
    idle_world
  = Returns 3000
      (with_events idle_world
         [EvFeatureIntGet localDeviceHandle DeviceTimestampFrequency
            VmbErrorSuccess 1500000000]).
Proof.
  apply (timestamp_to_ns_identity_band
           (scripted_api (with_frequency 1500000000 mono8_2x2)) idle_world
           3000 1500000000).
  - reflexivity.
  - reflexivity.
  - lia.
  - lia.
Defined.

(** X8: the conversion keeps the order of timestamps.  With a positive
    frequency, later ticks never give an earlier time: above 10^9 ticks per
    second the result does not decrease (and is at most the ticks); at or
    below, it increases strictly as long as the product fits 64 bits. *)
Theorem timestamp_to_ns_monotone (api : VmbCAPI) (w w1 w2 : World)
    (t1 t2 f ns1 ns2 : Z) :
  expired w = false ->
  FeatureIntGet api (trace w) localDeviceHandle DeviceTimestampFrequency
  = (VmbErrorSuccess, f) ->
  0 < f < 2 ^ 63 ->
  0 <= t1 < t2 ->
  t2 < 2 ^ 64 ->
  timestamp_to_ns api t1 w = Returns ns1 w1 ->
  timestamp_to_ns api t2 w = Returns ns2 w2 ->
  (nano_den < f -> ns1 <= ns2 <= t2) /\
  (f <= nano_den -> t2 * (nano_den / f) < 2 ^ 64 -> ns1 < ns2).
Proof.
  intros Hlive Hq Hf Ht Ht2 H1 H2.
  rewrite (timestamp_to_ns_queried api w t1 f Hlive Hq) in H1 by lia.
  rewrite (timestamp_to_ns_queried api w t2 f Hlive Hq) in H2 by lia.
  cbv zeta in H1, H2. unfold nano_den, sdiv64, udiv64 in *.
  run_in H1. run_in H2.
  destruct (1000000000 <? f) eqn:Hcmp.
  - apply Z.ltb_lt in Hcmp. cbn [Z.eqb] in H1, H2.
    assert (Hquot : f ÷ 1000000000 = f / 1000000000)
      by (apply Z.quot_div_nonneg; lia).
    assert (Hq1 : 1 <= f / 1000000000)
      by (apply Z.div_le_lower_bound; lia).
    assert (Hq2 : f / 1000000000 <= f)
      by (apply Z.div_le_upper_bound; lia).
    rewrite Hquot, int64_t_small, uint64_t_small in H1, H2 by lia.
    destruct (f / 1000000000 =? 0) eqn:Hz; [apply Z.eqb_eq in Hz; lia |].
    injection H1 as <- _. injection H2 as <- _.
    split; [intros _ | lia]. split.
    + apply Z.div_le_mono; lia.
    + apply Z.div_le_upper_bound; nia.
  - apply Z.ltb_ge in Hcmp.
    destruct (f =? 0) eqn:Hz; [apply Z.eqb_eq in Hz; lia |].
    injection H1 as <- _. injection H2 as <- _.
    split; [lia |]. intros _ Hfit.
    assert (Hquot : 1000000000 ÷ f = 1000000000 / f)
      by (apply Z.quot_div_nonneg; lia).
    assert (Hq1 : 1 <= 1000000000 / f)
      by (apply Z.div_le_lower_bound; lia).
    assert (Hq2 : 1000000000 / f <= 1000000000)
      by (apply Z.div_le_upper_bound; nia).
    rewrite Hquot, int64_t_small, (uint64_t_small (1000000000 / f)) by lia.
    rewrite !uint64_t_small by nia. nia.
Qed.

Lemma timestamp_to_ns_monotone_witness :
  exists (ns1 ns2 : Z) (w1 w2 : World),
    timestamp_to_ns (scripted_api (with_frequency 500000000 mono8_2x2)) 1000
      idle_world = Returns ns1 w1 /\
    timestamp_to_ns (scripted_api (with_frequency 500000000 mono8_2x2)) 2000
      idle_world = Returns ns2 w2 /\
    ns1 < ns2.
Proof.
  do 4 eexists.
  split; [vm_compute; reflexivity |]. split; [vm_compute; reflexivity |].
  eapply (timestamp_to_ns_monotone
            (scripted_api (with_frequency 500000000 mono8_2x2))
            idle_world _ _ 1000 2000 500000000).
  - reflexivity.
  - reflexivity.
  - lia.
  - lia.
  - lia.
  - vm_compute. reflexivity.
  - vm_compute. reflexivity.
  - unfold nano_den. lia.
  - vm_compute. reflexivity.
Defined.

(** ** Normalising a completed frame *)

Lemma left_shift16_length (out src out' : list Z) (size : nat) (shift : Z) :
  left_shift16 out src size shift = Some out' -> length out' = length out.
Proof.
  unfold left_shift16.
  destruct (length src <? size)%nat eqn:H1; [discriminate |].
  destruct (length out <? size)%nat eqn:H2; [discriminate |].
  apply Nat.ltb_ge in H1, H2. cbn [orb]. intros H. injection H as <-.
  rewrite length_app, length_drop, length_bytes16, length_map, length_words16.
  rewrite length_take_le by lia.
  generalize (Nat.div2_odd size). destruct (Nat.odd size); cbn [Nat.b2n]; lia.
Qed.

Lemma memcpy_length (dst src dst' : list Z) (n : nat) :
  memcpy dst src n = Some dst' -> length dst' = length dst.
Proof.
  unfold memcpy.
  destruct (length src <? n)%nat eqn:H1; [discriminate |].
  destruct (length dst <? n)%nat eqn:H2; [discriminate |].
  apply Nat.ltb_ge in H1, H2. cbn [orb]. intros H. injection H as <-.
  rewrite length_app, length_drop, length_take_le by lia. lia.
Qed.

Lemma store_data_run (f f' : Frame) (d : option (list Z)) (w w' : World) :
  store_data f d w = Returns f' w' ->
  exists d', d = Some d' /\ f' = set_data d' f /\ w' = w.
Proof.
  destruct d as [d' |]; cbn; [| discriminate].
  intros H. injection H as <- <-. eauto.
Qed.

(** [transform] only writes the bytes of [data], and as many as there
    were. *)
Lemma transform_run (f f' : Frame) (w w' : World) :
  transform f w = Returns f' w' ->
  w' = w /\ f' = set_data (data f') f /\ length (data f') = length (data f).
Proof.
  unfold transform. cbv zeta. intros H.
  destruct (pixelFormat (vmb_frame_ f)), (allocation_mode_ f) eqn:Hmode;
    try (apply store_data_run in H; destruct H as (d & Hd & -> & ->);
         split; [reflexivity |]; split; [reflexivity |]; cbn [set_data data];
         first [ exact (left_shift16_length _ _ _ _ _ Hd)
               | exact (memcpy_length _ _ _ _ Hd) ]);
    try (injection H as <- <-; split; [reflexivity |]; split; [| reflexivity];
         destruct f; reflexivity).
Qed.

(** X9: for every pixel format and allocation mode, [transform] touches
    nothing but the bytes of [data] and keeps their number; it returns
    whenever the image memory is at least as long as the buffer. *)
Theorem transform_keeps_frame (f : Frame) (w : World) :
  (forall (f' : Frame) (w' : World),
     transform f w = Returns f' w' ->
     w' = w /\ f' = set_data (data f') f /\
     length (data f') = length (data f)) /\
  ((length (data f) <= length (imageData (vmb_frame_ f)))%nat ->
   exists f', transform f w = Returns f' w).
Proof.
  split; [intros f' w'; apply transform_run |].
  intros Hlen. unfold transform. cbv zeta.
  assert (Hshift : forall k, exists d,
            left_shift16 (data f) (imageData (vmb_frame_ f))
              (length (data f)) k = Some d).
  { intros k. destruct (left_shift16_samples _ _ k Hlen) as (d & Hd & _).
    eauto. }
  destruct (Hshift 6) as [d6 H6], (Hshift 4) as [d4 H4], (Hshift 2) as [d2 H2].
  rewrite H6, H4, H2, (memcpy_whole _ _ Hlen).
  destruct (pixelFormat (vmb_frame_ f)), (allocation_mode_ f);
    cbn [store_data]; eexists; reflexivity.
Qed.

Lemma transform_keeps_frame_witness :
  exists f', transform mono8_tl_frame idle_world = Returns f' idle_world.
Proof.
  apply (transform_keeps_frame mono8_tl_frame idle_world).
  cbn. lia.
Defined.

(** What [timestamp_to_ns] leaves on the trace: at most the one frequency
    query. *)
Lemma timestamp_to_ns_run (api : VmbCAPI) (t ns : Z) (w w' : World) :
  timestamp_to_ns api t w = Returns ns w' ->
  w' = w \/
  exists (e : VmbError_t) (v : Z),
    w' = with_events w [EvFeatureIntGet localDeviceHandle
                          DeviceTimestampFrequency e v].
Proof.
  intros H. destruct w as [c gone tr next].
  unfold timestamp_to_ns, sdiv64, udiv64 in H.
  case_run H.
  all: injection H as <- <-; eauto.
Qed.

(** [on_frame_ready] taken apart: the timestamp it read, the bytes the
    transform left, the frame it built, and the delivery. *)
Lemma on_frame_ready_run (api : VmbCAPI) (f f' : Frame) (w w' : World) :
  on_frame_ready api f w = Returns f' w' ->
  exists (ns : Z) (w1 : World) (d : list Z),
    timestamp_to_ns api (timestamp (vmb_frame_ f)) w = Returns ns w1 /\
    length d = length (data f) /\
    f' = {| header_frame_id := pretty (Z.to_N (frameID (vmb_frame_ f)));
            header_stamp_sec := int32_t (int64_t ns / nano_den);
            header_stamp_nanosec :=
              uint32_t (int64_t ns - int64_t ns / nano_den * nano_den);
            height := vmb_height (vmb_frame_ f);
            width := vmb_width (vmb_frame_ f);
            encoding := get_image_encoding f; is_bigendian := false;
            step := step f; data := d; vmb_frame_ := vmb_frame_ f;
            allocation_mode_ := allocation_mode_ f;
            callback_ := callback_ f |} /\
    w' = match callback_ f with
         | Some cb => with_events w1 [EvCallback cb f']
         | None => w1
         end.
Proof.
  intros H. unfold on_frame_ready in H. run_in H.
  destruct (timestamp_to_ns api (timestamp (vmb_frame_ f)) w)
    as [ns w1 | why] eqn:Hts; [| discriminate].
  match type of H with
  | context [transform ?g w1] =>
      destruct (transform g w1) as [f2 w2 | why] eqn:Htr; [| discriminate];
      apply transform_run in Htr; destruct Htr as (-> & Hf2 & Hlen)
  end.
  cbn [data set_data] in Hlen.
  exists ns, w1, (data f2). split; [reflexivity |]. split; [exact Hlen |].
  rewrite Hf2 in H |- *. cbn [set_data callback_ data header_frame_id
    header_stamp_sec header_stamp_nanosec height width encoding is_bigendian
    step vmb_frame_ allocation_mode_] in H |- *.
  destruct (callback_ f) as [cb |]; injection H as <- <-;
    split; reflexivity.
Qed.

(** X10: the stamp that [on_frame_ready] writes is a proper
    (seconds, nanoseconds) pair: the nanoseconds lie in [[0, 10^9)] and the
    seconds fit the signed 32-bit field; and whenever the converted
    timestamp is below [2^31 * 10^9] nanoseconds, seconds and nanoseconds
    together give the converted timestamp back. *)
Theorem on_frame_ready_stamp (api : VmbCAPI) (f f' : Frame) (w w' : World) :
  on_frame_ready api f w = Returns f' w' ->
  0 <= header_stamp_nanosec f' < nano_den /\
  - 2 ^ 31 <= header_stamp_sec f' < 2 ^ 31 /\
  forall (ns : Z) (w1 : World),
    timestamp_to_ns api (timestamp (vmb_frame_ f)) w = Returns ns w1 ->
    0 <= ns < 2 ^ 31 * nano_den ->
    header_stamp_sec f' * nano_den + header_stamp_nanosec f' = ns.
Proof.
  intros H. apply on_frame_ready_run in H.
  destruct H as (ns & w1 & d & Hts & _ & -> & _).
  cbn [header_stamp_nanosec header_stamp_sec]. unfold nano_den in *.
  assert (Hmod : int64_t ns - int64_t ns / 1000000000 * 1000000000
                 = int64_t ns mod 1000000000).
  { rewrite Z.mod_eq by lia. lia. }
  rewrite Hmod.
  pose proof (Z.mod_pos_bound (int64_t ns) 1000000000 ltac:(lia)) as Hrange.
  split; [| split].
  - unfold uint32_t. rewrite Z.mod_small; lia.
  - unfold int32_t.
    pose proof (Z.mod_pos_bound (int64_t ns / 1000000000 + 2 ^ 31) (2 ^ 32)
                  ltac:(lia)). lia.
  - intros ns' w1' Hts' Hns. rewrite Hts in Hts'. injection Hts' as <- <-.
    rewrite (int64_t_small ns) in * by lia.
    assert (Hsec : 0 <= ns / 1000000000 < 2 ^ 31).
    { split; [apply Z.div_pos; lia | apply Z.div_lt_upper_bound; lia]. }
    unfold int32_t, uint32_t.
    rewrite (Z.mod_small (ns / 1000000000 + 2 ^ 31)) by lia.
    rewrite (Z.mod_small (ns mod 1000000000)) by lia.
    rewrite (Z.div_mod ns 1000000000) at 3 by lia. lia.
Qed.

Lemma on_frame_ready_stamp_witness :
  exists (f' : Frame) (w' : World),
    on_frame_ready (scripted_api mono8_2x2) mono8_tl_frame idle_world
    = Returns f' w' /\
    0 <= header_stamp_nanosec f' < nano_den /\
    header_stamp_sec f' * nano_den + header_stamp_nanosec f' = 1000.
Proof.
  do 2 eexists. split; [vm_compute; reflexivity |].
  pose proof (on_frame_ready_stamp (scripted_api mono8_2x2) mono8_tl_frame
                _ idle_world _ ltac:(vm_compute; reflexivity))
    as (Hnano & _ & Hsum).
  split; [exact Hnano |].
  apply (Hsum 1000 _ ltac:(vm_compute; reflexivity)).
  unfold nano_den. lia.
Defined.

(** X11: [on_frame_ready] fills the image message from the completed
    [VmbFrame_t] (geometry, encoding, little-endian flag, the frame id in
    decimal), keeps the row stride, the buffer length and the private
    members, leaves the camera object alone, and hands the finished frame to
    the consumer exactly once, as its last action; without a consumer
    callback nothing is delivered. *)
Theorem on_frame_ready_delivers (api : VmbCAPI) (f f' : Frame) (w w' : World) :
  on_frame_ready api f w = Returns f' w' ->
  (width f' = vmb_width (vmb_frame_ f) /\
   height f' = vmb_height (vmb_frame_ f) /\
   encoding f' = get_image_encoding f /\
   is_bigendian f' = false /\
   header_frame_id f' = pretty (Z.to_N (frameID (vmb_frame_ f)))) /\
  (step f' = step f /\
   length (data f') = length (data f) /\
   vmb_frame_ f' = vmb_frame_ f /\
   allocation_mode_ f' = allocation_mode_ f /\
   callback_ f' = callback_ f) /\
  self w' = self w /\
  exists pre : Trace,
    Forall (fun e => is_consumer_call e = false) pre /\
    trace w' = trace w ++ pre
               ++ match callback_ f with
                  | Some cb => [EvCallback cb f']
                  | None => []
                  end.
Proof.
  intros H. apply on_frame_ready_run in H.
  destruct H as (ns & w1 & d & Hts & Hlen & Hf & ->).
  split; [rewrite Hf; repeat split |].
  split; [rewrite Hf; repeat split; exact Hlen |].
  apply timestamp_to_ns_run in Hts.
  destruct Hts as [-> | (e & v & ->)].
  - split; [destruct (callback_ f); reflexivity |].
    exists []. split; [constructor |].
    destruct (callback_ f); destruct w; cbn; rewrite ?app_nil_r; reflexivity.
  - split; [destruct (callback_ f); reflexivity |].
    exists [EvFeatureIntGet localDeviceHandle DeviceTimestampFrequency e v].
    split; [repeat constructor |].
    destruct (callback_ f); destruct w; cbn; rewrite <- ?app_assoc;
      rewrite ?app_nil_r; reflexivity.
Qed.

Lemma on_frame_ready_delivers_witness :
  exists (f' : Frame) (w' : World),
    on_frame_ready (scripted_api mono8_2x2) mono8_tl_frame idle_world
    = Returns f' w' /\
    encoding f' = "mono8" /\ width f' = 2 /\ header_frame_id f' = "5" /\
    self w' = self idle_world.
Proof.
  do 2 eexists. split; [vm_compute; reflexivity |].
  pose proof (on_frame_ready_delivers (scripted_api mono8_2x2) mono8_tl_frame
                _ idle_world _ ltac:(vm_compute; reflexivity))
    as ((Hw & _ & He & _ & Hid) & _ & Hself & _).
  split; [exact He |]. split; [exact Hw |]. split; [exact Hid | exact Hself].
Defined.

(** ** The start sequence *)

(** An error that is returned is never the success code. *)
Lemma Frame_create_error (api : VmbCAPI) (size alignment : Z) (w w' : World)
    (e : VmbError_t) :
  Frame_create api size alignment w = Returns (Err e) w' ->
  e <> VmbErrorSuccess.
Proof.
  intros H. destruct w as [c gone tr next].
  unfold Frame_create, get_pixel_format, feature_info_query, feature_enum_get,
    feature_enum_as_int, feature_int_get, data_resize in H.
  case_run H.
  all: injection H as <- _; discriminate.
Qed.

Lemma create_frames_error (api : VmbCAPI) (size : Z) (cb : Callback) (n : nat) :
  forall (i : nat) (w w' : World) (e : VmbError_t),
    create_frames api size cb i n w = Returns (Err e) w' ->
    e <> VmbErrorSuccess.
Proof.
  induction n as [| n IH]; intros i w w' e H; [discriminate |].
  cbn [create_frames] in H. run_in H.
  destruct (expired w); [discriminate |].
  destruct (Frame_create api size 128 w) as [[f | e'] w1 | why] eqn:Hc;
    [| | discriminate].
  - apply IH in H. exact H.
  - injection H as <- _. apply (Frame_create_error _ _ _ _ _ _ Hc).
Qed.

Lemma Frame_queue_error (api : VmbCAPI) (f : Frame) (w w' : World)
    (e : VmbError_t) :
  Frame_queue api f w = Returns e w' ->
  expired w = true -> e = VmbErrorUnknown.
Proof.
  intros H Hgone. destruct w as [c gone tr next]. cbn [expired] in Hgone.
  subst gone. cbn in H. injection H as <- _. reflexivity.
Qed.

Lemma queue_frames_error (api : VmbCAPI) (frames : list (option Frame)) :
  forall (w w' : World) (e : VmbError_t),
    queue_frames api frames w = Returns (Err e) w' -> e <> VmbErrorSuccess.
Proof.
  induction frames as [| [f |] frames IH]; intros w w' e H;
    cbn [queue_frames] in H; [discriminate | | discriminate].
  run_in H. destruct (Frame_queue api f w) as [q w1 | why]; [| discriminate].
  destruct q; cbn [is_success negb] in H;
    try (injection H as <- _; discriminate).
  apply IH in H. exact H.
Qed.

Lemma feature_command_run_error (api : VmbCAPI) (fuel : nat)
    (name : FeatureName) (w w' : World) (e : VmbError_t) :
  feature_command_run api fuel name w = Returns (Err e) w' ->
  e <> VmbErrorSuccess.
Proof.
  intros H. unfold feature_command_run in H. run_in H. revert H.
  destruct (FeatureCommandRun api (trace w) name);
    cbn [is_success negb]; intros H;
    try (injection H as <- _; discriminate).
  apply poll_command_done_run in H. destruct H as [H _]. discriminate H.
Qed.

(** Use what is known about the sub-runs of a start or a stop. *)
Ltac use_runs :=
  repeat match goal with
    | Hc : create_frames _ _ _ _ _ _ = Returns (Err _) _ |- _ =>
        pose proof (create_frames_error _ _ _ _ _ _ _ _ Hc);
        apply create_frames_run in Hc;
        [ destruct Hc as (? & ? & ? & ? & ?)
        | cbn [self frames_]; rewrite length_replicate; lia ]
    | Hc : create_frames _ _ _ _ _ _ = Returns (Ok _) _ |- _ =>
        apply create_frames_run in Hc;
        [ destruct Hc as (? & ? & ? & ? & ?)
        | cbn [self frames_]; rewrite length_replicate; lia ]
    | Hq : queue_frames _ _ _ = Returns (Err _) _ |- _ =>
        pose proof (queue_frames_error _ _ _ _ _ Hq);
        apply queue_frames_run in Hq; destruct Hq as [? ?]
    | Hq : queue_frames _ _ _ = Returns (Ok _) _ |- _ =>
        apply queue_frames_run in Hq; destruct Hq as [? ?]
    | Hr : feature_command_run _ _ _ _ = Returns (Err _) _ |- _ =>
        pose proof (feature_command_run_error _ _ _ _ _ _ Hr);
        apply feature_command_run_run in Hr; destruct Hr as [? ?]
    | Hr : feature_command_run _ _ _ _ = Returns (Ok _) _ |- _ =>
        apply feature_command_run_run in Hr; destruct Hr as [? ?]
    end.

(** Open every [grows] in the context, and bring the worlds of the context
    to their fields. *)
Ltac open_grows :=
  repeat match goal with
    | Hg : grows _ _ _ |- _ =>
        let new := fresh "new" in
        destruct Hg as (? & new & ? & ? & ?)
    end;
  cbn [self streaming_ frames_ expired trace fresh] in *.

(** Rewrite the trace, the liveness and the camera object of the last world
    down to those of the first one. *)
Ltac back_to_start :=
  repeat match goal with
    | Ht : trace ?x = _ |- context [trace ?x] => rewrite Ht
    | He : expired ?x = _ |- context [expired ?x] => rewrite He
    | Hs : self ?x = _ |- context [self ?x] => rewrite Hs
    | Hf : frames_ (self ?x) = _ |- context [frames_ (self ?x)] => rewrite Hf
    | Hs : streaming_ (self ?x) = _ |- context [streaming_ (self ?x)] =>
        rewrite Hs
    end;
  cbn [self streaming_ frames_ expired trace fresh take app Nat.add].

Lemma pool_addresses_nulls (n : nat) : pool_addresses (replicate n None) = [].
Proof. apply (pool_addresses_filled [] n). Qed.

(** A start on an idle engine, whatever it returns: the engine streams
    exactly if the start succeeded, an error is never the success code, the
    pool holds the frames created so far followed by null pointers, and
    these frames are exactly the ones announced since, none being
    revoked. *)
Lemma start_streaming_run (api : VmbCAPI) (fuel : nat) (bufferCount : Z)
    (onFrame : Callback) (startAcquisition : bool) (w w' : World)
    (r : result unit) :
  is_streaming w = false ->
  start_streaming api fuel bufferCount onFrame startAcquisition w
  = Returns r w' ->
  is_streaming w' = match r with Ok _ => true | Err _ => false end /\
  match r with Ok _ => True | Err e => e <> VmbErrorSuccess end /\
  (exists fs : list Frame,
     (length fs <= Z.to_nat bufferCount)%nat /\
     (forall u, r = Ok u -> length fs = Z.to_nat bufferCount) /\
     frames_ (self w')
     = (Some <$> fs) ++ replicate (Z.to_nat bufferCount - length fs) None) /\
  grows w w' (pool_addresses (frames_ (self w'))).
Proof.
  unfold is_streaming. intros Hidle H.
  destruct w as [[s fr] gone tr next]. cbn [self streaming_] in Hidle. subst s.
  unfold start_streaming, frames_reset in H.
  run_in H. cbn [self streaming_ frames_ negb] in H.
  case_run H.
  all: use_runs.
  all: injection H as <- <-.
  all: open_grows.
  all: split; [back_to_start; reflexivity |].
  all: split; [first [exact I | assumption | discriminate] |].
  all: split.
  all: try (match goal with
            | x : list Frame |- exists _, _ => exists x
            | |- exists _, _ => exists (@nil Frame)
            end;
            split; [cbn [length]; lia |];
            split; [first [ intros u Hu; discriminate Hu
                          | intros u _; assumption ] |];
            back_to_start; rewrite ?drop_replicate, ?take_0;
            cbn [fmap list_fmap length app]; rewrite ?Nat.sub_0_r;
            reflexivity).
  all: split; [back_to_start; reflexivity |].
  all: eexists; split;
         [back_to_start; rewrite <- ?app_assoc; reflexivity |].
  all: split;
         [ repeat first [ apply Forall_app; split | assumption
                        | constructor; [reflexivity |] | apply Forall_nil ]
         | ].
  all: rewrite ?announced_app; cbn [announced];
         repeat match goal with
           | Ha : announced _ = _ |- _ => rewrite Ha; clear Ha
           end;
         rewrite ?app_nil_r; cbn [app];
         back_to_start; rewrite ?drop_replicate, ?take_0; cbn [app];
         rewrite ?pool_addresses_filled, ?pool_addresses_nulls; reflexivity.
Qed.

(** X12: a start on an idle engine, whatever it returns, keeps three
    things true: the engine streams exactly if the start returned success;
    an error it returns is never the success code; and the pool has
    [bufferCount] slots holding the frames created so far followed by null
    pointers, those frames being exactly the frames announced during the
    call, none of them revoked. *)
Theorem start_streaming_outcome (api : VmbCAPI) (fuel : nat) (bufferCount : Z)
    (onFrame : Callback) (startAcquisition : bool) (w w' : World)
    (r : result unit) :
  is_streaming w = false ->
  start_streaming api fuel bufferCount onFrame startAcquisition w
  = Returns r w' ->
  (is_streaming w' = true <-> r = Ok tt) /\
  (forall e, r = Err e -> e <> VmbErrorSuccess) /\
  length (frames_ (self w')) = Z.to_nat bufferCount /\
  exists new : Trace,
    trace w' = trace w ++ new /\
    Forall (fun ev => is_revoke ev = false) new /\
    announced new = pool_addresses (frames_ (self w')).
Proof.
  intros Hidle H.
  destruct (start_streaming_run _ _ _ _ _ _ _ _ Hidle H)
    as (Hs & He & (fs & Hle & _ & Hpool) & (_ & new & Htr & Hrev & Hann)).
  split; [| split; [| split]].
  - rewrite Hs. destruct r as [[] | e]; split; congruence.
  - intros e ->. exact He.
  - rewrite Hpool, length_app, length_fmap, length_replicate. lia.
  - exists new. auto.
Qed.

Lemma start_streaming_outcome_witness :
  exists w' : World,
    start_streaming (scripted_api (refusing_announce 1 mono8_2x2)) 1 3
      (Some 7%nat) true idle_world
    = Returns (Err (VmbErrorCode (-12))) w' /\
    (is_streaming w' = true <-> Err (VmbErrorCode (-12)) = Ok tt) /\
    length (frames_ (self w')) = Z.to_nat 3.
Proof.
  eexists. split; [vm_compute; reflexivity |].
  pose proof (start_streaming_outcome
                (scripted_api (refusing_announce 1 mono8_2x2)) 1 3
                (Some 7%nat) true idle_world _ _
                ltac:(reflexivity) ltac:(vm_compute; reflexivity))
    as (Hiff & _ & Hlen & _).
  split; [exact Hiff | exact Hlen].
Defined.

(** X13: [bufferCount] is an [int]; a negative one makes [frames_.resize]
    throw [std::length_error] on an idle engine, before the payload size is
    read, whereas on a streaming engine it is never looked at. *)
Theorem start_streaming_negative_count (api : VmbCAPI) (fuel : nat)
    (bufferCount : Z) (onFrame : Callback) (startAcquisition : bool)
    (w : World) :
  bufferCount < 0 ->
  start_streaming api fuel bufferCount onFrame startAcquisition w
  = if is_streaming w then Returns (Ok tt) w else Aborts length_error.
Proof.
  intros Hneg. unfold is_streaming, start_streaming, frames_reset. run.
  destruct (streaming_ (self w)); cbn [negb]; [reflexivity |]. run.
  destruct (Z.ltb_spec bufferCount 0); [reflexivity | lia].
Qed.

Lemma start_streaming_negative_count_witness :
  start_streaming (scripted_api mono8_2x2) 1 (-1) None true idle_world
  = Aborts length_error.
Proof.
  apply (start_streaming_negative_count (scripted_api mono8_2x2) 1 (-1) None
           true idle_world).
  lia.
Defined.

(** The first loop when it succeeds: [n] frames, allocated at consecutive
    addresses, each announced by the last of its own six calls, each
    carrying the callback. *)
Lemma create_frames_ok (api : VmbCAPI) (size : Z) (cb : Callback) (n : nat) :
  forall (i : nat) (w w' : World) (u : unit),
    create_frames api size cb i n w = Returns (Ok u) w' ->
    (i + n <= length (frames_ (self w)))%nat ->
    exists (fs : list Frame) (created : Trace),
      length fs = n /\
      addresses fs = seq (fresh w) n /\
      Forall (fun f => callback_ f = cb) fs /\
      frames_ (self w')
      = take i (frames_ (self w)) ++ (Some <$> fs)
          ++ drop (i + n) (frames_ (self w)) /\
      trace w' = trace w ++ created /\
      fresh w' = (fresh w + n)%nat /\
      expired w' = expired w /\
      Forall (fun e => is_setup_event e = true) created /\
      announced created = addresses fs.
Proof.
  induction n as [| n IH]; intros i w w' u H Hroom.
  - cbn [create_frames] in H. run_in H. injection H; intros; subst w'.
    exists [], [].
    cbn [fmap list_fmap app]. rewrite !Nat.add_0_r, take_drop, app_nil_r.
    repeat split; constructor.
  - cbn [create_frames] in H. run_in H.
    destruct (expired w) eqn:Hlive; [discriminate |].
    destruct (Frame_create api size 128 w) as [[f | e] w1 | why] eqn:Hc;
      [| discriminate | discriminate].
    apply Frame_create_ok in Hc.
    destruct Hc as (str & tag & wd & ht & _ & _ & _ & Haddr & _ & ->).
    apply IH in H; [| cbn [self frames_]; rewrite length_insert; lia].
    destruct H as (fs & created & Hlen & Hseq & Hcb & Hf & Htr & Hfresh
                   & Hexp & Hsetup & Hann).
    cbn [self frames_ trace fresh expired] in Hseq, Hf, Htr, Hfresh, Hexp.
    exists (set_callback cb f :: fs). eexists.
    split; [cbn [length]; lia |]. split; [| split; [| split; [| split]]].
    + unfold addresses in *. cbn [fmap list_fmap seq set_callback vmb_frame_].
      rewrite Haddr. f_equal. exact Hseq.
    + constructor; [reflexivity | exact Hcb].
    + rewrite Hf.
      rewrite (take_S_r _ _ (Some (set_callback cb f)))
        by (apply list_lookup_insert_eq; lia).
      rewrite take_insert_ge by lia.
      rewrite drop_insert_lt by lia.
      cbn [fmap list_fmap]. rewrite <- app_assoc. cbn [app].
      replace (S i + n)%nat with (i + S n)%nat by lia. reflexivity.
    + rewrite Htr, <- app_assoc. reflexivity.
    + split; [lia |]. split; [congruence |]. split.
      * apply Forall_app. split; [repeat constructor | exact Hsetup].
      * rewrite announced_app, Hann. unfold addresses.
        cbn [announced fmap list_fmap app set_callback vmb_frame_].
        rewrite Haddr. reflexivity.
Qed.

(** The second loop when it succeeds: one successful queue call per frame,
    in pool order, and nothing else. *)
Lemma queue_frames_ok (api : VmbCAPI) (fs : list Frame) :
  forall (w w' : World) (u : unit),
    queue_frames api (Some <$> fs) w = Returns (Ok u) w' ->
    w' = with_events w (queue_events fs).
Proof.
  induction fs as [| f fs IH]; intros w w' u H.
  - cbn [fmap list_fmap queue_frames] in H. run_in H.
    injection H; intros; subst w'.
    destruct w. unfold with_events. cbn. rewrite app_nil_r. reflexivity.
  - cbn [fmap list_fmap queue_frames] in H. unfold Frame_queue in H.
    destruct w as [c gone tr next]. run_in H. cbn [expired] in H.
    destruct gone; cbn [negb] in H; [discriminate |].
    run_in H. cbn [self expired trace fresh] in H. revert H.
    destruct (CaptureFrameQueue api tr (vmb_frame_ f));
      cbn [is_success negb]; intros H; try discriminate.
    apply IH in H. rewrite H. unfold with_events, queue_events.
    cbn [self expired trace fresh fmap list_fmap].
    rewrite <- app_assoc. reflexivity.
Qed.

(** The trace of a command that was run to completion. *)
Lemma feature_command_run_done (api : VmbCAPI) (fuel : nat)
    (name : FeatureName) (w w' : World) (u : unit) :
  feature_command_run api fuel name w = Returns (Ok u) w' ->
  exists n : nat,
    w' = with_events w
           (EvFeatureCommandRun name VmbErrorSuccess
              :: pending_polls name n ++ [EvFeatureCommandIsDone name true]).
Proof.
  intros H. destruct w as [c gone tr next].
  unfold feature_command_run in H. run_in H.
  cbn [self expired trace fresh] in *. revert H.
  destruct (FeatureCommandRun api tr name);
    cbn [is_success negb]; intros H; try discriminate.
  apply poll_command_done_trace in H.
  destruct H as (n & rest & _ & -> & Hrest).
  exists n. unfold with_events. cbn [self expired trace fresh] in *.
  rewrite <- !app_assoc. cbn [app]. rewrite <- Hrest. reflexivity.
Qed.

(** A start on an idle engine that succeeds, in full. *)
Lemma start_streaming_success (api : VmbCAPI) (fuel : nat) (bufferCount : Z)
    (onFrame : Callback) (startAcquisition : bool) (w w1 : World) :
  is_streaming w = false ->
  start_streaming api fuel bufferCount onFrame startAcquisition w
  = Returns (Ok tt) w1 ->
  exists (fs : list Frame) (created cmd : Trace) (p : Z),
    frames_ (self w1) = Some <$> fs /\
    length fs = Z.to_nat bufferCount /\
    addresses fs = seq (fresh w) (Z.to_nat bufferCount) /\
    Forall (fun f => callback_ f = onFrame) fs /\
    fresh w1 = (fresh w + Z.to_nat bufferCount)%nat /\
    trace w1 = trace w ++ EvPayloadSizeGet VmbErrorSuccess p :: created
                 ++ EvCaptureStart VmbErrorSuccess :: queue_events fs ++ cmd /\
    Forall (fun e => is_setup_event e = true) created /\
    announced created = addresses fs /\
    (startAcquisition = false -> cmd = []) /\
    (startAcquisition = true ->
     exists n : nat,
       cmd = EvFeatureCommandRun AcquisitionStart VmbErrorSuccess
               :: pending_polls AcquisitionStart n
               ++ [EvFeatureCommandIsDone AcquisitionStart true]).
Proof.
  unfold is_streaming. intros Hidle H.
  destruct w as [[s fr] gone tr next]. cbn [self streaming_] in Hidle. subst s.
  unfold start_streaming, frames_reset in H.
  run_in H. cbn [self streaming_ frames_ negb] in H.
  case_run H.
  all: match goal with
       | Hc : create_frames _ _ _ _ _ _ = _ |- _ =>
           apply create_frames_ok in Hc;
           [ destruct Hc as (fs & created & Hlen & Hseq & Hcb & Hf & Htr
                             & Hfresh & Hexp & Hsetup & Hann)
           | cbn [self frames_]; rewrite length_replicate; lia ]
       end.
  all: cbn [self frames_ trace fresh expired Nat.add] in Hseq, Hf, Htr, Hfresh.
  all: rewrite take_0, drop_replicate, Nat.sub_diag in Hf;
       cbn [replicate app] in Hf; rewrite app_nil_r in Hf.
  all: match goal with
       | Hq : queue_frames _ _ _ = _ |- _ =>
           cbn [self frames_] in Hq; rewrite Hf in Hq;
           apply queue_frames_ok in Hq; subst
       end.
  all: try match goal with
       | Hr : feature_command_run _ _ _ _ = _ |- _ =>
           apply feature_command_run_done in Hr; destruct Hr as (k & ->)
       end.
  all: injection H as <-.
  all: unfold with_events; cbn [self frames_ trace fresh expired].
  - exists fs, created. eexists. exists z.
    repeat (split; [first [exact Hf | exact Hlen | exact Hseq | exact Hcb
                          | exact Hfresh | exact Hsetup | exact Hann] |]).
    split; [rewrite Htr, <- !app_assoc; cbn [app]; reflexivity |].
    split; [exact Hsetup |]. split; [exact Hann |].
    split; [discriminate | intros _; exists k; reflexivity].
  - exists fs, created, [], z.
    repeat (split; [first [exact Hf | exact Hlen | exact Hseq | exact Hcb
                          | exact Hfresh | exact Hsetup | exact Hann] |]).
    split; [rewrite Htr, <- !app_assoc, app_nil_r; cbn [app]; reflexivity |].
    split; [exact Hsetup |]. split; [exact Hann |].
    split; [reflexivity | discriminate].
Qed.

(** X14: a start on an idle engine that succeeds has followed the protocol
    in this order and made no other call: read the payload size; create and
    announce every frame (feature queries and announces only); start the
    capture; queue every frame once, in pool order; and, only if
    acquisition was asked for, run the acquisition-start command until the
    device reported it done. *)
Theorem start_streaming_protocol (api : VmbCAPI) (fuel : nat) (bufferCount : Z)
    (onFrame : Callback) (startAcquisition : bool) (w w1 : World) :
  is_streaming w = false ->
  start_streaming api fuel bufferCount onFrame startAcquisition w
  = Returns (Ok tt) w1 ->
  exists (fs : list Frame) (created cmd : Trace) (p : Z),
    frames_ (self w1) = Some <$> fs /\
    trace w1 = trace w ++ EvPayloadSizeGet VmbErrorSuccess p :: created
                 ++ EvCaptureStart VmbErrorSuccess :: queue_events fs ++ cmd /\
    Forall (fun e => is_setup_event e = true) created /\
    announced created = addresses fs /\
    (startAcquisition = false -> cmd = []) /\
    (startAcquisition = true ->
     exists n : nat,
       cmd = EvFeatureCommandRun AcquisitionStart VmbErrorSuccess
               :: pending_polls AcquisitionStart n
               ++ [EvFeatureCommandIsDone AcquisitionStart true]).
Proof.
  intros Hidle H.
  destruct (start_streaming_success _ _ _ _ _ _ _ Hidle H)
    as (fs & created & cmd & p & Hf & _ & _ & _ & _ & Htr & Hsetup & Hann
        & Hno & Hyes).
  exists fs, created, cmd, p. repeat (split; [assumption |]). assumption.
Qed.

Lemma start_streaming_protocol_witness :
  exists (w1 : World) (fs : list Frame) (created cmd : Trace) (p : Z),
    start_streaming (scripted_api mono8_2x2) 1 2 (Some 7%nat) false idle_world
    = Returns (Ok tt) w1 /\
    trace w1 = trace idle_world ++ EvPayloadSizeGet VmbErrorSuccess p :: created
                 ++ EvCaptureStart VmbErrorSuccess :: queue_events fs ++ cmd /\
    cmd = [].
Proof.
  eexists.
  pose proof (start_streaming_protocol (scripted_api mono8_2x2) 1 2
                (Some 7%nat) false idle_world _
                ltac:(reflexivity) ltac:(vm_compute; reflexivity))
    as (fs & created & cmd & p & _ & Htr & _ & _ & Hno & _).
  exists fs, created, cmd, p.
  split; [vm_compute; reflexivity |]. split; [exact Htr | exact (Hno eq_refl)].
Defined.

(** X15: after a successful start on an idle engine the pool is exactly
    [bufferCount] frames, all newly allocated (at consecutive addresses from
    the allocator's position on), hence pairwise distinct, and every one of
    them carries the consumer callback given to the start. *)
Theorem start_streaming_pool (api : VmbCAPI) (fuel : nat) (bufferCount : Z)
    (onFrame : Callback) (startAcquisition : bool) (w w1 : World) :
  is_streaming w = false ->
  start_streaming api fuel bufferCount onFrame startAcquisition w
  = Returns (Ok tt) w1 ->
  exists fs : list Frame,
    frames_ (self w1) = Some <$> fs /\
    length fs = Z.to_nat bufferCount /\
    pool_addresses (frames_ (self w1))
    = seq (fresh w) (Z.to_nat bufferCount) /\
    NoDup (pool_addresses (frames_ (self w1))) /\
    Forall (fun f => callback_ f = onFrame) fs /\
    fresh w1 = (fresh w + Z.to_nat bufferCount)%nat.
Proof.
  intros Hidle H.
  destruct (start_streaming_success _ _ _ _ _ _ _ Hidle H)
    as (fs & _ & _ & _ & Hf & Hlen & Hseq & Hcb & Hfresh & _).
  exists fs.
  assert (Hpool : pool_addresses (frames_ (self w1))
                  = seq (fresh w) (Z.to_nat bufferCount)).
  { rewrite Hf, <- Hseq.
    rewrite <- (app_nil_r (Some <$> fs)).
    apply (pool_addresses_filled fs 0). }
  repeat split; try assumption.
  rewrite Hpool. apply NoDup_seq.
Qed.

Lemma start_streaming_pool_witness :
  exists (w1 : World) (fs : list Frame),
    start_streaming (scripted_api mono8_2x2) 1 2 (Some 7%nat) true idle_world
    = Returns (Ok tt) w1 /\
    frames_ (self w1) = Some <$> fs /\
    pool_addresses (frames_ (self w1)) = [0%nat; 1%nat].
Proof.
  eexists.
  pose proof (start_streaming_pool (scripted_api mono8_2x2) 1 2
                (Some 7%nat) true idle_world _
                ltac:(reflexivity) ltac:(vm_compute; reflexivity))
    as (fs & Hf & _ & Hpool & _).
  exists fs. split; [vm_compute; reflexivity |].
  split; [exact Hf | exact Hpool].
Defined.

(** ** The stop sequence *)

Lemma feature_command_run_refused (api : VmbCAPI) (fuel : nat)
    (name : FeatureName) (w w' : World) (e : VmbError_t) :
  feature_command_run api fuel name w = Returns (Err e) w' ->
  e <> VmbErrorSuccess /\ w' = with_events w [EvFeatureCommandRun name e].
Proof.
  intros H. destruct w as [c gone tr next].
  unfold feature_command_run in H. run_in H.
  cbn [self expired trace fresh] in *. revert H.
  destruct (FeatureCommandRun api tr name);
    cbn [is_success negb]; intros H;
    try (injection H as <- <-; split; [discriminate | reflexivity]).
  apply poll_command_done_run in H. destruct H as [H _]. discriminate H.
Qed.

(** X16: a stop on a streaming engine goes through acquisition-stop,
    capture-end, queue-flush and revoke-all in this order and gives up at the
    first step that fails: a later step is never attempted after a failed
    one, the error returned is that step's (never the success code), and
    unless all four succeeded the camera object keeps its pool and still
    streams. *)
Theorem stop_streaming_sequence (api : VmbCAPI) (fuel : nat) (w w' : World)
    (r : result unit) :
  is_streaming w = true ->
  stop_streaming api fuel w = Returns r w' ->
  exists n : nat,
    let stopped :=
      EvFeatureCommandRun AcquisitionStop VmbErrorSuccess
        :: pending_polls AcquisitionStop n
        ++ [EvFeatureCommandIsDone AcquisitionStop true] in
    match r with
    | Ok _ =>
        self w' = {| streaming_ := false; frames_ := [] |} /\
        trace w' = trace w ++ stopped
                     ++ [EvCaptureEnd VmbErrorSuccess;
                         EvCaptureQueueFlush VmbErrorSuccess;
                         EvFrameRevokeAll VmbErrorSuccess]
    | Err e =>
        e <> VmbErrorSuccess /\
        self w' = self w /\
        (trace w' = trace w ++ [EvFeatureCommandRun AcquisitionStop e] \/
         trace w' = trace w ++ stopped ++ [EvCaptureEnd e] \/
         trace w' = trace w ++ stopped
                      ++ [EvCaptureEnd VmbErrorSuccess; EvCaptureQueueFlush e] \/
         trace w' = trace w ++ stopped
                      ++ [EvCaptureEnd VmbErrorSuccess;
                          EvCaptureQueueFlush VmbErrorSuccess;
                          EvFrameRevokeAll e])
    end.
Proof.
  unfold is_streaming. intros Hs H. destruct w as [[s fr] gone tr next].
  cbn [self streaming_] in Hs. subst s.
  unfold stop_streaming in H. run_in H. cbn [self streaming_ negb] in H.
  case_run H.
  all: match goal with
       | Hr : feature_command_run _ _ _ _ = Returns (Ok _) _ |- _ =>
           apply feature_command_run_done in Hr; destruct Hr as (n & ->)
       | Hr : feature_command_run _ _ _ _ = Returns (Err _) _ |- _ =>
           apply feature_command_run_refused in Hr; destruct Hr as (Hne & ->)
       end.
  all: injection H as <- <-.
  all: unfold with_events; cbn [self streaming_ frames_ trace expired fresh].
  all: try (exists n; cbv zeta; rewrite <- ?app_assoc; cbn [app];
            first [ split; [reflexivity |]; rewrite <- ?app_assoc; reflexivity
                  | split; [discriminate |]; split; [reflexivity |];
                    rewrite <- ?app_assoc; cbn [app]; tauto ]).
  exists O. cbv zeta. split; [exact Hne |]. split; [reflexivity |].
  left. reflexivity.
Qed.

Lemma stop_streaming_sequence_witness :
  exists (w' : World) (n : nat),
    stop_streaming (scripted_api mono8_2x2) 1 streaming_world
    = Returns (Ok tt) w' /\
    self w' = {| streaming_ := false; frames_ := [] |} /\
    trace w' = trace streaming_world
                 ++ (EvFeatureCommandRun AcquisitionStop VmbErrorSuccess
                       :: pending_polls AcquisitionStop n
                       ++ [EvFeatureCommandIsDone AcquisitionStop true])
                 ++ [EvCaptureEnd VmbErrorSuccess;
                     EvCaptureQueueFlush VmbErrorSuccess;
                     EvFrameRevokeAll VmbErrorSuccess].
Proof.
  eexists.
  pose proof (stop_streaming_sequence (scripted_api mono8_2x2) 1
                streaming_world _ (Ok tt)
                ltac:(reflexivity) ltac:(vm_compute; reflexivity))
    as (n & Hself & Htr).
  exists n. split; [vm_compute; reflexivity |]. split; [exact Hself | exact Htr].
Defined.

(** X17: start and stop absorb their own repetition.  After a start that
    returned success, any further start (with whatever count, callback or
    acquisition flag) returns success and changes nothing, so the pool and
    its callback cannot be changed without a stop; after a stop that
    returned success, any further stop returns success and changes
    nothing. *)
Theorem start_stop_absorb (api : VmbCAPI) (fuel : nat) (bufferCount : Z)
    (onFrame : Callback) (startAcquisition : bool) (w w1 : World) :
  (start_streaming api fuel bufferCount onFrame startAcquisition w
   = Returns (Ok tt) w1 ->
   forall (fuel' : nat) (bufferCount' : Z) (onFrame' : Callback)
          (startAcquisition' : bool),
     start_streaming api fuel' bufferCount' onFrame' startAcquisition' w1
     = Returns (Ok tt) w1) /\
  (stop_streaming api fuel w = Returns (Ok tt) w1 ->
   forall fuel' : nat, stop_streaming api fuel' w1 = Returns (Ok tt) w1).
Proof.
  split.
  - intros H fuel' n' cb' acq'.
    apply start_streaming_ok in H. destruct H as [Hon _].
    unfold is_streaming in Hon. unfold start_streaming. run.
    rewrite Hon. reflexivity.
  - intros H fuel'.
    assert (Hoff : streaming_ (self w1) = false).
    { destruct (streaming_ (self w)) eqn:Hs.
      - apply (stop_streaming_run _ _ _ _ _ Hs) in H. apply H.
      - unfold stop_streaming in H. run_in H. rewrite Hs in H.
        cbn [negb] in H. injection H as <-. exact Hs. }
    unfold stop_streaming. run. rewrite Hoff. reflexivity.
Qed.

Lemma start_stop_absorb_witness :
  exists w1 : World,
    start_streaming (scripted_api mono8_2x2) 1 2 (Some 7%nat) true idle_world
    = Returns (Ok tt) w1 /\
    start_streaming (scripted_api mono8_2x2) 1 5 None false w1
    = Returns (Ok tt) w1.
Proof.
  eexists. split; [vm_compute; reflexivity |].
  apply (start_stop_absorb (scripted_api mono8_2x2) 1 2 (Some 7%nat) true
           idle_world).
  vm_compute. reflexivity.
Defined.

(** ** A start drops the previous pool *)

Lemma pool_addresses_insert (P : nat -> Prop) (f : Frame)
    (frames : list (option Frame)) :
  forall i : nat,
    Forall P (pool_addresses frames) ->
    P (context0 (vmb_frame_ f)) ->
    Forall P (pool_addresses (<[i := Some f]> frames)).
Proof.
  induction frames as [| [g |] frames IH]; intros i Hall Hf.
  - destruct i; exact Hall.
  - destruct i as [| i]; cbn [pool_addresses] in *.
    + inversion Hall; subst. constructor; assumption.
    + inversion Hall; subst. constructor; [assumption |].
      apply IH; assumption.
  - destruct i as [| i]; cbn [pool_addresses] in *.
    + constructor; assumption.
    + apply IH; assumption.
Qed.

(** The first loop only adds frames allocated during the loop. *)
Lemma create_frames_bound (api : VmbCAPI) (size : Z) (cb : Callback)
    (base n : nat) :
  forall (i : nat) (w w' : World) (r : result unit),
    create_frames api size cb i n w = Returns r w' ->
    (base <= fresh w)%nat ->
    Forall (fun a => (base <= a)%nat) (pool_addresses (frames_ (self w))) ->
    Forall (fun a => (base <= a)%nat) (pool_addresses (frames_ (self w'))).
Proof.
  induction n as [| n IH]; intros i w w' r H Hbase Hall.
  - cbn in H. injection H as _ <-. exact Hall.
  - cbn [create_frames] in H. run_in H.
    destruct (expired w); [discriminate |].
    destruct (Frame_create api size 128 w) as [[f | e] w1 | why] eqn:Hc;
      [| | discriminate].
    + apply Frame_create_ok in Hc.
      destruct Hc as (str & tag & wd & ht & _ & _ & _ & Haddr & _ & ->).
      apply IH in H; [exact H | cbn [fresh]; lia |].
      cbn [self frames_]. apply pool_addresses_insert; [exact Hall |].
      cbn [set_callback vmb_frame_]. rewrite Haddr. exact Hbase.
    + apply Frame_create_run in Hc. destruct Hc as [Hself _].
      injection H as _ <-. rewrite Hself. exact Hall.
Qed.

(** X18: a start on an idle engine first drops whatever the pool held:
    however the start ends, the pool afterwards holds only frames allocated
    during this call, and the call has revoked nothing; frames left
    announced by an earlier failed start are thus let go without a
    revoke. *)
Theorem start_streaming_drops_pool (api : VmbCAPI) (fuel : nat)
    (bufferCount : Z) (onFrame : Callback) (startAcquisition : bool)
    (w w' : World) (r : result unit) :
  is_streaming w = false ->
  start_streaming api fuel bufferCount onFrame startAcquisition w
  = Returns r w' ->
  Forall (fun a => (fresh w <= a)%nat) (pool_addresses (frames_ (self w'))) /\
  exists new : Trace,
    trace w' = trace w ++ new /\
    Forall (fun ev => is_revoke ev = false) new.
Proof.
  intros Hidle H. split.
  - revert H. unfold is_streaming in Hidle.
    destruct w as [[s fr] gone tr next]. cbn [self streaming_] in Hidle.
    subst s. unfold start_streaming, frames_reset. intros H.
    run_in H. cbn [self streaming_ frames_ negb] in H.
    case_run H.
    all: try match goal with
         | Hc : create_frames _ _ _ _ _ _ = _ |- _ =>
             apply (create_frames_bound _ _ _ next) in Hc;
             [ | cbn [fresh]; lia
               | cbn [self frames_]; rewrite pool_addresses_nulls; constructor ]
         end.
    all: use_runs.
    all: injection H as _ <-.
    all: cbn [self frames_ fresh] in *.
    all: repeat match goal with
           | Hs : self ?x = _ |- context [self ?x] => rewrite Hs
           end.
    all: cbn [self frames_ fresh] in *.
    all: first [assumption | rewrite pool_addresses_nulls; constructor].
  - destruct (start_streaming_run _ _ _ _ _ _ _ _ Hidle H)
      as (_ & _ & _ & (_ & new & Htr & Hrev & _)).
    exists new. split; assumption.
Qed.

Lemma start_streaming_drops_pool_witness :
  exists w' : World,
    start_streaming (scripted_api mono8_2x2) 1 1 None false stale_world
    = Returns (Ok tt) w' /\
    Forall (fun a => (fresh stale_world <= a)%nat)
      (pool_addresses (frames_ (self w'))).
Proof.
  eexists. split; [vm_compute; reflexivity |].
  apply (start_streaming_drops_pool (scripted_api mono8_2x2) 1 1 None
           false stale_world _ (Ok tt)).
  - reflexivity.
  - vm_compute. reflexivity.
Defined.

(** ** Reading the pixel format and creating a frame *)

(** X19: [get_pixel_format] reads the format only from a feature of the
    "Standard" namespace.  When it succeeds it has made exactly three calls,
    the option converted to an integer being the one the enum query
    returned, and the tag fits 32 bits.  When the feature info names no
    namespace the result is [VmbErrorInvalidAddress], when it names another
    one [VmbErrorNotAvailable], in both cases without reading the enum; an
    error is never the success code. *)
Theorem get_pixel_format_standard_only (api : VmbCAPI) (w w' : World)
    (r : result Z) :
  get_pixel_format api w = Returns r w' ->
  match r with
  | Ok tag =>
      0 <= tag < 2 ^ 32 /\
      exists (str : string) (v : Z),
        tag = uint32_t (int64_t v) /\
        w' = with_events w
               [EvFeatureInfoQuery PixelFormat VmbErrorSuccess (Some "Standard");
                EvFeatureEnumGet PixelFormat VmbErrorSuccess str;
                EvFeatureEnumAsInt PixelFormat str VmbErrorSuccess v]
  | Err e =>
      e <> VmbErrorSuccess /\
      forall ns : option string,
        FeatureInfoQuery api (trace w) PixelFormat = (VmbErrorSuccess, ns) ->
        ns <> Some "Standard" ->
        e = match ns with
            | None => VmbErrorInvalidAddress
            | Some _ => VmbErrorNotAvailable
            end /\
        w' = with_events w [EvFeatureInfoQuery PixelFormat VmbErrorSuccess ns]
  end.
Proof.
  intros H. destruct w as [c gone tr next].
  unfold get_pixel_format, feature_info_query, feature_enum_get,
    feature_enum_as_int in H.
  run_in H. cbn [self expired trace fresh] in *.
  destruct (FeatureInfoQuery api tr PixelFormat) as [e0 ns0] eqn:Hinfo.
  cbn [fst snd] in H.
  case_run H.
  all: try match goal with
       | Hs : String.eqb ?s "Standard" = true |- _ =>
           apply String.eqb_eq in Hs; subst s
       | Hs : String.eqb ?s "Standard" = false |- _ =>
           apply String.eqb_neq in Hs
       end.
  all: injection H as <- <-.
  all: unfold with_events; cbn [self expired trace fresh].
  all: try (split; [discriminate |]; intros ns Hns Hstd;
            try rewrite Hinfo in Hns;
            first [ discriminate Hns
                  | injection Hns as <-;
                    first [congruence | split; reflexivity] ]).
  split.
  - unfold uint32_t. apply Z.mod_pos_bound. lia.
  - eexists. eexists. split; [reflexivity |].
    rewrite <- !app_assoc. reflexivity.
Qed.

Lemma get_pixel_format_standard_only_witness :
  exists (w' : World) (str : string) (v : Z),
    get_pixel_format (scripted_api mono8_2x2) idle_world
    = Returns (Ok (uint32_t (int64_t v))) w' /\
    w' = with_events idle_world
           [EvFeatureInfoQuery PixelFormat VmbErrorSuccess (Some "Standard");
            EvFeatureEnumGet PixelFormat VmbErrorSuccess str;
            EvFeatureEnumAsInt PixelFormat str VmbErrorSuccess v].
Proof.
  pose proof (get_pixel_format_standard_only (scripted_api mono8_2x2)
                idle_world _ (Ok 17301505) ltac:(vm_compute; reflexivity))
    as (_ & str & v & Htag & Hw).
  eexists. exists str, v. split; [| exact Hw].
  rewrite <- Htag. vm_compute. reflexivity.
Defined.

(** X20: what a frame that [Frame::create] returns hands to the vendor
    API.  In both modes [data] is sized to the image (height x
    bytes-per-line, from the answers of the API) and zero-filled, and no
    callback is set.  A [kByImage] frame announces its own [data] buffer,
    whose length is the requested size; a [kByTl] frame, made when the
    requested size is not the image size, announces no buffer (the null
    pointer) and the requested size, while [data] has the image size.  The
    announce is the last call, made with exactly that buffer and size. *)
Theorem Frame_create_buffer (api : VmbCAPI) (size alignment : Z)
    (w w' : World) (f : Frame) :
  Frame_create api size alignment w = Returns (Ok f) w' ->
  exists (ns str : string) (tag width height : Z),
    let bpp := Z.land (Z.shiftr (uint32_t (int64_t tag)) 16) 255 in
    let realSize := image_size (int64_t width) (int64_t height) bpp in
    data f = replicate (Z.to_nat realSize) 0 /\
    Z.of_nat (length (data f)) = realSize /\
    callback_ f = None /\
    bufferSize (vmb_frame_ f) = uint32_t size /\
    match allocation_mode_ f with
    | kByImage =>
        buffer (vmb_frame_ f) = Some (context0 (vmb_frame_ f)) /\
        Z.of_nat (length (data f)) = size
    | kByTl =>
        buffer (vmb_frame_ f) = None /\
        size <> realSize
    end /\
    trace w' = trace w
                 ++ [EvFeatureInfoQuery PixelFormat VmbErrorSuccess (Some ns);
                     EvFeatureEnumGet PixelFormat VmbErrorSuccess str;
                     EvFeatureEnumAsInt PixelFormat str VmbErrorSuccess tag;
                     EvFeatureIntGet camera_handle_ Width VmbErrorSuccess width;
                     EvFeatureIntGet camera_handle_ Height VmbErrorSuccess
                       height;
                     EvFrameAnnounce (context0 (vmb_frame_ f))
                       (buffer (vmb_frame_ f)) (bufferSize (vmb_frame_ f))
                       VmbErrorSuccess].
Proof.
  intros H. destruct w as [c gone tr next].
  unfold Frame_create, get_pixel_format, feature_info_query, feature_enum_get,
    feature_enum_as_int, feature_int_get, data_resize in H.
  case_run H.
  all: finish_run H.
  all: match goal with
       | |- context [EvFeatureInfoQuery PixelFormat _ (Some ?n)] =>
       match goal with
       | |- context [EvFeatureEnumAsInt PixelFormat ?s VmbErrorSuccess ?t] =>
           match goal with
           | |- context [EvFeatureIntGet camera_handle_ Width _ ?x] =>
               match goal with
               | |- context [EvFeatureIntGet camera_handle_ Height _ ?y] =>
                   exists n, s, t, x, y
               end
           end
       end
       end.
  all: cbv zeta; unfold image_size.
  all: cbn [allocation_mode_ step data set_step set_vmb_frame set_data
            Frame_new vmb_frame_ context0 set_vmb_buffer callback_ buffer
            bufferSize self expired trace fresh].
  all: rewrite ?length_replicate.
  all: match goal with
       | Hc : (uint64_t ?x =? _) = _ |- _ =>
           pose proof (Z.mod_pos_bound x (2 ^ 64) ltac:(lia)) as Hrange;
           change (x mod 2 ^ 64) with (uint64_t x) in Hrange
       end.
  - apply Z.eqb_eq in Heqb0. rewrite <- Heqb0.
    rewrite Z2Nat.id by lia. repeat split; reflexivity.
  - apply Z.eqb_neq in Heqb0.
    rewrite Z2Nat.id by lia.
    repeat split; try reflexivity.
    intros Heq. apply Heqb0. symmetry. exact Heq.
Qed.

Lemma Frame_create_buffer_witness :
  exists (f : Frame) (w' : World),
    Frame_create (scripted_api mono8_2x2) 1024 128 idle_world
    = Returns (Ok f) w' /\
    allocation_mode_ f = kByTl /\
    buffer (vmb_frame_ f) = None /\
    bufferSize (vmb_frame_ f) = uint32_t 1024 /\
    data f = [0; 0; 0; 0].
Proof.
  do 2 eexists. split; [vm_compute; reflexivity |].
  pose proof (Frame_create_buffer (scripted_api mono8_2x2) 1024 128 idle_world
                _ _ ltac:(vm_compute; reflexivity))
    as (ns & str & tag & width & height & Hdata & _ & _ & Hsize & Hmode & Htr).
  cbv zeta in Hdata.
  injection Htr; intros; subst tag width height.
  split; [reflexivity |].
  split; [exact (proj1 Hmode) |].
  split; [exact Hsize | exact Hdata].
Defined.

(** X21: [Frame::create] asks for the width and for the height before it
    looks at either answer.  When the width cannot be read, the height has
    been asked all the same, the error returned is the width's, whatever
    the height query said, and no frame was allocated or announced. *)
Theorem Frame_create_width_error (api : VmbCAPI) (size alignment : Z)
    (w w1 : World) (tag v : Z) (e : VmbError_t) :
  get_pixel_format api w = Returns (Ok tag) w1 ->
  FeatureIntGet api (trace w1) camera_handle_ Width = (e, v) ->
  e <> VmbErrorSuccess ->
  exists (eh : VmbError_t) (vh : Z),
    FeatureIntGet api
      (trace w1 ++ [EvFeatureIntGet camera_handle_ Width e v])
      camera_handle_ Height = (eh, vh) /\
    Frame_create api size alignment w
    = Returns (Err e)
        (with_events w1 [EvFeatureIntGet camera_handle_ Width e v;
                         EvFeatureIntGet camera_handle_ Height eh vh]).
Proof.
  intros Hfmt Hw He. destruct w1 as [c gone tr next]. cbn [trace] in *.
  destruct (FeatureIntGet api
              (tr ++ [EvFeatureIntGet camera_handle_ Width e v])
              camera_handle_ Height) as [eh vh] eqn:Hh.
  exists eh, vh. split; [reflexivity |].
  unfold Frame_create. run. rewrite Hfmt.
  unfold feature_int_get. run. cbn [self expired trace fresh].
  rewrite Hw. cbn [fst snd].
  destruct e; [contradiction | ..]; cbn [is_success negb];
    cbn [self expired trace fresh]; rewrite Hh; cbn [fst snd];
    destruct eh; cbn [is_success negb]; unfold with_events;
    cbn [self expired trace fresh]; rewrite <- app_assoc; reflexivity.
Qed.

Lemma Frame_create_width_error_witness :
  exists (w1 : World) (eh : VmbError_t) (vh : Z),
    Frame_create (without_width (scripted_api mono8_2x2)) 4 128 idle_world
    = Returns (Err (VmbErrorCode (-3)))
        (with_events w1
           [EvFeatureIntGet camera_handle_ Width (VmbErrorCode (-3)) 0;
            EvFeatureIntGet camera_handle_ Height eh vh]).
Proof.
  eexists.
  pose proof (Frame_create_width_error
                (without_width (scripted_api mono8_2x2)) 4 128 idle_world _
                17301505 0 (VmbErrorCode (-3))
                ltac:(vm_compute; reflexivity) ltac:(reflexivity)
                ltac:(discriminate))
    as (eh & vh & _ & Hrun).
  exists eh, vh. exact Hrun.
Defined.

(** ** Opening a camera *)

Ltac open_run :=
  cbv beta iota zeta delta [open_bind open_ret null_string c_str openCamera
    VimbaXCamera_new].
Ltac open_run_in H :=
  cbv beta iota zeta delta [open_bind open_ret null_string c_str openCamera
    VimbaXCamera_new] in H.

Lemma opened_ids_app (a b : list OpenEvent) :
  opened_ids (a ++ b) = opened_ids a ++ opened_ids b.
Proof.
  induction a as [| e a IH]; [reflexivity |].
  destruct e; cbn [app opened_ids]; rewrite IH; reflexivity.
Qed.

Lemma is_success_true (e : VmbError_t) :
  is_success e = true -> e = VmbErrorSuccess.
Proof. destruct e; cbn; congruence. Qed.

Lemma loop_outcome_nil : loop_outcome [] None [].
Proof. split; [constructor | reflexivity]. Qed.

(** One attempt of a loop: [openCamera id], then the constructor or the
    rest of the loop. *)
Lemma loop_outcome_attempt (api : VmbOpenAPI) (id : string)
    (rest : OpenM (option nat)) (ids : list string)
    (t t' : list OpenEvent) (r : option nat) :
  (forall t0 t0' r0, rest t0 = Some (r0, t0') ->
     exists new, t0' = t0 ++ new /\ loop_outcome ids r0 new) ->
  (optHandle <~ openCamera api id ;;
   match optHandle with
   | Some handle => VimbaXCamera_new api handle
   | None => rest
   end) t = Some (r, t') ->
  exists new, t' = t ++ new /\ loop_outcome (id :: ids) r new.
Proof.
  intros Hrest H. open_run_in H.
  destruct (CameraOpen api t id) as [err h] eqn:Hopen. cbn [fst snd] in H.
  destruct (is_success err) eqn:Hs.
  - apply is_success_true in Hs. subst err. injection H as <- <-.
    eexists. split; [rewrite <- app_assoc; reflexivity |].
    cbn [app]. exists [], id. eexists. exists ids.
    split; [reflexivity |]. split; [constructor | reflexivity].
  - apply Hrest in H. destruct H as (new & -> & Hr).
    exists (EvCameraOpen id err h :: new).
    split; [rewrite <- app_assoc; reflexivity |].
    assert (Hfail : is_failed_open (EvCameraOpen id err h) = true)
      by (cbn [is_failed_open]; rewrite Hs; reflexivity).
    destruct r as [handle |]; cbn [loop_outcome] in Hr |- *.
    + destruct Hr as (pre & id' & e & later & -> & Hpre & ->).
      exists (EvCameraOpen id err h :: pre), id', e, later.
      split; [reflexivity |]. split; [constructor; assumption | reflexivity].
    + destruct Hr as [Hall <-].
      split; [constructor; assumption | reflexivity].
Qed.

(** The loop of the branch without a name tries the entries that permit
    exclusive access, by their extended id and in list order. *)
Lemma open_first_run (mask : Z) (api : VmbOpenAPI)
    (infos : list VmbCameraInfo_t) :
  forall (t t' : list OpenEvent) (r : option nat),
    open_first mask api infos t = Some (r, t') ->
    exists new : list OpenEvent,
      t' = t ++ new /\ loop_outcome (exclusive_ids mask infos) r new.
Proof.
  induction infos as [| info rest IH]; intros t t' r H.
  - cbn in H. injection H as <- <-. exists []. rewrite app_nil_r.
    split; [reflexivity | apply loop_outcome_nil].
  - cbn [open_first exclusive_ids] in H |- *.
    destruct (checkAccess mask info); [| apply IH; exact H].
    destruct (cameraIdExtended info) as [id |];
      [| open_run_in H; discriminate].
    change (c_str (Some id)) with (@open_ret string id) in H.
    unfold open_bind at 1 in H. unfold open_ret at 1 in H.
    eapply loop_outcome_attempt; [exact IH | exact H].
Qed.

(** [checkCameraInfo], when it is defined, is [name_matches]. *)
Lemma checkCameraInfo_run (name : string) (info : VmbCameraInfo_t)
    (t t' : list OpenEvent) (b : bool) :
  checkCameraInfo name info t = Some (b, t') ->
  t' = t /\ b = name_matches name info /\ cameraIdString info <> None.
Proof.
  unfold checkCameraInfo, name_matches, c_str_is. open_run.
  destruct (cameraIdString info) as [a |]; [| discriminate].
  destruct (String.eqb a name).
  { intros H. injection H as <- <-. repeat split; congruence. }
  destruct (cameraIdExtended info) as [x |]; [| discriminate].
  destruct (String.eqb x name).
  { intros H. injection H as <- <-. repeat split; congruence. }
  destruct (serialString info) as [c |]; [| discriminate].
  intros H. injection H as <- <-. repeat split; congruence.
Qed.

(** The loop of the branch with a name tries the entries that carry the
    name and permit exclusive access, by their extended id and in list
    order; it gets past an entry only if that entry has an id string. *)
Lemma open_matching_run (mask : Z) (api : VmbOpenAPI) (name : string)
    (infos : list VmbCameraInfo_t) :
  forall (t t' : list OpenEvent) (r : option nat),
    open_matching mask api name infos t = Some (r, t') ->
    exists new : list OpenEvent,
      t' = t ++ new /\ loop_outcome (matching_ids mask name infos) r new.
Proof.
  induction infos as [| info rest IH]; intros t t' r H.
  - cbn in H. injection H as <- <-. exists []. rewrite app_nil_r.
    split; [reflexivity | apply loop_outcome_nil].
  - cbn [open_matching matching_ids] in H |- *.
    unfold open_bind at 1 in H.
    destruct (checkCameraInfo name info t) as [[b t1] |] eqn:Hcheck;
      [| discriminate].
    apply checkCameraInfo_run in Hcheck. destruct Hcheck as (-> & -> & _).
    destruct (name_matches name info && checkAccess mask info);
      [| apply IH; exact H].
    destruct (cameraIdExtended info) as [id |];
      [| open_run_in H; discriminate].
    change (c_str (Some id)) with (@open_ret string id) in H.
    unfold open_bind at 1 in H. unfold open_ret at 1 in H.
    eapply loop_outcome_attempt; [exact IH | exact H].
Qed.

Lemma loop_outcome_fallback (api : VmbOpenAPI) (name : string)
    (ids : list string) (t : list OpenEvent) (r0 : option nat)
    (new0 : list OpenEvent) :
  loop_outcome ids r0 new0 ->
  exists (r : option nat) (new : list OpenEvent),
    match r0 with
    | Some camera => open_ret (Some camera)
    | None =>
        optHandle <~ openCamera api name ;;
        match optHandle with
        | Some handle => VimbaXCamera_new api handle
        | None => open_ret None
        end
    end (t ++ new0) = Some (r, t ++ new) /\
    loop_outcome (ids ++ [name]) r new.
Proof.
  intros H0. destruct r0 as [camera |]; cbn [loop_outcome] in H0.
  - exists (Some camera), new0. split; [reflexivity |].
    destruct H0 as (pre & id & e & later & -> & Hpre & ->).
    exists pre, id, e, (later ++ [name]).
    split; [reflexivity |]. split; [exact Hpre |].
    rewrite <- app_assoc. reflexivity.
  - destruct H0 as [Hall <-]. open_run.
    destruct (CameraOpen api (t ++ new0) name) as [err h]. cbn [fst snd].
    destruct (is_success err) eqn:Hs.
    + apply is_success_true in Hs. subst err.
      eexists. eexists. split.
      { rewrite <- !app_assoc. reflexivity. }
      cbn [app]. exists new0, name. eexists. exists [].
      split; [reflexivity |]. split; [exact Hall | reflexivity].
    + eexists. eexists. split.
      { rewrite <- !app_assoc. reflexivity. }
      split.
      * apply Forall_app. split; [exact Hall |].
        constructor; [| constructor]. cbn [is_failed_open]. rewrite Hs.
        reflexivity.
      * rewrite opened_ids_app. reflexivity.
Qed.

Lemma open_first_defined (mask : Z) (api : VmbOpenAPI)
    (infos : list VmbCameraInfo_t) :
  Forall (openable_info mask) infos ->
  forall t, open_first mask api infos t <> None.
Proof.
  induction 1 as [| info rest Hinfo _ IH]; intros t; [discriminate |].
  cbn [open_first]. unfold openable_info in Hinfo.
  destruct (checkAccess mask info); [| apply IH].
  destruct (cameraIdExtended info) as [id |];
    [| exfalso; apply Hinfo; reflexivity].
  open_run. destruct (is_success _); [discriminate | apply IH].
Qed.

Lemma open_matching_defined (mask : Z) (api : VmbOpenAPI) (name : string)
    (infos : list VmbCameraInfo_t) :
  Forall complete_info infos ->
  forall t, open_matching mask api name infos t <> None.
Proof.
  induction 1 as [| info rest Hinfo _ IH]; intros t; [discriminate |].
  cbn [open_matching]. destruct Hinfo as (Ha & Hb & Hc).
  unfold checkCameraInfo.
  destruct (cameraIdString info) as [a |]; [| congruence].
  destruct (cameraIdExtended info) as [b |]; [| congruence].
  destruct (serialString info) as [c |]; [| congruence].
  open_run.
  destruct (String.eqb a name); cbn [andb].
  { destruct (checkAccess mask info); [| apply IH].
    destruct (is_success _); [discriminate | apply IH]. }
  destruct (String.eqb b name); cbn [andb].
  { destruct (checkAccess mask info); [| apply IH].
    destruct (is_success _); [discriminate | apply IH]. }
  destruct (String.eqb c name); cbn [andb]; [| apply IH].
  destruct (checkAccess mask info); [| apply IH].
  destruct (is_success _); [discriminate | apply IH].
Qed.

(** The loop of the branch with a name gets to its end only over entries
    that have an id string. *)
Lemma open_matching_past (mask : Z) (api : VmbOpenAPI) (name : string)
    (infos : list VmbCameraInfo_t) :
  forall (t t' : list OpenEvent),
    open_matching mask api name infos t = Some (None, t') ->
    Forall (fun info => cameraIdString info <> None) infos.
Proof.
  induction infos as [| info rest IH]; intros t t' H; [constructor |].
  cbn [open_matching] in H. unfold open_bind at 1 in H.
  destruct (checkCameraInfo name info t) as [[b t1] |] eqn:Hcheck;
    [| discriminate].
  apply checkCameraInfo_run in Hcheck. destruct Hcheck as (-> & -> & Hid).
  constructor; [exact Hid |].
  destruct (name_matches name info && checkAccess mask info);
    [| eapply IH; exact H].
  destruct (cameraIdExtended info) as [id |];
    [| open_run_in H; discriminate].
  open_run_in H. destruct (is_success _); [discriminate |].
  eapply IH; exact H.
Qed.

(** The listing never reads a null string, and only lists. *)
Lemma availableCameras_run (api : VmbOpenAPI) (t : list OpenEvent) :
  exists (infos : list VmbCameraInfo_t) (listing : list OpenEvent),
    availableCameras api t = Some (infos, t ++ listing) /\
    opened_ids listing = [].
Proof.
  unfold availableCameras. cbv zeta.
  destruct (CamerasList api t 0) as [e1 [n1 w1]]. cbn [fst snd].
  destruct (is_success e1); cbn [negb].
  2: { eexists. eexists. split; reflexivity. }
  destruct (CamerasList api _ (uint32_t n1)) as [e2 [n2 w2]]. cbn [fst snd].
  destruct (is_success e2); cbn [negb].
  - eexists. eexists. split; [rewrite <- app_assoc; reflexivity | reflexivity].
  - eexists. eexists. split; [rewrite <- app_assoc; reflexivity | reflexivity].
Qed.

Lemma exclusive_ids_padding (mask : Z) (l : list VmbCameraInfo_t) (k : nat) :
  exclusive_ids mask (l ++ replicate k zero_info) = exclusive_ids mask l.
Proof.
  induction l as [| info rest IH].
  - induction k as [| k IHk]; [reflexivity |].
    cbn [app replicate exclusive_ids] in *.
    unfold checkAccess at 1. cbn [permittedAccess zero_info].
    rewrite Z.land_0_l. exact IHk.
  - cbn [app exclusive_ids]. rewrite IH. reflexivity.
Qed.

(** X22: [open] without a name, on a list whose entries with exclusive
    access have an extended id, returns; it calls [CameraOpen] on the
    entries that permit exclusive access, by extended id and in list order,
    and stops at the first that opens, which it constructs and returns; it
    returns [nullptr] exactly after every such entry failed to open. *)
Theorem open_first_available (mask : Z) (api : VmbOpenAPI)
    (t t1 : list OpenEvent) (infos : list VmbCameraInfo_t) :
  availableCameras api t = Some (infos, t1) ->
  Forall (openable_info mask) infos ->
  exists (r : option nat) (new : list OpenEvent),
    open mask api "" t = Some (r, t1 ++ new) /\
    loop_outcome (exclusive_ids mask infos) r new.
Proof.
  intros Hlist Hinfos. unfold open, open_bind. rewrite Hlist.
  cbn [String.eqb].
  assert (Hloop : exists r new,
            open_first mask api infos t1 = Some (r, t1 ++ new) /\
            loop_outcome (exclusive_ids mask infos) r new).
  { destruct (open_first mask api infos t1) as [[r t'] |] eqn:Hrun.
    - apply open_first_run in Hrun. destruct Hrun as (new & -> & Hout).
      exists r, new. split; [reflexivity | exact Hout].
    - exfalso. eapply open_first_defined; eassumption. }
  destruct infos as [| info rest]; [| exact Hloop].
  exists None, []. rewrite app_nil_r.
  split; [reflexivity | apply loop_outcome_nil].
Qed.

Lemma open_first_available_witness :
  exists (r : option nat) (new : list OpenEvent),
    open 8 (listing_api VmbErrorSuccess 3 three_cameras "ext:C") "" []
    = Some (r, [EvCamerasList 0 VmbErrorSuccess 3 [];
                EvCamerasList 3 VmbErrorSuccess 3 three_cameras] ++ new) /\
    loop_outcome (exclusive_ids 8 three_cameras) r new.
Proof.
  apply open_first_available.
  - vm_compute. reflexivity.
  - repeat constructor; unfold openable_info; cbn; congruence.
Defined.

(** X23: [open] with a name, on a list of complete entries, returns; it
    calls [CameraOpen] on the entries that carry the name (as id string,
    extended id or serial) and permit exclusive access, by extended id and
    in list order, and then, only after all of these failed, on the name
    itself; it returns the first camera that opens. *)
Theorem open_named_order (mask : Z) (api : VmbOpenAPI) (name : string)
    (t t1 : list OpenEvent) (infos : list VmbCameraInfo_t) :
  name <> "" ->
  availableCameras api t = Some (infos, t1) ->
  Forall complete_info infos ->
  exists (r : option nat) (new : list OpenEvent),
    open mask api name t = Some (r, t1 ++ new) /\
    loop_outcome (matching_ids mask name infos ++ [name]) r new.
Proof.
  intros Hname Hlist Hinfos. unfold open. unfold open_bind at 1.
  rewrite Hlist.
  destruct (String.eqb name "") eqn:Hempty;
    [apply String.eqb_eq in Hempty; contradiction |].
  unfold open_bind at 1.
  destruct (open_matching mask api name infos t1) as [[r0 t'] |] eqn:Hrun.
  - apply open_matching_run in Hrun. destruct Hrun as (new0 & -> & Hout).
    apply loop_outcome_fallback. exact Hout.
  - exfalso. eapply open_matching_defined; eassumption.
Qed.

Lemma open_named_order_witness :
  exists (r : option nat) (new : list OpenEvent),
    open 8 (listing_api VmbErrorSuccess 3 three_cameras "B") "sn:B" []
    = Some (r, [EvCamerasList 0 VmbErrorSuccess 3 [];
                EvCamerasList 3 VmbErrorSuccess 3 three_cameras] ++ new) /\
    loop_outcome (matching_ids 8 "sn:B" three_cameras ++ ["sn:B"]) r new.
Proof.
  apply open_named_order.
  - discriminate.
  - vm_compute. reflexivity.
  - repeat constructor; cbn; congruence.
Defined.

Lemma availableCameras_failed (api : VmbOpenAPI) (t t0 : list OpenEvent)
    (infos : list VmbCameraInfo_t) (n found : Z) (e : VmbError_t)
    (written : list VmbCameraInfo_t) :
  availableCameras api t
  = Some (infos, t0 ++ [EvCamerasList n e found written]) ->
  is_success e = false ->
  infos = [].
Proof.
  unfold availableCameras. cbv zeta.
  destruct (CamerasList api t 0) as [e1 [n1 w1]]. cbn [fst snd].
  destruct (is_success e1); cbn [negb]; [| congruence].
  destruct (CamerasList api _ (uint32_t n1)) as [e2 [n2 w2]]. cbn [fst snd].
  destruct (is_success e2) eqn:Hs; cbn [negb]; [| congruence].
  intros H He. injection H as _ Ht. apply app_inj_tail in Ht.
  destruct Ht as [_ Ht]. injection Ht as _ -> _ _. congruence.
Qed.

(** X24: a listing whose last [CamerasList] call failed is a list of no
    cameras: [open] without a name returns [nullptr] without a call of
    [CameraOpen]; [open] with a name still calls [CameraOpen] once, on the
    name itself, and returns that camera if it opens. *)
Theorem open_listing_failed (mask : Z) (api : VmbOpenAPI) (name : string)
    (t t0 : list OpenEvent) (infos : list VmbCameraInfo_t) (n found : Z)
    (e : VmbError_t) (written : list VmbCameraInfo_t) :
  availableCameras api t
  = Some (infos, t0 ++ [EvCamerasList n e found written]) ->
  is_success e = false ->
  open mask api "" t = Some (None, t0 ++ [EvCamerasList n e found written]) /\
  (name <> "" ->
   exists (r : option nat) (new : list OpenEvent),
     open mask api name t
     = Some (r, (t0 ++ [EvCamerasList n e found written]) ++ new) /\
     loop_outcome [name] r new).
Proof.
  intros Hlist He.
  pose proof (availableCameras_failed _ _ _ _ _ _ _ _ Hlist He) as ->.
  split.
  - unfold open, open_bind. rewrite Hlist. reflexivity.
  - intros Hname. unfold open. unfold open_bind at 1. rewrite Hlist.
    destruct (String.eqb name "") eqn:Hempty;
      [apply String.eqb_eq in Hempty; contradiction |].
    unfold open_bind at 1. cbn [open_matching]. unfold open_ret at 1.
    pose proof (loop_outcome_fallback api name []
                  (t0 ++ [EvCamerasList n e found written]) None []
                  loop_outcome_nil) as Hfall.
    rewrite app_nil_r in Hfall. exact Hfall.
Qed.

Lemma open_listing_failed_witness :
  open 8 (listing_api (VmbErrorCode (-1)) 3 three_cameras "B") "" []
  = Some (None, [] ++ [EvCamerasList 0 (VmbErrorCode (-1)) 3 []]) /\
  ("B" <> "" ->
   exists (r : option nat) (new : list OpenEvent),
     open 8 (listing_api (VmbErrorCode (-1)) 3 three_cameras "B") "B" []
     = Some (r, ([] ++ [EvCamerasList 0 (VmbErrorCode (-1)) 3 []]) ++ new) /\
     loop_outcome ["B"] r new).
Proof.
  apply (open_listing_failed 8 _ "B" [] [] []).
  - vm_compute. reflexivity.
  - reflexivity.
Defined.

(** X25: [open] with a name, on a list with an entry whose id string is
    null (as the entries are that the second [CamerasList] call did not
    write), has defined behaviour only when it returns a camera of the list:
    a run that returns comes back with a camera that was opened by the
    extended id of a matching entry, never with [nullptr] and never with
    the camera of the fallback. *)
Theorem open_named_null_entry (mask : Z) (api : VmbOpenAPI) (name : string)
    (t t1 t' : list OpenEvent) (infos : list VmbCameraInfo_t)
    (r : option nat) :
  name <> "" ->
  availableCameras api t = Some (infos, t1) ->
  Exists (fun info => cameraIdString info = None) infos ->
  open mask api name t = Some (r, t') ->
  exists (handle : nat) (new : list OpenEvent),
    r = Some handle /\ t' = t1 ++ new /\
    loop_outcome (matching_ids mask name infos) (Some handle) new.
Proof.
  intros Hname Hlist Hnull Hrun. unfold open in Hrun.
  unfold open_bind at 1 in Hrun. rewrite Hlist in Hrun.
  destruct (String.eqb name "") eqn:Hempty;
    [apply String.eqb_eq in Hempty; contradiction |].
  unfold open_bind at 1 in Hrun.
  destruct (open_matching mask api name infos t1) as [[r0 t2] |] eqn:Hloop;
    [| discriminate].
  destruct r0 as [camera |].
  - injection Hrun as <- <-.
    apply open_matching_run in Hloop. destruct Hloop as (new & -> & Hout).
    exists camera, new. repeat split; [exact Hout].
  - exfalso. apply open_matching_past in Hloop.
    apply Exists_exists in Hnull. destruct Hnull as (info & Hin & Hid).
    rewrite Forall_forall in Hloop. exact (Hloop info Hin Hid).
Qed.

Lemma open_named_null_entry_witness :
  exists (handle : nat) (new : list OpenEvent),
    Some 1%nat = Some handle /\
    [EvCamerasList 0 VmbErrorSuccess 4 [];
     EvCamerasList 4 VmbErrorSuccess 4 three_cameras;
     EvCameraOpen "ext:C" VmbErrorSuccess 1;
     EvCameraInfoQueryByHandle 1 VmbErrorSuccess]
    = [EvCamerasList 0 VmbErrorSuccess 4 [];
       EvCamerasList 4 VmbErrorSuccess 4 three_cameras] ++ new /\
    loop_outcome (matching_ids 8 "C" (three_cameras ++ [zero_info]))
      (Some handle) new.
Proof.
  apply (open_named_null_entry 8
           (listing_api VmbErrorSuccess 4 three_cameras "ext:C") "C" []).
  - discriminate.
  - vm_compute. reflexivity.
  - apply Exists_app. right. constructor. reflexivity.
  - vm_compute. reflexivity.
Defined.

(** X26: the list that [open] works on has as many entries as the first
    [CamerasList] call counted, whatever the second call found; what the
    second call did not write are zero entries, which permit no access, so
    that [open] without a name tries the written entries only. *)
Theorem availableCameras_padding (mask : Z) (api : VmbOpenAPI)
    (t t0 : list OpenEvent) (infos : list VmbCameraInfo_t) (n found : Z)
    (written : list VmbCameraInfo_t) :
  availableCameras api t
  = Some (infos, t0 ++ [EvCamerasList n VmbErrorSuccess found written]) ->
  length infos = Z.to_nat n /\
  (forall (i : nat) (info : VmbCameraInfo_t),
     (length written <= i)%nat -> infos !! i = Some info ->
     info = zero_info) /\
  exclusive_ids mask infos
  = exclusive_ids mask (take (Z.to_nat n) written).
Proof.
  unfold availableCameras. cbv zeta.
  destruct (CamerasList api t 0) as [e1 [n1 w1]]. cbn [fst snd].
  destruct (is_success e1) eqn:Hs1; cbn [negb].
  2: { intros H. injection H as _ Ht. apply app_inj_tail in Ht.
       destruct Ht as [_ Ht]. injection Ht as _ -> _ _. discriminate. }
  destruct (CamerasList api _ (uint32_t n1)) as [e2 [n2 w2]]. cbn [fst snd].
  destruct (is_success e2) eqn:Hs2; cbn [negb].
  2: { intros H. injection H as _ Ht. apply app_inj_tail in Ht.
       destruct Ht as [_ Ht]. injection Ht as _ -> _ _. discriminate. }
  intros H. injection H as <- Ht. apply app_inj_tail in Ht.
  destruct Ht as [_ Ht]. injection Ht as <- _ _ <-.
  split; [| split].
  - rewrite length_app, length_take, length_replicate. lia.
  - intros i info Hi Hget.
    rewrite lookup_app_r in Hget by (rewrite length_take; lia).
    apply lookup_replicate in Hget. destruct Hget as [-> _]. reflexivity.
  - apply exclusive_ids_padding.
Qed.

Lemma availableCameras_padding_witness :
  length (three_cameras ++ [zero_info]) = Z.to_nat 4 /\
  (forall (i : nat) (info : VmbCameraInfo_t),
     (length three_cameras <= i)%nat ->
     (three_cameras ++ [zero_info]) !! i = Some info ->
     info = zero_info) /\
  exclusive_ids 8 (three_cameras ++ [zero_info])
  = exclusive_ids 8 (take (Z.to_nat 4) three_cameras).
Proof.
  apply (availableCameras_padding 8
           (listing_api VmbErrorSuccess 4 three_cameras "ext:C") []
           [EvCamerasList 0 VmbErrorSuccess 4 []] _ 4 4).
  vm_compute. reflexivity.
Defined.
